(** * PyScriptBridge: a shallow embedding of the bridge registry

    The repository ships three variants of the registry:
    - [PerName]  the class of [src/unnamed/part_000], with one readiness
                 signal per function name and a private constructor key;
    - [Single]   the class of [src/assets/pysbridge.js], with one readiness
                 signal per instance, resolved by the public [resolve];
    - [Flat]     the global functions of [src/assets/pysbridge.js]
                 ([pys_promise], [pys_wait], ..., [pys_call_func]).

    Modelling conventions.
    - JavaScript values are the inductive [value].  Callbacks are opaque and
      identified by a number; a call the bridge makes to one is recorded in
      the event [log] and has no other effect on the bridge.  The getter or
      setter of an accessor property that a read or an assignment runs is
      not recorded.
    - Every store of the source is an object literal [{}], read with
      [obj[name]] and written with [obj[name] = v].  Such an object has its
      own properties and a prototype, at first [Object.prototype]: a read
      of a name that is not an own property sees the members of
      [Object.prototype] (["constructor"], ["toString"], ...), and an
      assignment to ["__proto__"] goes to the inherited setter, which
      replaces the prototype when the value is an object, a function or
      [null] and drops the value otherwise.  The stores are modelled with
      these rules ([dict], [state_store], [registry], [promise_get]).
    - What is outside the source is a parameter, the [host]: the members of
      the objects and functions outside code passes in, what the functions
      of [Object.prototype] do when they are called, and whether the flat
      script runs in strict mode.  Every property is proved for every host.
    - Instances live in a [heap]; a reference to an instance is its address,
      so identity of instances is equality of addresses.
    - A promise created by [#createPromise] is a [deferred]: a flag and the
      list of continuations waiting on it.  [await] on a settled promise
      schedules the continuation as a job; jobs run in FIFO order. *)

From stdpp Require Import base option numbers list gmap strings.

Open Scope string_scope.
Open Scope list_scope.

(** ** Values *)

(** [VObjectPrototype] is [Object.prototype] itself and [VBuiltin k] is its
    member function [Object.prototype[k]]; [VFunc], [VObject] are the
    callbacks and objects of outside code. *)
Inductive value : Type :=
| VUndefined
| VNull
| VBool (b : bool)
| VNum (z : Z)
| VStr (s : string)
| VSymbol (n : nat)
| VFunc (f : nat)
| VObject (o : nat)
| VInstance (a : nat)
| VObjectPrototype
| VBuiltin (k : string).

#[global] Instance value_eq_dec : EqDecision value.
Proof. solve_decision. Defined.

Definition typeof (v : value) : string :=
  match v with
  | VUndefined => "undefined"
  | VNull => "object"
  | VBool _ => "boolean"
  | VNum _ => "number"
  | VStr _ => "string"
  | VSymbol _ => "symbol"
  | VFunc _ => "function"
  | VObject _ => "object"
  | VInstance _ => "object"
  | VObjectPrototype => "object"
  | VBuiltin _ => "function"
  end.

(** ** Errors, results and events *)

Inductive error : Type :=
| Error (msg : string)
| TypeError (msg : string).

#[global] Instance error_eq_dec : EqDecision error.
Proof. solve_decision. Defined.

Inductive result (A : Type) : Type :=
| Ok (a : A)
| Throw (e : error).
Arguments Ok {A} a.
Arguments Throw {A} e.

Inductive event : Type :=
| Invoked (f : nat) (args : list value)
| Rejected (e : error).

#[global] Instance event_eq_dec : EqDecision event.
Proof. solve_decision. Defined.

(** ** Objects used as dictionaries *)

(** The function-valued members of [Object.prototype]; its twelfth member
    is the accessor ["__proto__"]. *)
Definition object_prototype_names : list string :=
  ["constructor"; "__defineGetter__"; "__defineSetter__"; "hasOwnProperty";
   "__lookupGetter__"; "__lookupSetter__"; "isPrototypeOf";
   "propertyIsEnumerable"; "toString"; "valueOf"; "toLocaleString"].

(** The names an empty [{}] already answers to. *)
Definition inherited (k : string) : Prop :=
  k = "__proto__" \/ k ∈ object_prototype_names.

#[global] Instance inherited_dec k : Decision (inherited k).
Proof. unfold inherited. apply _. Defined.

Definition plain (k : string) : Prop := ~ inherited k.

#[global] Instance plain_dec k : Decision (plain k).
Proof. unfold plain. apply _. Defined.

(** [Object.prototype[k]] for [k] other than ["__proto__"]. *)
Definition object_member (k : string) : value :=
  if decide (k ∈ object_prototype_names) then VBuiltin k else VUndefined.

(** [({})[k]]: what a read of [k] gives on an object that has no own
    property [k] and whose prototype is [Object.prototype]. *)
Definition object_get (k : string) : value :=
  if decide (k = "__proto__") then VObjectPrototype else object_member k.

(** An own property: a data property, or an accessor with its getter and
    setter ([undefined] when there is none). *)
Inductive property : Type :=
| Data (v : value)
| Accessor (get set : value).

#[global] Instance property_eq_dec : EqDecision property.
Proof. solve_decision. Defined.

(** An object used as a dictionary of values ([#refs], [#funcs],
    [__pysRefs], [__pysFunctions]). *)
Record dict : Type := mkDict {
  own : gmap string property;
  proto : value;
}.

(** The literal [{}]. *)
Definition empty_dict : dict := {| own := ∅; proto := VObjectPrototype |}.

(** A state entry [{ getter, setter }]. *)
Record state_entry : Type := mkState {
  getter : value;
  setter : value;
}.

(** The receiver of a method call [r.m(...)]. *)
Inductive receiver : Type :=
| OnStore (d : dict)
| OnEntry (e : state_entry)
| OnValue (v : value).

(** What an assignment [obj[k] = v] does when [k] is not an own property of
    [obj], as decided by the prototype chain: it defines an own data
    property, it is refused (an inherited read-only property or an accessor
    without setter), it runs an inherited setter, or it reaches the
    ["__proto__"] setter of [Object.prototype]. *)
Inductive put : Type :=
| Define
| Refuse
| RunSetter
| SetProto.

(** ** The host *)

Class host : Type := {
  (** [via p k]: a read of [k] that reaches the prototype [p], an object or
      function of outside code, or an instance *)
  via : value -> string -> value;
  (** [assign_via p k]: an assignment of [k] on an object whose prototype
      is [p], an object or function of outside code *)
  assign_via : value -> string -> put;
  (** [member v k]: the property [k] of a value of outside code *)
  member : value -> string -> value;
  (** what the getter of an accessor property returns *)
  getter_value : value -> value;
  (** the property key a value that is neither a string nor a symbol is
      converted to ([None]: a symbol) *)
  to_key : value -> result (option string);
  (** what a call of [Object.prototype[k]] on a receiver does, apart from
      the definition of accessors by ["__defineGetter__"] and
      ["__defineSetter__"] on a store, which [define] models *)
  builtin_call : string -> receiver -> list value -> list event * result unit;
  (** whether the flat script runs in strict mode *)
  strict_script : bool;
}.

Section Objects.
Context {H : host}.

(** A read of [k] that is not answered by an own property and reaches the
    prototype [p]. *)
Definition chain_get (p : value) (k : string) : value :=
  match p with
  | VObjectPrototype => object_get k
  | VFunc _ | VObject _ | VInstance _ | VBuiltin _ => via p k
  | _ => VUndefined
  end.

(** [d[k]]. *)
Definition dict_get (d : dict) (k : string) : value :=
  match own d !! k with
  | Some (Data v) => v
  | Some (Accessor g _) =>
      if decide (typeof g = "function") then getter_value g else VUndefined
  | None => chain_get (proto d) k
  end.

(** What the prototype [p] makes of an assignment to [k].  The members of
    [Object.prototype] and the methods of an instance are writable data
    properties, so they do not stand in the way of an own property. *)
Definition chain_put (p : value) (k : string) : put :=
  match p with
  | VObjectPrototype | VInstance _ =>
      if decide (k = "__proto__") then SetProto else Define
  | VFunc _ | VObject _ | VBuiltin _ => assign_via p k
  | _ => Define
  end.

Definition refused (strict : bool) (d : dict) : result dict :=
  if strict then Throw (TypeError "Cannot assign to read only property") else Ok d.

(** [d[k] = v]; [strict] says whether the assignment is in strict code. *)
Definition dict_put (strict : bool) (d : dict) (k : string) (v : value) : result dict :=
  match own d !! k with
  | Some (Data _) => Ok {| own := <[k := Data v]> (own d); proto := proto d |}
  | Some (Accessor _ s) =>
      if decide (typeof s = "function") then Ok d else refused strict d
  | None =>
      match chain_put (proto d) k with
      | Define => Ok {| own := <[k := Data v]> (own d); proto := proto d |}
      | SetProto =>
          if decide (typeof v = "object" \/ typeof v = "function")
          then Ok {| own := own d; proto := v |}
          else Ok d
      | RunSetter => Ok d
      | Refuse => refused strict d
      end
  end.

(** The property key of a value. *)
Definition key_of (v : value) : result (option string) :=
  match v with
  | VStr s => Ok (Some s)
  | VSymbol _ => Ok None
  | _ => to_key v
  end.

(** [d.__defineGetter__(p, f)] and [d.__defineSetter__(p, f)]: [f] must be
    callable; the own property [p] becomes an accessor. *)
Definition define (is_getter : bool) (d : dict) (args : list value)
  : list event * result unit * dict :=
  let f := default VUndefined (args !! 1) in
  if decide (typeof f ≠ "function")
  then ([], Throw (TypeError "Getter or setter must be a function"), d)
  else
    match key_of (default VUndefined (args !! 0)) with
    | Throw e => ([], Throw e, d)
    | Ok None => ([], Ok tt, d)
    | Ok (Some k) =>
        let '(g, s) := match own d !! k with
                       | Some (Accessor g s) => (g, s)
                       | _ => (VUndefined, VUndefined)
                       end in
        ([], Ok tt,
         {| own := <[k := if is_getter then Accessor f s else Accessor g f]> (own d);
            proto := proto d |})
    end.

(** [r.m(...args)] where [m] evaluates to [callee]: a callback is invoked
    (recorded as an event), a function of [Object.prototype] is left to the
    host, anything else raises a TypeError. *)
Definition invoke (r : receiver) (callee : value) (args : list value)
  : list event * result unit :=
  match callee with
  | VFunc f => ([Invoked f args], Ok tt)
  | VBuiltin k => builtin_call k r args
  | _ => ([], Throw (TypeError "not a function"))
  end.

(** [d[name](...args)] where [d[name]] evaluates to [callee]: the call has
    the store [d] as its receiver, so the two functions of
    [Object.prototype] that define accessors change the store. *)
Definition invoke_on (d : dict) (callee : value) (args : list value)
  : list event * result unit * dict :=
  match callee with
  | VBuiltin k =>
      if decide (k = "__defineGetter__") then define true d args
      else if decide (k = "__defineSetter__") then define false d args
      else (builtin_call k (OnStore d) args, d)
  | _ => (invoke (OnStore d) callee args, d)
  end.

End Objects.

(** The name [k] is answered by the store [d] itself: [d] has its original
    prototype, [k] is not a member of [Object.prototype], and [k] is not an
    accessor. *)
Definition ordinary (d : dict) (k : string) : Prop :=
  proto d = VObjectPrototype /\ plain k /\
  forall g s, own d !! k <> Some (Accessor g s).

(** The value of the own data property [k] of [d], [undefined] when [d] has
    none.  This is what [d[k]] reads on a name the store answers itself;
    on other names [d[k]] is [dict_get], which follows the prototype
    chain. *)
Definition own_data (d : dict) (k : string) : value :=
  match own d !! k with
  | Some (Data v) => v
  | _ => VUndefined
  end.

(** *** The state stores *)

(** [#states] and [__pysStates]: every value stored is a state entry, so
    the own properties are entries, and the prototype is [Object.prototype]
    ([None]) or the entry that was assigned to ["__proto__"]. *)
Record state_store : Type := mkStates {
  entries : gmap string state_entry;
  entry_proto : option state_entry;
}.

Definition empty_states : state_store := {| entries := ∅; entry_proto := None |}.

(** What a lookup in a store of the bridge's own objects finds: one of
    these objects, or a value that comes from the prototype chain
    ([undefined] when there is nothing). *)
Inductive lookup (A : Type) : Type :=
| Stored (x : A)
| Foreign (v : value).
Arguments Stored {A} x.
Arguments Foreign {A} v.

Definition typeof_lookup {A} (r : lookup A) : string :=
  match r with
  | Stored _ => "object"
  | Foreign v => typeof v
  end.

(** [states[k]]. *)
Definition states_get (s : state_store) (k : string) : lookup state_entry :=
  match entries s !! k with
  | Some e => Stored e
  | None =>
      match entry_proto s with
      | None => Foreign (object_get k)
      | Some e =>
          if decide (k = "__proto__") then Stored e
          else if decide (k = "getter") then Foreign (getter e)
          else if decide (k = "setter") then Foreign (setter e)
          else Foreign (object_member k)
      end
  end.

(** [states[k] = e]: an entry object has two writable data properties, so
    only ["__proto__"] is not defined as an own property. *)
Definition states_put (s : state_store) (k : string) (e : state_entry) : state_store :=
  match entries s !! k with
  | Some _ => {| entries := <[k := e]> (entries s); entry_proto := entry_proto s |}
  | None =>
      if decide (k = "__proto__")
      then {| entries := entries s; entry_proto := Some e |}
      else {| entries := <[k := e]> (entries s); entry_proto := entry_proto s |}
  end.

(** The two fields of a state entry. *)
Inductive entry_field : Type :=
| Getter
| Setter.

Definition field_name (k : entry_field) : string :=
  match k with
  | Getter => "getter"
  | Setter => "setter"
  end.

Section Fields.
Context {H : host}.

(** [r.getter] and [r.setter] on what a state lookup found: the field of
    an entry; a TypeError on [null]; [undefined] on [Object.prototype] and
    on its functions, which have no such member; and what the host says on
    a value of outside code. *)
Definition field (k : entry_field) (r : lookup state_entry) : result value :=
  match r with
  | Stored e => Ok (match k with Getter => getter e | Setter => setter e end)
  | Foreign VUndefined | Foreign VNull =>
      Throw (TypeError "Cannot read properties of undefined")
  | Foreign VObjectPrototype | Foreign (VBuiltin _) => Ok VUndefined
  | Foreign v => Ok (member v (field_name k))
  end.

Definition receiver_of (r : lookup state_entry) : receiver :=
  match r with
  | Stored e => OnEntry e
  | Foreign v => OnValue v
  end.

End Fields.

(** *** The instance mapping *)

(** [#pysBridge]: the own properties are instances, and the prototype is
    [Object.prototype] ([None]) or the instance that was assigned to
    ["__proto__"]. *)
Record registry : Type := mkRegistry {
  registered : gmap string nat;
  instance_proto : option nat;
}.

Definition empty_registry : registry := {| registered := ∅; instance_proto := None |}.

Section Registry.
Context {H : host}.

(** [#pysBridge[k]]. *)
Definition registry_get (r : registry) (k : string) : value :=
  match registered r !! k with
  | Some a => VInstance a
  | None =>
      match instance_proto r with
      | None => object_get k
      | Some a => if decide (k = "__proto__") then VInstance a else via (VInstance a) k
      end
  end.

End Registry.

(** [#pysBridge[k] = this]. *)
Definition registry_put (r : registry) (k : string) (a : nat) : registry :=
  match registered r !! k with
  | Some _ => {| registered := <[k := a]> (registered r); instance_proto := instance_proto r |}
  | None =>
      if decide (k = "__proto__")
      then {| registered := registered r; instance_proto := Some a |}
      else {| registered := <[k := a]> (registered r); instance_proto := instance_proto r |}
  end.

(** ** A state-and-exception monad for the methods *)

Definition M (S A : Type) : Type := S -> result A * S.

Definition ret {S A} (a : A) : M S A := fun s => (Ok a, s).
Definition throw {S A} (e : error) : M S A := fun s => (Throw e, s).
Definition bind {S A B} (c : M S A) (k : A -> M S B) : M S B :=
  fun s => match c s with
           | (Ok a, s') => k a s'
           | (Throw e, s') => (Throw e, s')
           end.
Definition gets {S A} (f : S -> A) : M S A := fun s => (Ok (f s), s).
Definition modify {S} (f : S -> S) : M S unit := fun s => (Ok tt, f s).
Definition lift_result {S A} (r : result A) : M S A := fun s => (r, s).

Notation "'let*' x ':=' c 'in' k" := (bind c (fun x => k))
  (at level 10, x name, c at level 100, k at level 200).
Notation "c ';;' k" := (bind c (fun _ => k))
  (at level 100, k at level 200, right associativity).

(** The state after a computation, and its outcome. *)
Definition exec {S A} (c : M S A) (s : S) : S := snd (c s).
Definition eval {S A} (c : M S A) (s : S) : result A := fst (c s).

(** ** Promises *)

Section Deferred.
Context {K : Type}.

(** [{ promise, resolve }] as built by [#createPromise]. *)
Record deferred : Type := mkDeferred {
  resolved : bool;
  reactions : list K;
}.

Definition createPromise : deferred :=
  {| resolved := false; reactions := [] |}.

(** [d.resolve()]: the first call settles the promise and hands back the
    continuations to schedule; later calls do nothing. *)
Definition settle (d : deferred) : deferred * list K :=
  if resolved d then (d, [])
  else ({| resolved := true; reactions := [] |}, reactions d).

(** [await d.promise] with continuation [k]: scheduled at once when the
    promise is settled, parked otherwise. *)
Definition await (d : deferred) (k : K) : deferred * list K :=
  if resolved d then (d, [k])
  else ({| resolved := false; reactions := reactions d ++ [k] |}, []).

(** [promises[k]] on a table of signals.  A signal is only ever assigned
    under a name for which the lookup gave [undefined], so the table keeps
    the prototype [Object.prototype]. *)
Definition promise_get (p : gmap string deferred) (k : string) : lookup deferred :=
  match p !! k with
  | Some d => Stored d
  | None => Foreign (object_get k)
  end.
End Deferred.
Arguments deferred K : clear implicits.

(** A suspended [call_func]: its receiver, function name and arguments. *)
Record frame : Type := mkFrame {
  this : nat;
  name : string;
  args : list value;
}.

(** ** The per-name-signal class ([src/unnamed/part_000]) *)

Module PerName.

(** Continuations: [WaitDone k] resumes [#wait] after its [await]; it
    returns, which settles the promise [call_func] awaits and schedules
    [CallBody k], the rest of [call_func]. *)
Inductive task : Type :=
| WaitDone (k : frame)
| CallBody (k : frame).

Record bridge : Type := mkBridge {
  states : state_store;
  refs : dict;
  funcs : dict;
  promise : gmap string (deferred task);
}.

Record world : Type := mkWorld {
  heap : list bridge;
  pysBridge : registry;
  jobs : list task;
  log : list event;
}.

Definition init : world :=
  {| heap := []; pysBridge := empty_registry; jobs := []; log := [] |}.

(** The fields of an instance after the field initialisers and the
    constructor ran. *)
Definition new_bridge : bridge :=
  {| states := empty_states; refs := empty_dict; funcs := empty_dict; promise := ∅ |}.

Definition PRIVATE_CONSTRUCTOR_KEY : value := VSymbol 0.
Definition pysBridgeGlobalName : string := "$pys_bridge_global_name".

Definition get_uuid_ref (pysid : value) : result string :=
  match pysid with
  | VStr s => if decide (s = "") then Ok pysBridgeGlobalName else Ok s
  | _ => Throw (Error "UUID must be a string.")
  end.

Definition constructor (pysid privateConstructorKey : value) : M world value :=
  if decide (privateConstructorKey ≠ PRIVATE_CONSTRUCTOR_KEY)
  then throw (Error "Cannot instantiate PysBridge directly.")
  else
    let* pysid := lift_result (get_uuid_ref pysid) in
    fun w =>
      let a := length (heap w) in
      (Ok (VInstance a),
       {| heap := heap w ++ [new_bridge];
          pysBridge := registry_put (pysBridge w) pysid a;
          jobs := jobs w; log := log w |}).

(** Access to the receiver's private fields; a receiver that is not an
    instance has none. *)
Definition self (a : nat) : M world bridge :=
  fun w => match heap w !! a with
           | Some b => (Ok b, w)
           | None => (Throw (TypeError "not a PysBridge instance"), w)
           end.

Definition update (a : nat) (f : bridge -> bridge) : M world unit :=
  modify (fun w => {| heap := alter f a (heap w); pysBridge := pysBridge w;
                      jobs := jobs w; log := log w |}).

Definition schedule (ts : list task) : M world unit :=
  modify (fun w => {| heap := heap w; pysBridge := pysBridge w;
                      jobs := jobs w ++ ts; log := log w |}).

Definition emit (es : list event) : M world unit :=
  modify (fun w => {| heap := heap w; pysBridge := pysBridge w;
                      jobs := jobs w; log := log w ++ es |}).

(** The body of an async function: an exception rejects the promise the
    function returned instead of reaching the caller. *)
Definition rejecting (c : M world unit) : M world unit :=
  fun w => match c w with
           | (Throw e, w') => emit [Rejected e] w'
           | r => r
           end.

Definition set_promise (funcname : string) (d : deferred task) (b : bridge) : bridge :=
  {| states := states b; refs := refs b; funcs := funcs b;
     promise := <[funcname := d]> (promise b) |}.

Definition with_states (s : state_store) (b : bridge) : bridge :=
  {| states := s; refs := refs b; funcs := funcs b; promise := promise b |}.

Definition with_refs (d : dict) (b : bridge) : bridge :=
  {| states := states b; refs := d; funcs := funcs b; promise := promise b |}.

Definition with_funcs (d : dict) (b : bridge) : bridge :=
  {| states := states b; refs := refs b; funcs := d; promise := promise b |}.

(** The state of the signal of [funcname] in the table itself: the one
    stored under [funcname], and the fresh one [#wait] and [#resolve]
    create when there is none and [funcname] is not a member of
    [Object.prototype].  (For a member of [Object.prototype] with nothing
    stored they create none; [promise_get] is what they read.) *)
Definition signal (funcname : string) (b : bridge) : deferred task :=
  default createPromise (promise b !! funcname).

(** The first statement of [#resolve] and [#wait]. *)
Definition ensure_promise (a : nat) (funcname : string) : M world unit :=
  let* b := self a in
  if decide (typeof_lookup (promise_get (promise b) funcname) = "undefined")
  then update a (set_promise funcname createPromise)
  else ret tt.

Definition resolve (a : nat) (funcname : string) : M world unit :=
  ensure_promise a funcname ;;
  let* b := self a in
  match promise_get (promise b) funcname with
  | Stored d =>
      let '(d', ts) := settle d in
      update a (set_promise funcname d') ;;
      schedule ts
  | Foreign _ => throw (TypeError "this.#promise[funcname].resolve is not a function")
  end.

(** [#wait] up to its [await], with [k] what runs after it.  A member of
    [Object.prototype] found under [funcname] has no [promise]: the
    [await] is on [undefined] and [k] is scheduled at once. *)
Definition wait (a : nat) (funcname : string) (k : task) : M world unit :=
  ensure_promise a funcname ;;
  let* b := self a in
  match promise_get (promise b) funcname with
  | Stored d =>
      let '(d', ts) := await d k in
      update a (set_promise funcname d') ;;
      schedule ts
  | Foreign v =>
      if decide (typeof v = "undefined")
      then throw (TypeError "Cannot read properties of undefined")
      else schedule [k]
  end.

Section Methods.
Context {H : host}.

Definition create_pys_bridge (pysid : value) : M world value :=
  let* pysid := lift_result (get_uuid_ref pysid) in
  let* found := gets (fun w => registry_get (pysBridge w) pysid) in
  if decide (typeof found = "undefined")
  then constructor (VStr pysid) PRIVATE_CONSTRUCTOR_KEY
  else ret found.

Definition get_pys_bridge (pysid : value) : M world value :=
  let* pysid := lift_result (get_uuid_ref pysid) in
  let* found := gets (fun w => registry_get (pysBridge w) pysid) in
  if decide (typeof found ≠ "undefined")
  then ret found
  else throw (Error ("Bridge id " +:+ pysid +:+ " not found.")).

Definition has_pys_bridge (pysid : value) : M world bool :=
  let* pysid := lift_result (get_uuid_ref pysid) in
  let* found := gets (fun w => registry_get (pysBridge w) pysid) in
  ret (bool_decide (typeof found ≠ "undefined")).

Definition add_state (a : nat) (name : string) (stateObject stateSetterObject : value)
  : M world unit :=
  let* b := self a in
  update a (with_states
              (states_put (states b) name
                          {| getter := stateObject; setter := stateSetterObject |})).

Definition state (a : nat) (name : string) : M world value :=
  let* b := self a in
  if decide (typeof_lookup (states_get (states b) name) ≠ "undefined")
  then lift_result (field Getter (states_get (states b) name))
  else throw (Error ("State " +:+ name +:+ " not found.")).

(** [r.m(...args)] on a receiver that is not a store. *)
Definition call (r : receiver) (callee : value) (args : list value) : M world unit :=
  fun w => let '(es, o) := invoke r callee args in
           (o, {| heap := heap w; pysBridge := pysBridge w; jobs := jobs w;
                  log := log w ++ es |}).

Definition set_state (a : nat) (name : string) (v : value) : M world unit :=
  let* b := self a in
  if decide (typeof_lookup (states_get (states b) name) ≠ "undefined")
  then
    let* s := lift_result (field Setter (states_get (states b) name)) in
    call (receiver_of (states_get (states b) name)) s [v]
  else throw (Error ("State " +:+ name +:+ " not found.")).

Definition has_state (a : nat) (name : string) : M world bool :=
  let* b := self a in
  ret (bool_decide (typeof_lookup (states_get (states b) name) ≠ "undefined")).

Definition add_ref (a : nat) (name : string) (v : value) : M world unit :=
  let* b := self a in
  let* d := lift_result (dict_put true (refs b) name v) in
  update a (with_refs d).

Definition ref (a : nat) (name : string) : M world value :=
  let* b := self a in
  if decide (typeof (dict_get (refs b) name) ≠ "undefined")
  then ret (dict_get (refs b) name)
  else throw (Error ("Var " +:+ name +:+ " not found.")).

Definition has_ref (a : nat) (name : string) : M world bool :=
  let* b := self a in
  ret (bool_decide (typeof (dict_get (refs b) name) ≠ "undefined")).

Definition add_func (a : nat) (name : string) (funcObject : value) : M world unit :=
  if decide (typeof funcObject ≠ "function")
  then throw (Error "Function must be a function.")
  else
    let* b := self a in
    let* d := lift_result (dict_put true (funcs b) name funcObject) in
    update a (with_funcs d) ;;
    resolve a name.

(** [call_func] up to its first suspension point. *)
Definition call_func (a : nat) (name : string) (args : list value) : M world unit :=
  rejecting (wait a name (WaitDone {| this := a; name := name; args := args |})).

Definition has_func (a : nat) (name : string) : M world bool :=
  let* b := self a in
  ret (bool_decide (typeof (dict_get (funcs b) name) = "function")).

(** [this.#funcs[name](...args)], the store being the receiver. *)
Definition call_stored (a : nat) (b : bridge) (callee : value) (args : list value)
  : M world unit :=
  let '(es, o, d) := invoke_on (funcs b) callee args in
  update a (with_funcs d) ;;
  emit es ;;
  lift_result o.

(** Running one continuation. *)
Definition run_task (t : task) : M world unit :=
  match t with
  | WaitDone k => schedule [CallBody k]
  | CallBody k =>
      rejecting (
        let* b := self (this k) in
        if decide (typeof (dict_get (funcs b) (name k)) = "function")
        then call_stored (this k) b (dict_get (funcs b) (name k)) (args k)
        else ret tt)
  end.

(** *** The job queue *)

Definition set_jobs (ts : list task) (w : world) : world :=
  {| heap := heap w; pysBridge := pysBridge w; jobs := ts; log := log w |}.

(** One turn of the job queue: the oldest continuation runs. *)
Definition tick (w : world) : world :=
  match jobs w with
  | [] => w
  | t :: ts => exec (run_task t) (set_jobs ts w)
  end.

Fixpoint run_jobs (fuel : nat) (w : world) : world :=
  match fuel with
  | 0 => w
  | S n => match jobs w with
           | [] => w
           | _ :: _ => run_jobs n (tick w)
           end
  end.

(** A [WaitDone] schedules one more job, a [CallBody] none. *)
Definition weight (t : task) : nat :=
  match t with WaitDone _ => 2 | CallBody _ => 1 end.

Definition total_weight (ts : list task) : nat := sum_list_with weight ts.

(** Run the queue until it is empty. *)
Definition drain (w : world) : world := run_jobs (total_weight (jobs w)) w.

(** *** Histories *)

(** What code outside the class can do: call the static and instance
    methods, try the constructor, and let a job run. *)
Inductive op : Type :=
| New (pysid key : value)
| Create (pysid : value)
| Get (pysid : value)
| Has (pysid : value)
| AddState (a : nat) (name : string) (stateObject stateSetterObject : value)
| State (a : nat) (name : string)
| SetState (a : nat) (name : string) (v : value)
| HasState (a : nat) (name : string)
| AddRef (a : nat) (name : string) (v : value)
| Ref (a : nat) (name : string)
| HasRef (a : nat) (name : string)
| AddFunc (a : nat) (name : string) (funcObject : value)
| CallFunc (a : nat) (name : string) (args : list value)
| HasFunc (a : nat) (name : string)
| Tick.

Definition perform (o : op) (w : world) : world :=
  match o with
  | New pysid key => exec (constructor pysid key) w
  | Create pysid => exec (create_pys_bridge pysid) w
  | Get pysid => exec (get_pys_bridge pysid) w
  | Has pysid => exec (has_pys_bridge pysid) w
  | AddState a name g s => exec (add_state a name g s) w
  | State a name => exec (state a name) w
  | SetState a name v => exec (set_state a name v) w
  | HasState a name => exec (has_state a name) w
  | AddRef a name v => exec (add_ref a name v) w
  | Ref a name => exec (ref a name) w
  | HasRef a name => exec (has_ref a name) w
  | AddFunc a name f => exec (add_func a name f) w
  | CallFunc a name args => exec (call_func a name args) w
  | HasFunc a name => exec (has_func a name) w
  | Tick => tick w
  end.

(** [PRIVATE_CONSTRUCTOR_KEY] is a symbol that never leaves the file, so
    outside code cannot pass it to the constructor. *)
Definition allowed (o : op) : Prop :=
  match o with
  | New _ key => key ≠ PRIVATE_CONSTRUCTOR_KEY
  | _ => True
  end.

Inductive reachable : world -> Prop :=
| reachable_init : reachable init
| reachable_step w o : reachable w -> allowed o -> reachable (perform o w).

(** A history: operations performed one after the other. *)
Fixpoint perform_all (os : list op) (w : world) : world :=
  match os with
  | [] => w
  | o :: os' => perform_all os' (perform o w)
  end.

(** *** Invariants of the histories *)

(** How one operation can change the instance at address [a]: not at all,
    in its state and ref stores, by the assignment of [add_func] (followed
    by [#resolve], unless that throws), by parking or scheduling a
    [call_func], or by a stored call that defines an accessor. *)
Inductive bridge_step (a : nat) (b : bridge) : bridge -> Prop :=
| bridge_same : bridge_step a b b
| bridge_store st rf :
    bridge_step a b {| states := st; refs := rf; funcs := funcs b; promise := promise b |}
| bridge_assign f v d :
    typeof v = "function" ->
    dict_put true (funcs b) f v = Ok d ->
    inherited f ->
    bridge_step a b (with_funcs d b)
| bridge_add_func f v d :
    typeof v = "function" ->
    dict_put true (funcs b) f v = Ok d ->
    (promise b !! f = None -> plain f) ->
    bridge_step a b (set_promise f (settle (signal f b)).1 (with_funcs d b))
| bridge_wait f xs :
    (promise b !! f = None -> plain f) ->
    bridge_step a b
      (set_promise f
         (await (signal f b) (WaitDone {| this := a; name := f; args := xs |})).1 b)
| bridge_define callee xs :
    bridge_step a b (with_funcs (invoke_on (funcs b) callee xs).2 b).

(** An operation that creates no instance: the mapping is unchanged and
    every instance makes a [bridge_step]. *)
Definition steps_in_place (w w' : world) : Prop :=
  pysBridge w' = pysBridge w /\
  length (heap w') = length (heap w) /\
  forall a b', heap w' !! a = Some b' ->
               exists b, heap w !! a = Some b /\ bridge_step a b b'.

End Methods.

(** The argument lists of the calls parked on the signal of [f]. *)
Definition pending (f : string) (b : bridge) : list (list value) :=
  (fun t => match t with WaitDone k | CallBody k => args k end)
    <$> reactions (signal f b).

(** On an instance, for a name the function store answers itself, the
    signal is resolved exactly when a function is stored under the name;
    the continuations parked on a signal are calls of that name on the
    instance; a signal is stored under plain names only; and nothing is
    parked on a resolved signal. *)
Definition bridge_ok (a : nat) (b : bridge) : Prop :=
  forall f,
    (ordinary (funcs b) f ->
     (resolved (signal f b) = true <-> typeof (own_data (funcs b) f) = "function")) /\
    Forall (fun t => exists xs, t = WaitDone {| this := a; name := f; args := xs |})
           (reactions (signal f b)) /\
    (is_Some (promise b !! f) -> plain f) /\
    (resolved (signal f b) = true -> reactions (signal f b) = []).

(** The instance mapping has its original prototype and is a bijection
    between the registered ids and the addresses of the heap. *)
Definition registry_ok (w : world) : Prop :=
  instance_proto (pysBridge w) = None /\
  (forall id a, registered (pysBridge w) !! id = Some a -> a < length (heap w)) /\
  (forall a, a < length (heap w) -> exists id, registered (pysBridge w) !! id = Some a) /\
  (forall i j a, registered (pysBridge w) !! i = Some a ->
                 registered (pysBridge w) !! j = Some a -> i = j).

Definition invariant (w : world) : Prop :=
  registry_ok w /\ forall a b, heap w !! a = Some b -> bridge_ok a b.

(** The world after the constructor ran for the normalized id [id]. *)
Definition constructed (id : string) (w : world) : world :=
  {| heap := heap w ++ [new_bridge];
     pysBridge := registry_put (pysBridge w) id (length (heap w));
     jobs := jobs w; log := log w |}.

End PerName.

(** ** The single-signal class ([src/assets/pysbridge.js], first part) *)

Module Single.

(** Continuations of [call_func]: [WaitDone k] resumes [wait] after its
    [await], [CallBody k] is the rest of [call_func]. *)
Inductive task : Type :=
| WaitDone (k : frame)
| CallBody (k : frame).

Record bridge : Type := mkBridge {
  states : state_store;
  refs : dict;
  funcs : dict;
  promise : deferred task;
}.

Record world : Type := mkWorld {
  heap : list bridge;
  pysBridge : registry;
  jobs : list task;
  log : list event;
}.

Definition init : world :=
  {| heap := []; pysBridge := empty_registry; jobs := []; log := [] |}.

(** The fields of an instance after the constructor ran. *)
Definition new_bridge : bridge :=
  {| states := empty_states; refs := empty_dict; funcs := empty_dict;
     promise := createPromise |}.

Definition pysBridgeGlobalName : string := "$pys_bridge_global_name".

Definition get_uuid_ref (pysid : value) : result string :=
  match pysid with
  | VStr s => if decide (s = "") then Ok pysBridgeGlobalName else Ok s
  | _ => Throw (Error "UUID must be a string.")
  end.

Definition constructor (pysid : value) : M world value :=
  let* pysid := lift_result (get_uuid_ref pysid) in
  fun w =>
    let a := length (heap w) in
    (Ok (VInstance a),
     {| heap := heap w ++ [new_bridge];
        pysBridge := registry_put (pysBridge w) pysid a;
        jobs := jobs w; log := log w |}).

Definition self (a : nat) : M world bridge :=
  fun w => match heap w !! a with
           | Some b => (Ok b, w)
           | None => (Throw (TypeError "not a PysBridge instance"), w)
           end.

Definition update (a : nat) (f : bridge -> bridge) : M world unit :=
  modify (fun w => {| heap := alter f a (heap w); pysBridge := pysBridge w;
                      jobs := jobs w; log := log w |}).

Definition schedule (ts : list task) : M world unit :=
  modify (fun w => {| heap := heap w; pysBridge := pysBridge w;
                      jobs := jobs w ++ ts; log := log w |}).

Definition emit (es : list event) : M world unit :=
  modify (fun w => {| heap := heap w; pysBridge := pysBridge w;
                      jobs := jobs w; log := log w ++ es |}).

(** The body of an async function: an exception rejects the promise the
    function returned instead of reaching the caller. *)
Definition rejecting (c : M world unit) : M world unit :=
  fun w => match c w with
           | (Throw e, w') => emit [Rejected e] w'
           | r => r
           end.

Definition set_promise (d : deferred task) (b : bridge) : bridge :=
  {| states := states b; refs := refs b; funcs := funcs b; promise := d |}.

Definition with_states (s : state_store) (b : bridge) : bridge :=
  {| states := s; refs := refs b; funcs := funcs b; promise := promise b |}.

Definition with_refs (d : dict) (b : bridge) : bridge :=
  {| states := states b; refs := d; funcs := funcs b; promise := promise b |}.

Definition with_funcs (d : dict) (b : bridge) : bridge :=
  {| states := states b; refs := refs b; funcs := d; promise := promise b |}.

Definition resolve (a : nat) : M world unit :=
  let* b := self a in
  let '(d, ts) := settle (promise b) in
  update a (set_promise d) ;;
  schedule ts.

(** [wait] up to its [await], with [k] what runs after it. *)
Definition wait (a : nat) (k : task) : M world unit :=
  let* b := self a in
  let '(d, ts) := await (promise b) k in
  update a (set_promise d) ;;
  schedule ts.

Section Methods.
Context {H : host}.

Definition call (r : receiver) (callee : value) (args : list value) : M world unit :=
  fun w => let '(es, o) := invoke r callee args in
           (o, {| heap := heap w; pysBridge := pysBridge w; jobs := jobs w;
                  log := log w ++ es |}).

Definition state (a : nat) (name : string) : M world value :=
  let* b := self a in
  if decide (typeof_lookup (states_get (states b) name) ≠ "undefined")
  then lift_result (field Getter (states_get (states b) name))
  else throw (Error ("State " +:+ name +:+ " not found.")).

Definition set_state (a : nat) (name : string) (v : value) : M world unit :=
  let* b := self a in
  if decide (typeof_lookup (states_get (states b) name) ≠ "undefined")
  then
    let* s := lift_result (field Setter (states_get (states b) name)) in
    call (receiver_of (states_get (states b) name)) s [v]
  else throw (Error ("State " +:+ name +:+ " not found.")).

Definition ref (a : nat) (name : string) : M world value :=
  let* b := self a in
  if decide (typeof (dict_get (refs b) name) ≠ "undefined")
  then ret (dict_get (refs b) name)
  else throw (Error ("Var " +:+ name +:+ " not found.")).

Definition add_ref (a : nat) (name : string) (v : value) : M world unit :=
  let* b := self a in
  let* d := lift_result (dict_put true (refs b) name v) in
  update a (with_refs d).

Definition add_state (a : nat) (name : string) (stateObject stateSetterObject : value)
  : M world unit :=
  let* b := self a in
  update a (with_states
              (states_put (states b) name
                          {| getter := stateObject; setter := stateSetterObject |})).

Definition add_func (a : nat) (name : string) (funcObject : value) : M world unit :=
  let* b := self a in
  let* d := lift_result (dict_put true (funcs b) name funcObject) in
  update a (with_funcs d).

(** [call_func] up to its first suspension point. *)
Definition call_func (a : nat) (name : string) (args : list value) : M world unit :=
  rejecting (wait a (WaitDone {| this := a; name := name; args := args |})).

Definition create_pys_bridge (pysid : value) : M world value :=
  let* pysid := lift_result (get_uuid_ref pysid) in
  let* found := gets (fun w => registry_get (pysBridge w) pysid) in
  if decide (typeof found = "undefined")
  then constructor (VStr pysid)
  else ret VUndefined.

Definition get_pys_bridge (pysid : value) : M world value :=
  let* pysid := lift_result (get_uuid_ref pysid) in
  let* found := gets (fun w => registry_get (pysBridge w) pysid) in
  if decide (typeof found ≠ "undefined")
  then ret found
  else throw (Error ("Bridge id " +:+ pysid +:+ " not found.")).

(** [this.#funcs[name](...args)], the store being the receiver. *)
Definition call_stored (a : nat) (b : bridge) (callee : value) (args : list value)
  : M world unit :=
  let '(es, o, d) := invoke_on (funcs b) callee args in
  update a (with_funcs d) ;;
  emit es ;;
  lift_result o.

(** Running one continuation; an exception in the body of the async
    [call_func] rejects the promise it returned. *)
Definition run_task (t : task) : M world unit :=
  match t with
  | WaitDone k => schedule [CallBody k]
  | CallBody k =>
      rejecting (
        let* b := self (this k) in
        if decide (typeof (dict_get (funcs b) (name k)) = "function")
        then call_stored (this k) b (dict_get (funcs b) (name k)) (args k)
        else throw (Error ("Function " +:+ name k +:+ " not function.")))
  end.

(** *** The job queue *)

Definition set_jobs (ts : list task) (w : world) : world :=
  {| heap := heap w; pysBridge := pysBridge w; jobs := ts; log := log w |}.

Definition tick (w : world) : world :=
  match jobs w with
  | [] => w
  | t :: ts => exec (run_task t) (set_jobs ts w)
  end.

Fixpoint run_jobs (fuel : nat) (w : world) : world :=
  match fuel with
  | 0 => w
  | S n => match jobs w with
           | [] => w
           | _ :: _ => run_jobs n (tick w)
           end
  end.

Definition weight (t : task) : nat :=
  match t with WaitDone _ => 2 | CallBody _ => 1 end.

Definition total_weight (ts : list task) : nat := sum_list_with weight ts.

Definition drain (w : world) : world := run_jobs (total_weight (jobs w)) w.

End Methods.

End Single.

(** ** The flat global API ([src/assets/pysbridge.js], second part) *)

Module Flat.

(** Continuations of [pys_call_func]: [WaitDone] resumes [pys_wait] after
    its [await], [CallBody] is the rest of [pys_call_func]; [Waited]
    resumes a [pys_wait] that outside code called itself. *)
Inductive task : Type :=
| WaitDone (functionName : string) (args : list value)
| CallBody (functionName : string) (args : list value)
| Waited.

(** The four global dictionaries, the job queue and the event log. *)
Record world : Type := mkWorld {
  pysPromises : gmap string (deferred task);
  pysStates : state_store;
  pysRefs : dict;
  pysFunctions : dict;
  jobs : list task;
  log : list event;
}.

Definition init : world :=
  {| pysPromises := ∅; pysStates := empty_states; pysRefs := empty_dict;
     pysFunctions := empty_dict; jobs := []; log := [] |}.

Definition set_promises (p : gmap string (deferred task)) (w : world) : world :=
  {| pysPromises := p; pysStates := pysStates w; pysRefs := pysRefs w;
     pysFunctions := pysFunctions w; jobs := jobs w; log := log w |}.

Definition set_states (s : state_store) (w : world) : world :=
  {| pysPromises := pysPromises w; pysStates := s; pysRefs := pysRefs w;
     pysFunctions := pysFunctions w; jobs := jobs w; log := log w |}.

Definition set_refs (d : dict) (w : world) : world :=
  {| pysPromises := pysPromises w; pysStates := pysStates w; pysRefs := d;
     pysFunctions := pysFunctions w; jobs := jobs w; log := log w |}.

Definition set_functions (d : dict) (w : world) : world :=
  {| pysPromises := pysPromises w; pysStates := pysStates w; pysRefs := pysRefs w;
     pysFunctions := d; jobs := jobs w; log := log w |}.

Definition schedule (ts : list task) : M world unit :=
  modify (fun w => {| pysPromises := pysPromises w; pysStates := pysStates w;
                      pysRefs := pysRefs w; pysFunctions := pysFunctions w;
                      jobs := jobs w ++ ts; log := log w |}).

Definition emit (es : list event) : M world unit :=
  modify (fun w => {| pysPromises := pysPromises w; pysStates := pysStates w;
                      pysRefs := pysRefs w; pysFunctions := pysFunctions w;
                      jobs := jobs w; log := log w ++ es |}).

(** The body of an async function: an exception rejects the promise the
    function returned instead of reaching the caller. *)
Definition rejecting (c : M world unit) : M world unit :=
  fun w => match c w with
           | (Throw e, w') => emit [Rejected e] w'
           | r => r
           end.

Definition pys_promise (promiseName : string) : M world unit :=
  let* found := gets (fun w => promise_get (pysPromises w) promiseName) in
  if decide (typeof_lookup found = "undefined")
  then modify (fun w => set_promises (<[promiseName := createPromise]> (pysPromises w)) w)
  else ret tt.

(** The first statement of [pys_wait] and [pys_resolve]. *)
Definition ensure_promise (promiseName : string) : M world unit :=
  let* found := gets (fun w => promise_get (pysPromises w) promiseName) in
  if decide (typeof_lookup found = "undefined")
  then pys_promise promiseName
  else ret tt.

(** The body of [pys_wait] up to its [await], with [k] what runs after
    it.  A member of [Object.prototype] found under [promiseName] has no
    [promise]: the [await] is on [undefined] and [k] is scheduled at
    once. *)
Definition pys_wait (promiseName : string) (k : task) : M world unit :=
  ensure_promise promiseName ;;
  let* found := gets (fun w => promise_get (pysPromises w) promiseName) in
  match found with
  | Stored d =>
      let '(d', ts) := await d k in
      modify (fun w => set_promises (<[promiseName := d']> (pysPromises w)) w) ;;
      schedule ts
  | Foreign v =>
      if decide (typeof v = "undefined")
      then throw (TypeError "Cannot read properties of undefined")
      else schedule [k]
  end.

Definition pys_resolve (promiseName : string) : M world unit :=
  ensure_promise promiseName ;;
  let* found := gets (fun w => promise_get (pysPromises w) promiseName) in
  match found with
  | Stored d =>
      let '(d', ts) := settle d in
      modify (fun w => set_promises (<[promiseName := d']> (pysPromises w)) w) ;;
      schedule ts
  | Foreign _ =>
      throw (TypeError "globalThis.__pysPromises[promiseName].resolve is not a function")
  end.

(** The state of the signal of [promiseName] in the table itself: the one
    stored under [promiseName], and the fresh one [pys_promise] creates
    when there is none and [promiseName] is not a member of
    [Object.prototype].  (For a member of [Object.prototype] with nothing
    stored none is created; [promise_get] is what the functions read.) *)
Definition signal (promiseName : string) (w : world) : deferred task :=
  default createPromise (pysPromises w !! promiseName).

Section Functions.
Context {H : host}.

Definition call (r : receiver) (callee : value) (args : list value) : M world unit :=
  fun w => let '(es, o) := invoke r callee args in
           (o, {| pysPromises := pysPromises w; pysStates := pysStates w;
                  pysRefs := pysRefs w; pysFunctions := pysFunctions w;
                  jobs := jobs w; log := log w ++ es |}).

Definition pys_register_state (stateName : string) (stateObject stateSetterObject : value)
  : M world unit :=
  modify (fun w => set_states
                     (states_put (pysStates w) stateName
                                 {| getter := stateObject; setter := stateSetterObject |}) w).

Definition pys_register_ref (refName : string) (refObject : value) : M world unit :=
  let* refs := gets pysRefs in
  let* d := lift_result (dict_put strict_script refs refName refObject) in
  modify (set_refs d).

Definition pys_func (functionName : string) (functionObject : value) : M world unit :=
  let* fs := gets pysFunctions in
  let* d := lift_result (dict_put strict_script fs functionName functionObject) in
  modify (set_functions d).

Definition pys_get (stateName : string) : M world value :=
  let* found := gets (fun w => states_get (pysStates w) stateName) in
  if decide (typeof_lookup found ≠ "undefined")
  then lift_result (field Getter found)
  else throw (Error ("State " +:+ stateName +:+ " not found.")).

Definition pys_set (stateName : string) (v : value) : M world unit :=
  let* found := gets (fun w => states_get (pysStates w) stateName) in
  if decide (typeof_lookup found ≠ "undefined")
  then
    let* s := lift_result (field Setter found) in
    call (receiver_of found) s [v]
  else throw (Error ("State " +:+ stateName +:+ " not found.")).

Definition pys_ref (refName : string) : M world value :=
  let* r := gets (fun w => dict_get (pysRefs w) refName) in
  if decide (typeof r ≠ "undefined")
  then ret r
  else throw (Error ("Ref " +:+ refName +:+ " not found.")).

(** [globalThis.__pysFunctions[functionName](...args)], the store being the
    receiver. *)
Definition call_stored (callee : value) (args : list value) : M world unit :=
  let* fs := gets pysFunctions in
  let '(es, o, d) := invoke_on fs callee args in
  modify (set_functions d) ;;
  emit es ;;
  lift_result o.

(** The part of [pys_call_func] after the optional wait. *)
Definition call_body (functionName : string) (args : list value) : M world unit :=
  let* f := gets (fun w => dict_get (pysFunctions w) functionName) in
  if decide (typeof f = "function")
  then call_stored f args
  else throw (Error ("Function " +:+ functionName +:+ " not function.")).

(** [pys_call_func] up to its first suspension point; [promiseName] is
    any value, [VUndefined] when the argument is omitted.  It is an async
    function: its exceptions reject the promise it returned. *)
Definition pys_call_func (functionName : string) (promiseName : value) (args : list value)
  : M world unit :=
  rejecting (
    match promiseName with
    | VStr p =>
        if decide (p ≠ "")
        then pys_wait p (WaitDone functionName args)
        else call_body functionName args
    | _ => call_body functionName args
    end).

Definition run_task (t : task) : M world unit :=
  match t with
  | WaitDone functionName args => schedule [CallBody functionName args]
  | CallBody functionName args => rejecting (call_body functionName args)
  | Waited => ret tt
  end.

(** *** The job queue *)

Definition set_jobs (ts : list task) (w : world) : world :=
  {| pysPromises := pysPromises w; pysStates := pysStates w;
     pysRefs := pysRefs w; pysFunctions := pysFunctions w;
     jobs := ts; log := log w |}.

Definition tick (w : world) : world :=
  match jobs w with
  | [] => w
  | t :: ts => exec (run_task t) (set_jobs ts w)
  end.

Fixpoint run_jobs (fuel : nat) (w : world) : world :=
  match fuel with
  | 0 => w
  | S n => match jobs w with
           | [] => w
           | _ :: _ => run_jobs n (tick w)
           end
  end.

Definition weight (t : task) : nat :=
  match t with WaitDone _ _ => 2 | CallBody _ _ => 1 | Waited => 1 end.

Definition total_weight (ts : list task) : nat := sum_list_with weight ts.

Definition drain (w : world) : world := run_jobs (total_weight (jobs w)) w.

(** *** Histories *)

Inductive op : Type :=
| Promise (promiseName : string)
| Wait (promiseName : string)
| Resolve (promiseName : string)
| RegisterState (stateName : string) (stateObject stateSetterObject : value)
| RegisterRef (refName : string) (refObject : value)
| Func (functionName : string) (functionObject : value)
| Get (stateName : string)
| Set_ (stateName : string) (v : value)
| Ref (refName : string)
| CallFunc (functionName : string) (promiseName : value) (args : list value)
| Tick.

Definition perform (o : op) (w : world) : world :=
  match o with
  | Promise n => exec (pys_promise n) w
  | Wait n => exec (rejecting (pys_wait n Waited)) w
  | Resolve n => exec (pys_resolve n) w
  | RegisterState n g s => exec (pys_register_state n g s) w
  | RegisterRef n v => exec (pys_register_ref n v) w
  | Func n f => exec (pys_func n f) w
  | Get n => exec (pys_get n) w
  | Set_ n v => exec (pys_set n v) w
  | Ref n => exec (pys_ref n) w
  | CallFunc n p args => exec (pys_call_func n p args) w
  | Tick => tick w
  end.

(** A history: operations performed one after the other. *)
Fixpoint perform_all (os : list op) (w : world) : world :=
  match os with
  | [] => w
  | o :: os' => perform_all os' (perform o w)
  end.

End Functions.

End Flat.

(** The id [get_uuid_ref] yields on a string. *)
Definition normalized (s : string) : string :=
  if decide (s = "") then "$pys_bridge_global_name" else s.

(** ** Worlds used in the examples *)

(** A host for the examples: the objects and callbacks of outside code
    have no members of their own (they inherit those of
    [Object.prototype]), no getter returns a value, and the functions of
    [Object.prototype] return without calling anything. *)
Definition bare_host : host :=
  {| via := fun p k => if decide (k = "__proto__") then p else object_member k;
     assign_via := fun _ k => if decide (k = "__proto__") then SetProto else Define;
     member := fun _ _ => VUndefined;
     getter_value := fun _ => VUndefined;
     to_key := fun _ => Ok None;
     builtin_call := fun _ _ _ => ([], Ok tt);
     strict_script := false |}.

Module Examples.
#[local] Existing Instance bare_host.

(** Per-name class: instance ["a"] at address 0, instance ["b"] at 1. *)
Definition pw_a : PerName.world :=
  exec (PerName.create_pys_bridge (VStr "a")) PerName.init.
Definition pw_ab : PerName.world :=
  exec (PerName.create_pys_bridge (VStr "b")) pw_a.

(** Single-signal class: instance ["a"] at address 0. *)
Definition sw_a : Single.world :=
  exec (Single.create_pys_bridge (VStr "a")) Single.init.

(** [call_func("f", 1, 2)], then [add_func("f", fn)] with [fn] the
    callback 7, the job queue running dry after each. *)
Definition sw_called : Single.world :=
  Single.drain (exec (Single.call_func 0 "f" [VNum 1; VNum 2]) sw_a).


(** Per-name class: the callback 7 registered as ["f"] on instance 0. *)
Definition pw_f : PerName.world :=
  exec (PerName.add_func 0 "f" (VFunc 7)) pw_a.

(** Flat API: the signal ["ready"] resolved. *)
Definition fw_ready : Flat.world :=
  exec (Flat.pys_resolve "ready") Flat.init.

(** Single-signal class: two instances constructed under the id ["a"]. *)
Definition sw_twice : Single.world :=
  exec (Single.constructor (VStr "a")) (exec (Single.constructor (VStr "a")) Single.init).

(** Single-signal class: instance 0 resolved. *)
Definition sw_resolved : Single.world := exec (Single.resolve 0) sw_a.

(** Flat API: the callbacks 7 and 8 registered as ["f"] and ["g"]. *)
Definition fw_fg : Flat.world :=
  exec (Flat.pys_func "g" (VFunc 8)) (exec (Flat.pys_func "f" (VFunc 7)) Flat.init).

End Examples.

(** ** Further notions used in the properties *)

(** An assignment [d[k] = v] defines or replaces the own data property [k]
    of the store [d]: [d] has its original prototype, [k] is not
    ["__proto__"], and [k] is not an accessor. *)
Definition settable (d : dict) (k : string) : Prop :=
  proto d = VObjectPrototype /\ k <> "__proto__" /\
  forall g s, own d !! k <> Some (Accessor g s).

Section Outcomes.
Context {H : host}.

(** The event the body of [call_func] of the single-signal class produces
    for the function name [f] on the instance [b], when what the function
    store answers is not a function of [Object.prototype]. *)
Definition single_outcome (b : Single.bridge) (f : string) (xs : list value) : event :=
  match dict_get (Single.funcs b) f with
  | VFunc fn => Invoked fn xs
  | _ => Rejected (Error ("Function " +:+ f +:+ " not function."))
  end.

(** The event the body of the flat [pys_call_func] produces, when what the
    function store answers is not a function of [Object.prototype]. *)
Definition flat_outcome (w : Flat.world) (call : string * list value) : event :=
  match dict_get (Flat.pysFunctions w) call.1 with
  | VFunc fn => Invoked fn call.2
  | _ => Rejected (Error ("Function " +:+ call.1 +:+ " not function."))
  end.

End Outcomes.

(** The two continuations of a flat call. *)
Definition parked_call (call : string * list value) : Flat.task :=
  Flat.WaitDone call.1 call.2.
Definition resumed_call (call : string * list value) : Flat.task :=
  Flat.CallBody call.1 call.2.

(** [pys_call_func(name, p, ...args)] as an operation of a history. *)
Definition flat_call (p : string) (call : string * list value) : Flat.op :=
  Flat.CallFunc call.1 (VStr p) call.2.

(** * Properties *)


(** ** The monad and the promises *)

Ltac unfold_monad :=
  unfold exec, eval, bind, ret, throw, gets, modify, lift_result in *.

Lemma typeof_function v :
  typeof v = "function" <-> (exists f, v = VFunc f) \/ (exists k, v = VBuiltin k).
Proof.
  split.
  - destruct v; simpl; try discriminate; eauto.
  - intros [[f ->]|[k ->]]; reflexivity.
Qed.

Lemma typeof_undefined v : typeof v = "undefined" <-> v = VUndefined.
Proof. split; [destruct v; simpl; congruence | intros ->; reflexivity]. Qed.

Lemma settle_resolved {K} (d : deferred K) :
  resolved d = true -> settle d = (d, []).
Proof. unfold settle; intros ->; reflexivity. Qed.

Lemma settle_fst_resolved {K} (d : deferred K) : resolved (settle d).1 = true.
Proof. unfold settle; destruct (resolved d) eqn:E; simpl; done. Qed.

Lemma await_resolved {K} (d : deferred K) k :
  resolved d = true -> await d k = (d, [k]).
Proof. unfold await; intros ->; reflexivity. Qed.

Lemma await_fst_resolved {K} (d : deferred K) k :
  resolved (await d k).1 = resolved d.
Proof. unfold await; destruct (resolved d) eqn:E; simpl; done. Qed.

Lemma alter_as_insert {A} (g : A -> A) (l : list A) i x :
  l !! i = Some x -> alter g i l = <[i := g x]> l.
Proof.
  intros Hi. apply list_eq. intros j.
  destruct (decide (i = j)) as [<-|Hne].
  - rewrite list_lookup_alter_eq, Hi, list_lookup_insert_eq; [done|].
    by eapply lookup_lt_Some.
  - by rewrite list_lookup_alter_ne, list_lookup_insert_ne.
Qed.

(** ** Objects used as dictionaries *)

Lemma object_member_undefined k :
  typeof (object_member k) = "undefined" <-> k ∉ object_prototype_names.
Proof. unfold object_member. case_decide; simpl; split; done. Qed.

(** An empty [{}] answers [undefined] exactly on the plain names. *)
Lemma object_get_undefined k : typeof (object_get k) = "undefined" <-> plain k.
Proof.
  unfold object_get, plain, inherited. case_decide as Hk; simpl.
  - split; [done|]. intros Hp. destruct Hp. by left.
  - rewrite object_member_undefined. split.
    + intros Hn [Hp|Hi]; done.
    + intros Hp Hi. apply Hp. by right.
Qed.

Lemma object_get_plain k : plain k -> object_get k = VUndefined.
Proof. intros Hk. by apply typeof_undefined, object_get_undefined. Qed.

Lemma object_get_inherited k : inherited k -> typeof (object_get k) <> "undefined".
Proof. intros Hk Hu. by apply object_get_undefined in Hu. Qed.

Lemma plain_not_proto k : plain k -> k <> "__proto__".
Proof. intros Hk ->. apply Hk. by left. Qed.

Lemma promise_get_plain {K} (p : gmap string (deferred K)) k :
  plain k ->
  promise_get p k = match p !! k with
                    | Some d => Stored d
                    | None => Foreign VUndefined
                    end.
Proof. intros Hk. unfold promise_get. by rewrite object_get_plain. Qed.

Lemma promise_get_inherited {K} (p : gmap string (deferred K)) k :
  inherited k -> p !! k = None ->
  promise_get p k = Foreign (object_get k) /\ typeof (object_get k) <> "undefined".
Proof.
  intros Hk Hp. unfold promise_get. rewrite Hp. split; [done|].
  by apply object_get_inherited.
Qed.

Section Dictionaries.
Context {H : host}.

(** On a name the store answers itself, a read is the own data property
    and an assignment defines or replaces it. *)
Lemma dict_get_ordinary d k : ordinary d k -> dict_get d k = own_data d k.
Proof.
  intros (Hp & Hk & Hacc). unfold dict_get, own_data.
  destruct (own d !! k) as [[v|g s]|] eqn:E; [done|by destruct (Hacc g s)|].
  rewrite Hp. simpl. by apply object_get_plain.
Qed.

Lemma dict_put_ordinary strict d k v :
  ordinary d k ->
  dict_put strict d k v = Ok {| own := <[k := Data v]> (own d); proto := proto d |}.
Proof.
  intros (Hp & Hk & Hacc). unfold dict_put.
  destruct (own d !! k) as [[v0|g s]|] eqn:E; [done|by destruct (Hacc g s)|].
  rewrite Hp. simpl. case_decide as Hpr; [|done]. by apply plain_not_proto in Hk.
Qed.

Lemma ordinary_put d k k' v :
  ordinary d k' ->
  ordinary {| own := <[k := Data v]> (own d); proto := proto d |} k'.
Proof.
  intros (Hp & Hk & Hacc). split; [done|]. split; [done|]. simpl.
  intros g s. rewrite lookup_insert. case_decide; [done|apply Hacc].
Qed.

Lemma ordinary_empty k : plain k -> ordinary empty_dict k.
Proof. intros Hk. split; [done|]. split; [done|]. intros g s. simpl. by rewrite lookup_empty. Qed.

(** An assignment changes no own property but the one assigned to. *)
Lemma dict_put_own_ne strict d k v d' k' :
  dict_put strict d k v = Ok d' -> k' <> k -> own d' !! k' = own d !! k'.
Proof.
  unfold dict_put, refused. intros Hput Hne.
  destruct (own d !! k) as [[v0|g s]|].
  - injection Hput as <-. simpl. by rewrite lookup_insert_ne.
  - case_decide; [by injection Hput as <-|].
    destruct strict; [done|by injection Hput as <-].
  - destruct (chain_put (proto d) k).
    + injection Hput as <-. simpl. by rewrite lookup_insert_ne.
    + destruct strict; [done|by injection Hput as <-].
    + by injection Hput as <-.
    + case_decide; by injection Hput as <-.
Qed.

(** An accessor stays an accessor under assignment. *)
Lemma dict_put_accessor strict d k v d' k' g s :
  dict_put strict d k v = Ok d' -> own d !! k' = Some (Accessor g s) ->
  own d' !! k' = Some (Accessor g s).
Proof.
  intros Hput Hacc. destruct (decide (k' = k)) as [->|Hne].
  - unfold dict_put, refused in Hput. rewrite Hacc in Hput.
    case_decide; [by injection Hput as <-|].
    destruct strict; [done|by injection Hput as <-].
  - by rewrite (dict_put_own_ne _ _ _ _ _ _ Hput Hne).
Qed.

(** The assignment of a function does not bring the original prototype
    back. *)
Lemma dict_put_function_proto strict d k v d' :
  dict_put strict d k v = Ok d' -> typeof v = "function" ->
  proto d' = VObjectPrototype -> proto d = VObjectPrototype.
Proof.
  unfold dict_put, refused. intros Hput Hv Hp.
  destruct (own d !! k) as [[v0|g s]|].
  - by injection Hput as <-.
  - case_decide; [by injection Hput as <-|].
    destruct strict; [done|by injection Hput as <-].
  - destruct (chain_put (proto d) k).
    + by injection Hput as <-.
    + destruct strict; [done|by injection Hput as <-].
    + by injection Hput as <-.
    + case_decide; injection Hput as <-; [|done].
      simpl in Hp. subst v. discriminate.
Qed.

(** A name the store answers itself after the assignment of a function
    was answered by the store before, and holds the function when it is
    the name assigned to. *)
Lemma dict_put_function_ordinary strict d k v d' k' :
  dict_put strict d k v = Ok d' -> typeof v = "function" ->
  ordinary d' k' ->
  ordinary d k' /\ own_data d' k' = if decide (k' = k) then v else own_data d k'.
Proof.
  intros Hput Hv (Hp' & Hk' & Hacc').
  assert (Hp : proto d = VObjectPrototype)
    by (by eapply dict_put_function_proto).
  assert (Hord : ordinary d k').
  { split; [done|]. split; [done|]. intros g s Hacc.
    apply (Hacc' g s). by eapply dict_put_accessor. }
  split; [done|]. case_decide as Hk.
  - subst k'. rewrite (dict_put_ordinary _ _ _ _ Hord) in Hput.
    injection Hput as <-. unfold own_data. simpl. by rewrite lookup_insert_eq.
  - unfold own_data. by rewrite (dict_put_own_ne _ _ _ _ _ _ Hput Hk).
Qed.

(** A call on a store leaves the prototype, and changes own properties
    only into accessors. *)
Lemma define_effect is_getter d xs :
  proto (define is_getter d xs).2 = proto d /\
  forall k', own (define is_getter d xs).2 !! k' = own d !! k' \/
             exists g s, own (define is_getter d xs).2 !! k' = Some (Accessor g s).
Proof.
  unfold define. case_decide; [simpl; eauto|].
  destruct (key_of _) as [[k|]|e]; simpl; eauto.
  destruct (match own d !! k with Some (Accessor g s) => (g, s) | _ => _ end) as [g s].
  simpl. split; [done|]. intros k'. rewrite lookup_insert. case_decide; [|eauto].
  right. destruct is_getter; eauto.
Qed.

Lemma invoke_on_effect d callee xs :
  proto (invoke_on d callee xs).2 = proto d /\
  forall k', own (invoke_on d callee xs).2 !! k' = own d !! k' \/
             exists g s, own (invoke_on d callee xs).2 !! k' = Some (Accessor g s).
Proof.
  unfold invoke_on. destruct callee; simpl; eauto.
  repeat case_decide; try apply define_effect. simpl. eauto.
Qed.

Lemma invoke_on_ordinary d callee xs k :
  ordinary (invoke_on d callee xs).2 k ->
  ordinary d k /\ own_data (invoke_on d callee xs).2 k = own_data d k.
Proof.
  destruct (invoke_on_effect d callee xs) as [Hp Hown].
  intros (Hp' & Hk & Hacc). destruct (Hown k) as [Heq|(g & s & Hgs)];
    [|by destruct (Hacc g s)].
  split; [|unfold own_data; by rewrite Heq].
  split; [congruence|]. split; [done|]. intros g s. rewrite <- Heq. apply Hacc.
Qed.

(** Calling a callback found in a store records the call and changes
    nothing. *)
Lemma invoke_on_callback d fn xs :
  invoke_on d (VFunc fn) xs = ([Invoked fn xs], Ok tt, d).
Proof. reflexivity. Qed.

End Dictionaries.

(** *** The state stores *)

(** The entry just assigned is the one a lookup of the name finds,
    whatever the name. *)
Lemma states_get_put s k e : states_get (states_put s k e) k = Stored e.
Proof.
  unfold states_put, states_get. destruct (entries s !! k) eqn:E; simpl.
  - by rewrite lookup_insert_eq.
  - case_decide as Hk; simpl.
    + by rewrite E.
    + by rewrite lookup_insert_eq.
Qed.

(** *** The instance mapping *)

Section RegistryFacts.
Context {H : host}.

Lemma registry_get_put r k a : registry_get (registry_put r k a) k = VInstance a.
Proof.
  unfold registry_put, registry_get. destruct (registered r !! k) eqn:E; simpl.
  - by rewrite lookup_insert_eq.
  - case_decide as Hk; simpl.
    + by rewrite E.
    + by rewrite lookup_insert_eq.
Qed.

(** The constructor runs from [create_pys_bridge] for an id whose lookup
    gave [undefined]: it then defines an own property. *)
Lemma registry_put_undefined r k a :
  typeof (registry_get r k) = "undefined" ->
  registered r !! k = None /\ k <> "__proto__" /\
  registry_put r k a =
    {| registered := <[k := a]> (registered r); instance_proto := instance_proto r |}.
Proof.
  unfold registry_get, registry_put.
  destruct (registered r !! k) eqn:E; [done|].
  destruct (instance_proto r) as [a0|].
  - destruct (decide (k = "__proto__")) as [Hk|Hk]; [done|]. done.
  - intros Hu. apply object_get_undefined, plain_not_proto in Hu.
    destruct (decide (k = "__proto__")) as [Hk|Hk]; done.
Qed.

Lemma registry_get_insert_ne r k a k' :
  k' <> k ->
  registry_get {| registered := <[k := a]> (registered r);
                  instance_proto := instance_proto r |} k'
  = registry_get r k'.
Proof. intros Hne. unfold registry_get. simpl. by rewrite lookup_insert_ne. Qed.

End RegistryFacts.


(** ** Instance lookup *)

Lemma PerName_get_uuid_ref_string s :
  PerName.get_uuid_ref (VStr s) = Ok (normalized s).
Proof. unfold PerName.get_uuid_ref, normalized. by case_decide. Qed.

Lemma Single_get_uuid_ref_string s :
  Single.get_uuid_ref (VStr s) = Ok (normalized s).
Proof. unfold Single.get_uuid_ref, normalized. by case_decide. Qed.

Lemma normalized_idem s : normalized (normalized s) = normalized s.
Proof. unfold normalized. repeat case_decide; done. Qed.

Lemma PerName_self_Some w a b :
  PerName.heap w !! a = Some b -> PerName.self a w = (Ok b, w).
Proof. unfold PerName.self; intros ->; reflexivity. Qed.

Lemma Single_self_Some w a b :
  Single.heap w !! a = Some b -> Single.self a w = (Ok b, w).
Proof. unfold Single.self; intros ->; reflexivity. Qed.

Lemma PerName_constructor_private s w :
  PerName.constructor (VStr s) PerName.PRIVATE_CONSTRUCTOR_KEY w =
    (Ok (VInstance (length (PerName.heap w))), PerName.constructed (normalized s) w).
Proof.
  unfold PerName.constructor. case_decide; [done|].
  rewrite PerName_get_uuid_ref_string. reflexivity.
Qed.

Section InstanceLookup.
Context {H : host}.

Lemma PerName_get_pys_bridge_string s w :
  PerName.get_pys_bridge (VStr s) w =
    if decide (typeof (registry_get (PerName.pysBridge w) (normalized s)) ≠ "undefined")
    then (Ok (registry_get (PerName.pysBridge w) (normalized s)), w)
    else (Throw (Error ("Bridge id " +:+ normalized s +:+ " not found.")), w).
Proof.
  unfold PerName.get_pys_bridge. rewrite PerName_get_uuid_ref_string.
  unfold_monad. by case_decide.
Qed.

Lemma Single_get_pys_bridge_string s w :
  Single.get_pys_bridge (VStr s) w =
    if decide (typeof (registry_get (Single.pysBridge w) (normalized s)) ≠ "undefined")
    then (Ok (registry_get (Single.pysBridge w) (normalized s)), w)
    else (Throw (Error ("Bridge id " +:+ normalized s +:+ " not found.")), w).
Proof.
  unfold Single.get_pys_bridge. rewrite Single_get_uuid_ref_string.
  unfold_monad. by case_decide.
Qed.

(** What a lookup in an instance mapping with its original prototype
    gives: the registered instance, nothing for a plain id that is not
    registered, and a member of [Object.prototype], which is no instance,
    for an inherited id that is not registered. *)
Lemma registry_get_cases r k :
  (forall a, registered r !! k = Some a -> registry_get r k = VInstance a) /\
  (registered r !! k = None -> instance_proto r = None ->
   registry_get r k = object_get k).
Proof.
  unfold registry_get. split.
  - by intros a ->.
  - by intros -> ->.
Qed.

Lemma object_get_not_instance k a : object_get k <> VInstance a.
Proof. unfold object_get, object_member. by repeat case_decide. Qed.

(** C7.  [get_pys_bridge] on a string id returns the instance registered
    under the normalized id and changes nothing.  When no instance is
    registered (and the instance mapping has its original prototype) it
    throws "Bridge id <id> not found." carrying the normalized id for the
    ids that are not members of [Object.prototype]; for an id that is one
    it does not throw: it returns that member, which is no instance.  So
    with nothing registered at all, [get_pys_bridge("constructor")]
    returns the built-in function.  Both classes agree. *)
Theorem get_pys_bridge_found_or_not_found (s : string) :
  (forall w : PerName.world,
      (forall a, registered (PerName.pysBridge w) !! normalized s = Some a ->
                 PerName.get_pys_bridge (VStr s) w = (Ok (VInstance a), w)) /\
      (registered (PerName.pysBridge w) !! normalized s = None ->
       instance_proto (PerName.pysBridge w) = None ->
       (plain (normalized s) ->
        PerName.get_pys_bridge (VStr s) w =
          (Throw (Error ("Bridge id " +:+ normalized s +:+ " not found.")), w)) /\
       (inherited (normalized s) ->
        PerName.get_pys_bridge (VStr s) w = (Ok (object_get (normalized s)), w) /\
        forall a, object_get (normalized s) <> VInstance a))) /\
  (forall w : Single.world,
      (forall a, registered (Single.pysBridge w) !! normalized s = Some a ->
                 Single.get_pys_bridge (VStr s) w = (Ok (VInstance a), w)) /\
      (registered (Single.pysBridge w) !! normalized s = None ->
       instance_proto (Single.pysBridge w) = None ->
       (plain (normalized s) ->
        Single.get_pys_bridge (VStr s) w =
          (Throw (Error ("Bridge id " +:+ normalized s +:+ " not found.")), w)) /\
       (inherited (normalized s) ->
        Single.get_pys_bridge (VStr s) w = (Ok (object_get (normalized s)), w) /\
        forall a, object_get (normalized s) <> VInstance a))) /\
  PerName.get_pys_bridge (VStr "constructor") PerName.init
    = (Ok (VBuiltin "constructor"), PerName.init) /\
  Single.get_pys_bridge (VStr "constructor") Single.init
    = (Ok (VBuiltin "constructor"), Single.init).
Proof.
  split; [|split; [|split; reflexivity]].
  - intros w. rewrite PerName_get_pys_bridge_string.
    destruct (registry_get_cases (PerName.pysBridge w) (normalized s)) as [Hreg Hnone].
    split.
    + intros a Ha. rewrite (Hreg a Ha). by case_decide.
    + intros Hn Hp. rewrite (Hnone Hn Hp). split.
      * intros Hk. rewrite (object_get_plain _ Hk). by case_decide.
      * intros Hk. split; [|intros a; apply object_get_not_instance].
        case_decide as Hu; [done|]. by destruct (object_get_inherited _ Hk).
  - intros w. rewrite Single_get_pys_bridge_string.
    destruct (registry_get_cases (Single.pysBridge w) (normalized s)) as [Hreg Hnone].
    split.
    + intros a Ha. rewrite (Hreg a Ha). by case_decide.
    + intros Hn Hp. rewrite (Hnone Hn Hp). split.
      * intros Hk. rewrite (object_get_plain _ Hk). by case_decide.
      * intros Hk. split; [|intros a; apply object_get_not_instance].
        case_decide as Hu; [done|]. by destruct (object_get_inherited _ Hk).
Qed.

(** [create_pys_bridge] of the per-name class: what is found under the
    normalized id, or a fresh instance at the next address. *)
Lemma PerName_create_pys_bridge_string s w :
  PerName.create_pys_bridge (VStr s) w =
    if decide (typeof (registry_get (PerName.pysBridge w) (normalized s)) = "undefined")
    then (Ok (VInstance (length (PerName.heap w))), PerName.constructed (normalized s) w)
    else (Ok (registry_get (PerName.pysBridge w) (normalized s)), w).
Proof.
  unfold PerName.create_pys_bridge. rewrite PerName_get_uuid_ref_string.
  unfold_monad. case_decide; [|done].
  by rewrite PerName_constructor_private, normalized_idem.
Qed.

(** In the per-name class a second [create_pys_bridge] returns the very
    value the first one returned, and the empty id and the default id
    name the same instance. *)
Lemma PerName_create_pys_bridge_idempotent s w :
  exists v,
    eval (PerName.create_pys_bridge (VStr s)) w = Ok v /\
    eval (PerName.create_pys_bridge (VStr s))
         (exec (PerName.create_pys_bridge (VStr s)) w) = Ok v /\
    (s = "" ->
     eval (PerName.create_pys_bridge (VStr PerName.pysBridgeGlobalName))
          (exec (PerName.create_pys_bridge (VStr s)) w) = Ok v) /\
    (typeof (registry_get (PerName.pysBridge w) (normalized s)) = "undefined" ->
     v = VInstance (length (PerName.heap w))).
Proof.
  assert (Hdef : normalized PerName.pysBridgeGlobalName = normalized "") by reflexivity.
  unfold eval, exec. rewrite (PerName_create_pys_bridge_string s w).
  case_decide as Hu.
  - exists (VInstance (length (PerName.heap w))). simpl. split; [done|].
    assert (Hget : registry_get (PerName.pysBridge (PerName.constructed (normalized s) w))
                     (normalized s) = VInstance (length (PerName.heap w))).
    { unfold PerName.constructed. simpl. apply registry_get_put. }
    split; [|split; [|done]].
    + rewrite PerName_create_pys_bridge_string, Hget. by case_decide.
    + intros ->. rewrite PerName_create_pys_bridge_string, Hdef, Hget. by case_decide.
  - eexists. simpl. split; [done|]. split; [|split; [|done]].
    + rewrite PerName_create_pys_bridge_string. by case_decide.
    + intros ->. rewrite PerName_create_pys_bridge_string, Hdef. by case_decide.
Qed.

(** C3. In the single-signal class of [src/assets/pysbridge.js] the second
    [create_pys_bridge] of any string id returns [undefined], not the
    instance: the function has no branch for an id that is registered.
    The first call returns a fresh instance when the lookup of the id gave
    [undefined]. *)
Theorem Single_create_pys_bridge_second_call_undefined (s : string) (w : Single.world) :
  eval (Single.create_pys_bridge (VStr s))
       (exec (Single.create_pys_bridge (VStr s)) w) = Ok VUndefined /\
  (typeof (registry_get (Single.pysBridge w) (normalized s)) = "undefined" ->
   eval (Single.create_pys_bridge (VStr s)) w = Ok (VInstance (length (Single.heap w)))).
Proof.
  unfold eval, exec, Single.create_pys_bridge.
  rewrite Single_get_uuid_ref_string. unfold_monad. simpl.
  destruct (decide (typeof (registry_get (Single.pysBridge w) (normalized s))
                    = "undefined")) as [Hu|Hu]; simpl.
  - unfold Single.constructor. rewrite Single_get_uuid_ref_string.
    unfold_monad. simpl. rewrite normalized_idem, registry_get_put. simpl. done.
  - case_decide; done.
Qed.

(** X1. An id that is not a string is refused everywhere: the static
    methods of both classes and both constructors throw
    "UUID must be a string." and leave the world as it was. *)
Theorem non_string_id_is_refused (pysid : value) :
  typeof pysid <> "string" ->
  (forall w : PerName.world,
      PerName.create_pys_bridge pysid w = (Throw (Error "UUID must be a string."), w) /\
      PerName.get_pys_bridge pysid w = (Throw (Error "UUID must be a string."), w) /\
      PerName.has_pys_bridge pysid w = (Throw (Error "UUID must be a string."), w) /\
      PerName.constructor pysid PerName.PRIVATE_CONSTRUCTOR_KEY w
        = (Throw (Error "UUID must be a string."), w)) /\
  (forall w : Single.world,
      Single.create_pys_bridge pysid w = (Throw (Error "UUID must be a string."), w) /\
      Single.get_pys_bridge pysid w = (Throw (Error "UUID must be a string."), w) /\
      Single.constructor pysid w = (Throw (Error "UUID must be a string."), w)).
Proof.
  intros Hty.
  assert (HP : PerName.get_uuid_ref pysid = Throw (Error "UUID must be a string.")).
  { destruct pysid; try reflexivity. by destruct Hty. }
  assert (HS : Single.get_uuid_ref pysid = Throw (Error "UUID must be a string.")).
  { destruct pysid; try reflexivity. by destruct Hty. }
  split; intros w.
  - unfold PerName.create_pys_bridge, PerName.get_pys_bridge, PerName.has_pys_bridge,
      PerName.constructor, bind, lift_result.
    rewrite HP. case_decide; done.
  - unfold Single.create_pys_bridge, Single.get_pys_bridge, Single.constructor,
      bind, lift_result.
    by rewrite HS.
Qed.

(** X4. In the single-signal class the constructor is public and always
    registers the new instance: after [new PysBridge(s)], [get_pys_bridge(s)]
    returns the new instance, whatever was registered under the id before;
    an instance registered before is left as it was but is no longer the
    one the id names. *)
Theorem Single_constructor_replaces_registration (s : string) (w : Single.world) :
  let w1 := exec (Single.constructor (VStr s)) w in
  eval (Single.constructor (VStr s)) w = Ok (VInstance (length (Single.heap w))) /\
  eval (Single.get_pys_bridge (VStr s)) w1 = Ok (VInstance (length (Single.heap w))) /\
  forall a, eval (Single.get_pys_bridge (VStr s)) w = Ok (VInstance a) ->
            a < length (Single.heap w) ->
            eval (Single.get_pys_bridge (VStr s)) w1 <> Ok (VInstance a) /\
            Single.heap w1 !! a = Single.heap w !! a.
Proof.
  intros w1.
  assert (Hw1 : w1 = {| Single.heap := Single.heap w ++ [Single.new_bridge];
                        Single.pysBridge :=
                          registry_put (Single.pysBridge w) (normalized s)
                                       (length (Single.heap w));
                        Single.jobs := Single.jobs w; Single.log := Single.log w |}).
  { subst w1. unfold exec, Single.constructor. rewrite Single_get_uuid_ref_string.
    reflexivity. }
  assert (Hget : eval (Single.get_pys_bridge (VStr s)) w1
                 = Ok (VInstance (length (Single.heap w)))).
  { unfold eval. rewrite Single_get_pys_bridge_string, Hw1. simpl.
    rewrite registry_get_put. by case_decide. }
  split.
  { unfold eval, Single.constructor. by rewrite Single_get_uuid_ref_string. }
  split; [exact Hget|].
  intros a _ Hlt. split.
  - rewrite Hget. intros [= Heq]. lia.
  - rewrite Hw1. simpl. by rewrite lookup_app_l.
Qed.

End InstanceLookup.

(** ** The state store *)

Section StateStore.
Context {H : host}.

Lemma PerName_add_state_exec w a b x g s :
  PerName.heap w !! a = Some b ->
  PerName.add_state a x g s w =
    (Ok tt,
     {| PerName.heap :=
          <[a := PerName.with_states (states_put (PerName.states b) x (mkState g s)) b]>
            (PerName.heap w);
        PerName.pysBridge := PerName.pysBridge w;
        PerName.jobs := PerName.jobs w; PerName.log := PerName.log w |}).
Proof.
  intros Ha. unfold PerName.add_state, bind.
  rewrite (PerName_self_Some _ _ _ Ha). unfold PerName.update, modify.
  by rewrite (alter_as_insert _ _ _ _ Ha).
Qed.

Lemma Single_add_state_exec w a b x g s :
  Single.heap w !! a = Some b ->
  Single.add_state a x g s w =
    (Ok tt,
     {| Single.heap :=
          <[a := Single.with_states (states_put (Single.states b) x (mkState g s)) b]>
            (Single.heap w);
        Single.pysBridge := Single.pysBridge w;
        Single.jobs := Single.jobs w; Single.log := Single.log w |}).
Proof.
  intros Ha. unfold Single.add_state, bind.
  rewrite (Single_self_Some _ _ _ Ha). unfold Single.update, modify.
  by rewrite (alter_as_insert _ _ _ _ Ha).
Qed.

(** C6. After [add_state(x, g, setter)] with [setter] a function,
    [set_state(x, v)] succeeds and adds exactly one event to the log, the
    invocation of [setter] with the single argument [v]; it changes nothing
    else, and [state(x)] afterwards still returns [g].  Both classes agree;
    the claim is the case [x = "x"], [g = 1], [v = 5]. *)
Theorem set_state_calls_setter_once_getter_is_snapshot
    (x : string) (g v : value) (setter : nat) :
  (forall (w : PerName.world) a b,
      PerName.heap w !! a = Some b ->
      let w1 := exec (PerName.add_state a x g (VFunc setter)) w in
      PerName.set_state a x v w1 =
        (Ok tt, {| PerName.heap := PerName.heap w1; PerName.pysBridge := PerName.pysBridge w1;
                   PerName.jobs := PerName.jobs w1;
                   PerName.log := PerName.log w ++ [Invoked setter [v]] |}) /\
      eval (PerName.state a x) (exec (PerName.set_state a x v) w1) = Ok g) /\
  (forall (w : Single.world) a b,
      Single.heap w !! a = Some b ->
      let w1 := exec (Single.add_state a x g (VFunc setter)) w in
      Single.set_state a x v w1 =
        (Ok tt, {| Single.heap := Single.heap w1; Single.pysBridge := Single.pysBridge w1;
                   Single.jobs := Single.jobs w1;
                   Single.log := Single.log w ++ [Invoked setter [v]] |}) /\
      eval (Single.state a x) (exec (Single.set_state a x v) w1) = Ok g).
Proof.
  split; intros w a b Ha w1.
  - assert (Hlt : a < length (PerName.heap w)) by (by eapply lookup_lt_Some).
    assert (Hset : PerName.set_state a x v w1 =
        (Ok tt, {| PerName.heap := PerName.heap w1; PerName.pysBridge := PerName.pysBridge w1;
                   PerName.jobs := PerName.jobs w1;
                   PerName.log := PerName.log w ++ [Invoked setter [v]] |})).
    { subst w1. unfold exec. rewrite (PerName_add_state_exec _ _ _ _ _ _ Ha). simpl.
      unfold PerName.set_state, bind, PerName.self. simpl.
      rewrite list_lookup_insert_eq by done. simpl.
      rewrite states_get_put. simpl. reflexivity. }
    split; [exact Hset|].
    unfold exec at 1. rewrite Hset. simpl.
    subst w1. unfold exec. rewrite (PerName_add_state_exec _ _ _ _ _ _ Ha). simpl.
    unfold eval, PerName.state, bind, PerName.self. simpl.
    rewrite list_lookup_insert_eq by done. simpl.
    rewrite states_get_put. simpl. reflexivity.
  - assert (Hlt : a < length (Single.heap w)) by (by eapply lookup_lt_Some).
    assert (Hset : Single.set_state a x v w1 =
        (Ok tt, {| Single.heap := Single.heap w1; Single.pysBridge := Single.pysBridge w1;
                   Single.jobs := Single.jobs w1;
                   Single.log := Single.log w ++ [Invoked setter [v]] |})).
    { subst w1. unfold exec. rewrite (Single_add_state_exec _ _ _ _ _ _ Ha). simpl.
      unfold Single.set_state, bind, Single.self. simpl.
      rewrite list_lookup_insert_eq by done. simpl.
      rewrite states_get_put. simpl. reflexivity. }
    split; [exact Hset|].
    unfold exec at 1. rewrite Hset. simpl.
    subst w1. unfold exec. rewrite (Single_add_state_exec _ _ _ _ _ _ Ha). simpl.
    unfold eval, Single.state, bind, Single.self. simpl.
    rewrite list_lookup_insert_eq by done. simpl.
    rewrite states_get_put. simpl. reflexivity.
Qed.

Lemma PerName_has_state_eval w a b x :
  PerName.heap w !! a = Some b ->
  eval (PerName.has_state a x) w
  = Ok (bool_decide (typeof_lookup (states_get (PerName.states b) x) ≠ "undefined")).
Proof.
  intros Ha. unfold eval, PerName.has_state, bind. by rewrite (PerName_self_Some _ _ _ Ha).
Qed.

(** X7. How [state] and [set_state] fail, in the per-name class: on a name
    for which [has_state] is false both throw "State <x> not found." and
    change nothing; when the registered setter is not a function,
    [set_state] throws a TypeError, and nothing is invoked. *)
Theorem state_and_set_state_failures
    (x : string) (v : value) (w : PerName.world) (a : nat) (b : PerName.bridge) :
  PerName.heap w !! a = Some b ->
  (eval (PerName.has_state a x) w = Ok false ->
   PerName.state a x w = (Throw (Error ("State " +:+ x +:+ " not found.")), w) /\
   PerName.set_state a x v w = (Throw (Error ("State " +:+ x +:+ " not found.")), w)) /\
  (forall g st,
      typeof st <> "function" ->
      let w1 := exec (PerName.add_state a x g st) w in
      exists msg, PerName.set_state a x v w1 = (Throw (TypeError msg), w1)).
Proof.
  intros Ha. split.
  - rewrite (PerName_has_state_eval _ _ _ _ Ha).
    intros [= Hno]. apply bool_decide_eq_false in Hno.
    unfold PerName.state, PerName.set_state, bind.
    rewrite (PerName_self_Some _ _ _ Ha). by case_decide.
  - intros g st Hst w1. subst w1. unfold exec.
    assert (Hlt : a < length (PerName.heap w)) by (by eapply lookup_lt_Some).
    rewrite (PerName_add_state_exec _ _ _ _ _ _ Ha). simpl.
    unfold PerName.set_state, bind, PerName.self. simpl.
    rewrite list_lookup_insert_eq by done. simpl.
    rewrite states_get_put. simpl.
    unfold PerName.call, invoke. simpl.
    destruct st; try (eexists; rewrite app_nil_r; reflexivity); by destruct Hst.
Qed.

End StateStore.


(** ** The ref store *)

Section RefStore.
Context {H : host}.

Lemma PerName_with_refs_id b : PerName.with_refs (PerName.refs b) b = b.
Proof. by destruct b. Qed.

Lemma PerName_with_funcs_id b : PerName.with_funcs (PerName.funcs b) b = b.
Proof. by destruct b. Qed.

Lemma PerName_add_ref_exec w a b x v :
  PerName.heap w !! a = Some b ->
  PerName.add_ref a x v w =
    match dict_put true (PerName.refs b) x v with
    | Ok d => (Ok tt,
               {| PerName.heap := <[a := PerName.with_refs d b]> (PerName.heap w);
                  PerName.pysBridge := PerName.pysBridge w;
                  PerName.jobs := PerName.jobs w; PerName.log := PerName.log w |})
    | Throw e => (Throw e, w)
    end.
Proof.
  intros Ha. unfold PerName.add_ref, bind.
  rewrite (PerName_self_Some _ _ _ Ha). unfold lift_result.
  destruct (dict_put true (PerName.refs b) x v) as [d|e]; [|done].
  unfold PerName.update, modify. by rewrite (alter_as_insert _ _ _ _ Ha).
Qed.

Lemma PerName_has_ref_eval w a b x :
  PerName.heap w !! a = Some b ->
  eval (PerName.has_ref a x) w
  = Ok (bool_decide (typeof (dict_get (PerName.refs b) x) ≠ "undefined")).
Proof.
  intros Ha. unfold eval, PerName.has_ref, bind. by rewrite (PerName_self_Some _ _ _ Ha).
Qed.

Lemma PerName_ref_eval w a b x :
  PerName.heap w !! a = Some b ->
  eval (PerName.ref a x) w
  = if decide (typeof (dict_get (PerName.refs b) x) ≠ "undefined")
    then Ok (dict_get (PerName.refs b) x)
    else Throw (Error ("Var " +:+ x +:+ " not found.")).
Proof.
  intros Ha. unfold eval, PerName.ref, bind. rewrite (PerName_self_Some _ _ _ Ha).
  by case_decide.
Qed.

(** The assignment of [undefined], on a store with its original
    prototype: under ["__proto__"] it is dropped; under any other name
    that is not an accessor it leaves an own property holding
    [undefined]. *)
Lemma dict_put_undefined strict d x :
  proto d = VObjectPrototype ->
  (forall g s, own d !! x <> Some (Accessor g s)) ->
  (x <> "__proto__" ->
   dict_put strict d x VUndefined
   = Ok {| own := <[x := Data VUndefined]> (own d); proto := proto d |}) /\
  (x = "__proto__" -> own d !! x = None ->
   dict_put strict d x VUndefined = Ok d /\ dict_get d x = VObjectPrototype).
Proof.
  intros Hp Hacc. unfold dict_put, dict_get. split.
  - intros Hx. destruct (own d !! x) as [[v0|g s]|] eqn:E; [done|by destruct (Hacc g s)|].
    rewrite Hp. simpl. by case_decide.
  - intros -> Hn. rewrite Hn, Hp. simpl. done.
Qed.

(** C9.  On a ref store that has its original prototype and no accessor
    under [x]: for every name [x] other than ["__proto__"], after
    [add_ref(x, undefined)] the name reads as absent, [has_ref(x)] is
    false and [ref(x)] throws "Var <x> not found.", as both do on a plain
    name that was never registered.  Under ["__proto__"] the assignment
    is dropped by the inherited setter: the world is as it was,
    [has_ref("__proto__")] is true and [ref("__proto__")] returns
    [Object.prototype].  And a name that is a member of
    [Object.prototype] reads as present when it was never registered.
    The flat API ([pys_register_ref], [pys_ref]) does the same. *)
Theorem undefined_ref_reads_as_absent (x : string) :
  (forall (w : PerName.world) a b,
      PerName.heap w !! a = Some b ->
      proto (PerName.refs b) = VObjectPrototype ->
      (forall g s, own (PerName.refs b) !! x <> Some (Accessor g s)) ->
      let w1 := exec (PerName.add_ref a x VUndefined) w in
      eval (PerName.add_ref a x VUndefined) w = Ok tt /\
      (x <> "__proto__" ->
       eval (PerName.has_ref a x) w1 = Ok false /\
       eval (PerName.ref a x) w1 = Throw (Error ("Var " +:+ x +:+ " not found."))) /\
      (plain x -> own (PerName.refs b) !! x = None ->
       eval (PerName.has_ref a x) w = Ok false /\
       eval (PerName.ref a x) w = Throw (Error ("Var " +:+ x +:+ " not found."))) /\
      (x = "__proto__" -> own (PerName.refs b) !! x = None ->
       w1 = w /\
       eval (PerName.has_ref a x) w1 = Ok true /\
       eval (PerName.ref a x) w1 = Ok VObjectPrototype) /\
      (inherited x -> own (PerName.refs b) !! x = None ->
       eval (PerName.has_ref a x) w = Ok true /\
       eval (PerName.ref a x) w = Ok (object_get x))) /\
  (forall w : Flat.world,
      proto (Flat.pysRefs w) = VObjectPrototype ->
      (forall g s, own (Flat.pysRefs w) !! x <> Some (Accessor g s)) ->
      let w1 := exec (Flat.pys_register_ref x VUndefined) w in
      eval (Flat.pys_register_ref x VUndefined) w = Ok tt /\
      (x <> "__proto__" ->
       eval (Flat.pys_ref x) w1 = Throw (Error ("Ref " +:+ x +:+ " not found."))) /\
      (plain x -> own (Flat.pysRefs w) !! x = None ->
       eval (Flat.pys_ref x) w = Throw (Error ("Ref " +:+ x +:+ " not found."))) /\
      (x = "__proto__" -> own (Flat.pysRefs w) !! x = None ->
       w1 = w /\ eval (Flat.pys_ref x) w1 = Ok VObjectPrototype) /\
      (inherited x -> own (Flat.pysRefs w) !! x = None ->
       eval (Flat.pys_ref x) w = Ok (object_get x))).
Proof.
  split.
  - intros w a b Ha Hp Hacc w1.
    assert (Hlt : a < length (PerName.heap w)) by (by eapply lookup_lt_Some).
    destruct (dict_put_undefined true _ x Hp Hacc) as [Hset Hdrop].
    split; [|split; [|split; [|split]]].
    + unfold eval. rewrite (PerName_add_ref_exec _ _ _ _ _ Ha).
      destruct (decide (x = "__proto__")) as [Hx|Hx].
      * unfold dict_put. subst x.
        destruct (own (PerName.refs b) !! "__proto__") as [[v0|g s]|] eqn:E;
          [done|by destruct (Hacc g s)|].
        rewrite Hp. simpl. done.
      * by rewrite (Hset Hx).
    + intros Hx. subst w1. unfold exec.
      rewrite (PerName_add_ref_exec _ _ _ _ _ Ha), (Hset Hx). simpl.
      set (w1 := PerName.mkWorld _ _ _ _).
      assert (Hb1 : PerName.heap w1 !! a = Some _)
        by (by apply list_lookup_insert_eq).
      rewrite (PerName_has_ref_eval _ _ _ _ Hb1), (PerName_ref_eval _ _ _ _ Hb1).
      unfold dict_get. simpl. rewrite lookup_insert_eq. simpl. done.
    + intros Hx Hn.
      rewrite (PerName_has_ref_eval _ _ _ _ Ha), (PerName_ref_eval _ _ _ _ Ha).
      rewrite dict_get_ordinary by done. unfold own_data. rewrite Hn. simpl. done.
    + intros Hx Hn. destruct (Hdrop Hx Hn) as [Hput Hget].
      assert (Hw1 : w1 = w).
      { subst w1. unfold exec. rewrite (PerName_add_ref_exec _ _ _ _ _ Ha), Hput. simpl.
        rewrite PerName_with_refs_id, list_insert_id by done. by destruct w. }
      rewrite Hw1. split; [done|].
      rewrite (PerName_has_ref_eval _ _ _ _ Ha), (PerName_ref_eval _ _ _ _ Ha), Hget.
      simpl. done.
    + intros Hx Hn. pose proof (object_get_inherited _ Hx) as Hty.
      rewrite (PerName_has_ref_eval _ _ _ _ Ha), (PerName_ref_eval _ _ _ _ Ha).
      unfold dict_get. rewrite Hn, Hp. simpl.
      rewrite (bool_decide_eq_true_2 _ Hty). by rewrite decide_True.
  - intros w Hp Hacc w1.
    destruct (dict_put_undefined strict_script _ x Hp Hacc) as [Hset Hdrop].
    assert (Hreg : forall d, dict_put strict_script (Flat.pysRefs w) x VUndefined = Ok d ->
                             Flat.pys_register_ref x VUndefined w
                             = (Ok tt, Flat.set_refs d w)).
    { intros d Hd. unfold Flat.pys_register_ref. unfold_monad. simpl. by rewrite Hd. }
    split; [|split; [|split; [|split]]].
    + unfold eval. destruct (decide (x = "__proto__")) as [Hx|Hx].
      * unfold Flat.pys_register_ref. unfold_monad. simpl.
        unfold dict_put. subst x.
        destruct (own (Flat.pysRefs w) !! "__proto__") as [[v0|g s]|] eqn:E;
          [done|by destruct (Hacc g s)|].
        rewrite Hp. simpl. done.
      * by rewrite (Hreg _ (Hset Hx)).
    + intros Hx. subst w1. unfold exec. rewrite (Hreg _ (Hset Hx)). simpl.
      unfold eval, Flat.pys_ref. unfold_monad. simpl.
      unfold dict_get. simpl. rewrite lookup_insert_eq. simpl. done.
    + intros Hx Hn. unfold eval, Flat.pys_ref. unfold_monad. simpl.
      rewrite dict_get_ordinary by done. unfold own_data. rewrite Hn. simpl. done.
    + intros Hx Hn. destruct (Hdrop Hx Hn) as [Hput Hget].
      assert (Hw1 : w1 = w).
      { subst w1. unfold exec. rewrite (Hreg _ Hput). simpl. by destruct w. }
      rewrite Hw1. split; [done|].
      unfold eval, Flat.pys_ref. unfold_monad. simpl. rewrite Hget. simpl. done.
    + intros Hx Hn. pose proof (object_get_inherited _ Hx) as Hty.
      unfold eval, Flat.pys_ref. unfold_monad. simpl.
      unfold dict_get. rewrite Hn, Hp. simpl. by rewrite decide_True.
Qed.

End RefStore.


(** ** Per-name class: what each operation does to the world *)

Section PerNameSteps.
Context {H : host}.
Import PerName.

Lemma PerName_self_None w a :
  heap w !! a = None -> exists e, self a w = (Throw e, w).
Proof. unfold self; intros ->; eauto. Qed.

Lemma signal_set_promise f f' d b :
  signal f (set_promise f' d b) = if decide (f' = f) then d else signal f b.
Proof.
  unfold signal, set_promise. simpl. case_decide as Hf.
  - subst. by rewrite lookup_insert_eq.
  - by rewrite lookup_insert_ne.
Qed.

Lemma set_promise_twice f d d' b :
  set_promise f d' (set_promise f d b) = set_promise f d' b.
Proof. unfold set_promise. simpl. by rewrite insert_insert_eq. Qed.

(** The lookup [#resolve] and [#wait] make after their first statement:
    the stored signal, a fresh one under a plain name, or the member of
    [Object.prototype] under an inherited name without signal. *)
Lemma PerName_ensure_promise_exec w a b f :
  heap w !! a = Some b ->
  (promise b !! f = None -> plain f) ->
  exists w1 b1,
    ensure_promise a f w = (Ok tt, w1) /\
    heap w1 = <[a := b1]> (heap w) /\ pysBridge w1 = pysBridge w /\
    jobs w1 = jobs w /\ log w1 = log w /\
    promise_get (promise b1) f = Stored (signal f b) /\
    set_promise f (signal f b) b = b1.
Proof.
  intros Ha Hplain. unfold ensure_promise, bind. rewrite (PerName_self_Some _ _ _ Ha).
  unfold promise_get, signal. destruct (promise b !! f) as [d|] eqn:E; simpl.
  - exists w, b. split; [done|].
    rewrite list_insert_id by done. repeat (split; [done|]).
    rewrite E. split; [done|]. unfold set_promise. rewrite insert_id by done.
    by destruct b.
  - rewrite (object_get_plain _ (Hplain eq_refl)). simpl.
    eexists _, (set_promise f createPromise b). split; [reflexivity|]. simpl.
    rewrite (alter_as_insert _ _ _ _ Ha). repeat (split; [done|]).
    by rewrite lookup_insert_eq.
Qed.

Lemma PerName_ensure_promise_inherited w a b f :
  heap w !! a = Some b -> promise b !! f = None -> inherited f ->
  ensure_promise a f w = (Ok tt, w) /\
  promise_get (promise b) f = Foreign (object_get f) /\
  typeof (object_get f) <> "undefined".
Proof.
  intros Ha Hn Hf. destruct (promise_get_inherited (promise b) f Hf Hn) as [Hget Hty].
  unfold ensure_promise, bind. rewrite (PerName_self_Some _ _ _ Ha), Hget. simpl.
  by case_decide.
Qed.

Lemma PerName_wait_exec w a b f k :
  heap w !! a = Some b ->
  (promise b !! f = None -> plain f) ->
  wait a f k w =
    (Ok tt,
     {| heap := <[a := set_promise f (await (signal f b) k).1 b]> (heap w);
        pysBridge := pysBridge w;
        jobs := jobs w ++ (await (signal f b) k).2; log := log w |}).
Proof.
  intros Ha Hplain.
  destruct (PerName_ensure_promise_exec w a b f Ha Hplain)
    as (w1 & b1 & He & Hh & Hp & Hj & Hl & Hget & Hb1).
  assert (Hlt : a < length (heap w)) by (by eapply lookup_lt_Some).
  assert (Ha1 : heap w1 !! a = Some b1) by (rewrite Hh; by apply list_lookup_insert_eq).
  unfold wait. unfold bind at 1. rewrite He.
  unfold bind at 1. rewrite (PerName_self_Some _ _ _ Ha1), Hget.
  destruct (await (signal f b) k) as [d ts]. unfold update, schedule. unfold_monad. simpl.
  rewrite (alter_as_insert _ _ _ _ Ha1), Hh, list_insert_insert_eq, Hp, Hj, Hl.
  by rewrite <- Hb1, set_promise_twice.
Qed.

Lemma PerName_resolve_exec w a b f :
  heap w !! a = Some b ->
  (promise b !! f = None -> plain f) ->
  resolve a f w =
    (Ok tt,
     {| heap := <[a := set_promise f (settle (signal f b)).1 b]> (heap w);
        pysBridge := pysBridge w;
        jobs := jobs w ++ (settle (signal f b)).2; log := log w |}).
Proof.
  intros Ha Hplain.
  destruct (PerName_ensure_promise_exec w a b f Ha Hplain)
    as (w1 & b1 & He & Hh & Hp & Hj & Hl & Hget & Hb1).
  assert (Hlt : a < length (heap w)) by (by eapply lookup_lt_Some).
  assert (Ha1 : heap w1 !! a = Some b1) by (rewrite Hh; by apply list_lookup_insert_eq).
  unfold resolve. unfold bind at 1. rewrite He.
  unfold bind at 1. rewrite (PerName_self_Some _ _ _ Ha1), Hget.
  destruct (settle (signal f b)) as [d ts]. unfold update, schedule. unfold_monad. simpl.
  rewrite (alter_as_insert _ _ _ _ Ha1), Hh, list_insert_insert_eq, Hp, Hj, Hl.
  by rewrite <- Hb1, set_promise_twice.
Qed.

(** Under an inherited name without signal, [#resolve] throws a TypeError
    and [#wait] goes on at once. *)
Lemma PerName_resolve_inherited w a b f :
  heap w !! a = Some b -> promise b !! f = None -> inherited f ->
  exists msg, resolve a f w = (Throw (TypeError msg), w).
Proof.
  intros Ha Hn Hf.
  destruct (PerName_ensure_promise_inherited w a b f Ha Hn Hf) as (He & Hget & _).
  unfold resolve. unfold bind at 1. rewrite He.
  unfold bind at 1. rewrite (PerName_self_Some _ _ _ Ha), Hget. eauto.
Qed.

Lemma PerName_wait_inherited w a b f k :
  heap w !! a = Some b -> promise b !! f = None -> inherited f ->
  wait a f k w = (Ok tt, set_jobs (jobs w ++ [k]) w).
Proof.
  intros Ha Hn Hf.
  destruct (PerName_ensure_promise_inherited w a b f Ha Hn Hf) as (He & Hget & Hty).
  unfold wait. unfold bind at 1. rewrite He.
  unfold bind at 1. rewrite (PerName_self_Some _ _ _ Ha), Hget.
  by case_decide.
Qed.

(** The two cases of the promise table at a name. *)
Lemma promise_key_cases (b : bridge) f :
  (promise b !! f = None -> plain f) \/ (promise b !! f = None /\ inherited f).
Proof.
  destruct (promise b !! f); [left; done|].
  destruct (decide (inherited f)); [by right|by left].
Qed.

Lemma signal_with_funcs f d b : signal f (with_funcs d b) = signal f b.
Proof. reflexivity. Qed.

(** [add_func] of a function: the assignment may be refused; otherwise
    the function store is updated and [#resolve] runs, which throws
    under an inherited name without signal. *)
Lemma PerName_add_func_exec w a b f v d :
  heap w !! a = Some b ->
  typeof v = "function" ->
  dict_put true (funcs b) f v = Ok d ->
  (promise b !! f = None -> plain f) ->
  add_func a f v w =
    (Ok tt,
     {| heap := <[a := set_promise f (settle (signal f b)).1 (with_funcs d b)]> (heap w);
        pysBridge := pysBridge w;
        jobs := jobs w ++ (settle (signal f b)).2; log := log w |}).
Proof.
  intros Ha Hv Hd Hplain. unfold add_func. case_decide; [done|].
  unfold bind at 1. rewrite (PerName_self_Some _ _ _ Ha).
  unfold bind at 1. unfold lift_result. rewrite Hd.
  unfold bind at 1. unfold update at 1, modify.
  rewrite (alter_as_insert _ _ _ _ Ha).
  assert (Hlt : a < length (heap w)) by (by eapply lookup_lt_Some).
  erewrite PerName_resolve_exec.
  2:{ simpl. by apply list_lookup_insert_eq. }
  2:{ exact Hplain. }
  simpl. by rewrite list_insert_insert_eq.
Qed.

Lemma PerName_add_func_inherited w a b f v d :
  heap w !! a = Some b ->
  typeof v = "function" ->
  dict_put true (funcs b) f v = Ok d ->
  promise b !! f = None -> inherited f ->
  exists msg,
    add_func a f v w =
      (Throw (TypeError msg),
       {| heap := <[a := with_funcs d b]> (heap w); pysBridge := pysBridge w;
          jobs := jobs w; log := log w |}).
Proof.
  intros Ha Hv Hd Hn Hf. unfold add_func. case_decide; [done|].
  unfold bind at 1. rewrite (PerName_self_Some _ _ _ Ha).
  unfold bind at 1. unfold lift_result. rewrite Hd.
  unfold bind at 1. unfold update at 1, modify.
  rewrite (alter_as_insert _ _ _ _ Ha).
  assert (Hlt : a < length (heap w)) by (by eapply lookup_lt_Some).
  match goal with
  | |- context [resolve a f ?W] =>
      destruct (PerName_resolve_inherited W a (with_funcs d b) f) as [msg Hres];
        [simpl; by apply list_lookup_insert_eq|exact Hn|exact Hf|]
  end.
  rewrite Hres. eauto.
Qed.

Lemma PerName_add_func_refused w a b f v e :
  heap w !! a = Some b ->
  typeof v = "function" ->
  dict_put true (funcs b) f v = Throw e ->
  add_func a f v w = (Throw e, w).
Proof.
  intros Ha Hv Hd. unfold add_func. case_decide; [done|].
  unfold bind at 1. rewrite (PerName_self_Some _ _ _ Ha).
  unfold bind at 1. unfold lift_result. by rewrite Hd.
Qed.

Lemma PerName_add_func_not_function w a f v :
  typeof v <> "function" ->
  add_func a f v w = (Throw (Error "Function must be a function."), w).
Proof. intros Hv. unfold add_func. case_decide; done. Qed.

(** A stored call inside the async [call_func]: the store becomes what
    the call makes of it, the events of the call are recorded, and an
    exception becomes a rejection. *)
Lemma PerName_call_stored_exec w a b callee xs :
  heap w !! a = Some b ->
  rejecting (call_stored a b callee xs) w =
    (Ok tt,
     {| heap := <[a := with_funcs (invoke_on (funcs b) callee xs).2 b]> (heap w);
        pysBridge := pysBridge w; jobs := jobs w;
        log := (log w ++ (invoke_on (funcs b) callee xs).1.1)
               ++ match (invoke_on (funcs b) callee xs).1.2 with
                  | Ok _ => []
                  | Throw e => [Rejected e]
                  end |}).
Proof.
  intros Ha. unfold rejecting, call_stored.
  destruct (invoke_on (funcs b) callee xs) as [[es o] d]. simpl.
  unfold update, emit. unfold_monad. simpl.
  rewrite (alter_as_insert _ _ _ _ Ha).
  destruct o as [[]|e]; simpl; [by rewrite app_nil_r|done].
Qed.

Lemma PerName_run_body_found w k b :
  heap w !! this k = Some b ->
  run_task (CallBody k) w =
    if decide (typeof (dict_get (funcs b) (name k)) = "function")
    then rejecting (call_stored (this k) b (dict_get (funcs b) (name k)) (args k)) w
    else (Ok tt, w).
Proof.
  intros Hb. unfold run_task, rejecting, bind. rewrite (PerName_self_Some _ _ _ Hb).
  by case_decide.
Qed.

(** What running the body of [call_func] does. *)
Lemma PerName_run_body w k :
  exists es,
    exec (run_task (CallBody k)) w =
    {| heap := match heap w !! this k with
               | Some b =>
                   if decide (typeof (dict_get (funcs b) (name k)) = "function")
                   then <[this k := with_funcs
                                      (invoke_on (funcs b) (dict_get (funcs b) (name k))
                                                 (args k)).2 b]> (heap w)
                   else heap w
               | None => heap w
               end;
       pysBridge := pysBridge w; jobs := jobs w; log := log w ++ es |}.
Proof.
  unfold exec, run_task. destruct (heap w !! this k) as [b|] eqn:E.
  - destruct (decide (typeof (dict_get (funcs b) (name k)) = "function")) as [Hf|Hf].
    + eexists.
      pose proof (PerName_call_stored_exec w (this k) b
                    (dict_get (funcs b) (name k)) (args k) E) as Hc.
      unfold rejecting in *. unfold bind at 1. rewrite (PerName_self_Some _ _ _ E).
      destruct (decide (typeof (dict_get (funcs b) (name k)) = "function")); [|done].
      rewrite Hc. simpl. by rewrite <- app_assoc.
    + exists []. unfold rejecting, bind. rewrite (PerName_self_Some _ _ _ E).
      destruct (decide (typeof (dict_get (funcs b) (name k)) = "function")); [done|].
      simpl. rewrite app_nil_r. by destruct w.
  - destruct (PerName_self_None _ _ E) as [e He]. exists [Rejected e].
    unfold rejecting, bind. by rewrite He.
Qed.

End PerNameSteps.

Section PerNameHistories.
Context {H : host}.
Import PerName.

Lemma steps_in_place_refl w w' :
  heap w' = heap w -> pysBridge w' = pysBridge w -> steps_in_place w w'.
Proof.
  intros Hh Hp. split; [done|]. split; [by rewrite Hh|].
  intros a b'. rewrite Hh. intros Hb. exists b'. split; [done|constructor].
Qed.

Lemma steps_in_place_insert b b1 a w w' :
  heap w' = <[a := b1]> (heap w) -> pysBridge w' = pysBridge w ->
  heap w !! a = Some b -> bridge_step a b b1 ->
  steps_in_place w w'.
Proof.
  intros Hh Hp Ha Hs. split; [done|]. split; [by rewrite Hh, length_insert|].
  intros a' b'. rewrite Hh. destruct (decide (a = a')) as [<-|Hne].
  - rewrite list_lookup_insert_eq by (by eapply lookup_lt_Some).
    intros [= <-]. eauto.
  - rewrite list_lookup_insert_ne by done.
    intros Hb. exists b'. split; [done|constructor].
Qed.

Lemma PerName_constructor_refused pysid key w :
  key <> PRIVATE_CONSTRUCTOR_KEY ->
  constructor pysid key w = (Throw (Error "Cannot instantiate PysBridge directly."), w).
Proof. intros Hk. unfold constructor. case_decide; done. Qed.

Lemma PerName_tick_shape w : steps_in_place w (tick w).
Proof.
  unfold tick. destruct (jobs w) as [|t ts]; [by apply steps_in_place_refl|].
  destruct t as [k|k]; [by apply steps_in_place_refl|].
  destruct (PerName_run_body (set_jobs ts w) k) as [es ->]. simpl.
  destruct (heap w !! this k) as [b|] eqn:E; [|by apply steps_in_place_refl].
  case_decide; [|by apply steps_in_place_refl].
  eapply steps_in_place_insert; [reflexivity|reflexivity|exact E|].
  apply bridge_define.
Qed.

Lemma PerName_call_func_shape w a f xs : steps_in_place w (exec (call_func a f xs) w).
Proof.
  unfold call_func, exec, rejecting.
  destruct (heap w !! a) as [b|] eqn:E.
  - destruct (promise_key_cases b f) as [Hplain|[Hn Hf]].
    + rewrite (PerName_wait_exec _ _ _ _ _ E Hplain). simpl.
      eapply steps_in_place_insert; [reflexivity|reflexivity|exact E|].
      by apply bridge_wait.
    + rewrite (PerName_wait_inherited _ _ _ _ _ E Hn Hf). simpl.
      by apply steps_in_place_refl.
  - unfold wait, ensure_promise. unfold bind at 1. unfold bind at 1.
    destruct (PerName_self_None _ _ E) as [e ->]. simpl.
    by apply steps_in_place_refl.
Qed.

Lemma PerName_add_func_shape w a f v : steps_in_place w (exec (add_func a f v) w).
Proof.
  unfold exec. destruct (decide (typeof v = "function")) as [Hv|Hv].
  - destruct (heap w !! a) as [b|] eqn:E.
    + destruct (dict_put true (funcs b) f v) as [d|e] eqn:Hd.
      * destruct (promise_key_cases b f) as [Hplain|[Hn Hf]].
        -- rewrite (PerName_add_func_exec _ _ _ _ _ _ E Hv Hd Hplain). simpl.
           eapply steps_in_place_insert; [reflexivity|reflexivity|exact E|].
           by eapply bridge_add_func.
        -- destruct (PerName_add_func_inherited _ _ _ _ _ _ E Hv Hd Hn Hf) as [msg ->].
           simpl.
           eapply steps_in_place_insert; [reflexivity|reflexivity|exact E|].
           by eapply bridge_assign.
      * rewrite (PerName_add_func_refused _ _ _ _ _ _ E Hv Hd).
        by apply steps_in_place_refl.
    + unfold add_func. case_decide; [done|]. unfold bind at 1.
      destruct (PerName_self_None _ _ E) as [e ->]. by apply steps_in_place_refl.
  - rewrite PerName_add_func_not_function by done.
    by apply steps_in_place_refl.
Qed.

(** Every operation either steps the instances in place or is the
    [create_pys_bridge] of an id whose lookup gives [undefined]. *)
Lemma PerName_perform_shape o w :
  allowed o ->
  steps_in_place w (perform o w) \/
  exists s, o = Create (VStr s) /\
            typeof (registry_get (pysBridge w) (normalized s)) = "undefined" /\
            perform o w = constructed (normalized s) w.
Proof.
  intros Hal.
  destruct o as [pysid key|pysid|pysid|pysid|a x g st|a x|a x v|a x|a x v|a x|a x
                 |a x funcObject|a x xs|a x|]; simpl in *.
  - left. unfold exec. rewrite PerName_constructor_refused by done.
    by apply steps_in_place_refl.
  - destruct pysid; try (left; by apply steps_in_place_refl).
    unfold exec. rewrite PerName_create_pys_bridge_string.
    case_decide as Hu.
    + right. exists s. done.
    + left. by apply steps_in_place_refl.
  - left. unfold exec, get_pys_bridge, bind, lift_result, gets.
    destruct (get_uuid_ref pysid); simpl; [|by apply steps_in_place_refl].
    case_decide; by apply steps_in_place_refl.
  - left. unfold exec, has_pys_bridge, bind, lift_result, gets.
    destruct (get_uuid_ref pysid); simpl; by apply steps_in_place_refl.
  - left. destruct (heap w !! a) as [b|] eqn:E.
    + unfold exec. rewrite (PerName_add_state_exec _ _ _ _ _ _ E). simpl.
      eapply steps_in_place_insert; [reflexivity|reflexivity|exact E|].
      apply bridge_store.
    + unfold exec, add_state, bind.
      destruct (PerName_self_None _ _ E) as [e ->]. by apply steps_in_place_refl.
  - left. unfold exec, state, bind, self.
    destruct (heap w !! a) as [b|]; simpl; [|by apply steps_in_place_refl].
    case_decide; [|by apply steps_in_place_refl].
    unfold lift_result. by apply steps_in_place_refl.
  - left. unfold exec, set_state, bind, self.
    destruct (heap w !! a) as [b|]; simpl; [|by apply steps_in_place_refl].
    case_decide; [|by apply steps_in_place_refl].
    unfold lift_result. destruct (field _ _); [|by apply steps_in_place_refl].
    unfold call. destruct (invoke _ _ _). by apply steps_in_place_refl.
  - left. unfold exec, has_state, bind, self.
    destruct (heap w !! a) as [b|]; simpl; by apply steps_in_place_refl.
  - left. destruct (heap w !! a) as [b|] eqn:E.
    + unfold exec. rewrite (PerName_add_ref_exec _ _ _ _ _ E).
      destruct (dict_put true (refs b) x v); [|by apply steps_in_place_refl].
      eapply steps_in_place_insert; [reflexivity|reflexivity|exact E|].
      apply bridge_store.
    + unfold exec, add_ref, bind.
      destruct (PerName_self_None _ _ E) as [e ->]. by apply steps_in_place_refl.
  - left. unfold exec, ref, bind, self.
    destruct (heap w !! a) as [b|]; simpl; [|by apply steps_in_place_refl].
    case_decide; by apply steps_in_place_refl.
  - left. unfold exec, has_ref, bind, self.
    destruct (heap w !! a) as [b|]; simpl; by apply steps_in_place_refl.
  - left. apply PerName_add_func_shape.
  - left. apply PerName_call_func_shape.
  - left. unfold exec, has_func, bind, self.
    destruct (heap w !! a) as [b|]; simpl; by apply steps_in_place_refl.
  - left. apply PerName_tick_shape.
Qed.

End PerNameHistories.

Section PerNameInvariant.
Context {H : host}.
Import PerName.

Lemma bridge_ok_new a : bridge_ok a new_bridge.
Proof.
  intros f. unfold signal, own_data. simpl. rewrite !lookup_empty. simpl.
  split; [intros _; split; discriminate|]. split; [constructor|].
  split; [by intros [d Hd]|done].
Qed.

Lemma bridge_step_ok a b b' : bridge_step a b b' -> bridge_ok a b -> bridge_ok a b'.
Proof.
  intros Hstep Hok.
  destruct Hstep as [|st rf|f v d Hv Hd Hf|f v d Hv Hd Hplain|f xs Hplain|callee xs];
    [done|exact Hok| | | |].
  - intros f'. destruct (Hok f') as (Hgate & Hre & Hkey & Hset).
    split; [|done]. simpl. intros Hord.
    destruct (dict_put_function_ordinary _ _ _ _ _ f' Hd Hv Hord) as [Hord0 Hprop].
    rewrite Hprop. case_decide as Hff; [|by apply Hgate].
    subst f'. by destruct Hord0 as (_ & Hpl & _).
  - intros f'. rewrite signal_set_promise. simpl.
    destruct (Hok f') as (Hgate & Hre & Hkey & Hset). case_decide as Hff.
    + subst f'. split; [|split; [|split]].
      * intros Hord.
        destruct (dict_put_function_ordinary _ _ _ _ _ f Hd Hv Hord) as [_ Hprop].
        rewrite Hprop. rewrite decide_True by done.
        split; [done|intros _; apply settle_fst_resolved].
      * rewrite ?signal_with_funcs.
        unfold settle. destruct (resolved (signal f b)); [exact Hre|constructor].
      * intros _. destruct (promise b !! f) eqn:E; [apply Hkey; eauto|by apply Hplain].
      * rewrite ?signal_with_funcs. unfold settle.
        destruct (resolved (signal f b)) eqn:E; [by intros _; apply Hset|done].
    + split; [|split; [exact Hre|split; [|exact Hset]]].
      * intros Hord.
        destruct (dict_put_function_ordinary _ _ _ _ _ f' Hd Hv Hord) as [Hord0 Hprop].
        rewrite Hprop. rewrite decide_False by done. by apply Hgate.
      * rewrite lookup_insert_ne by done. exact Hkey.
  - intros f'. rewrite signal_set_promise.
    destruct (Hok f') as (Hgate & Hre & Hkey & Hset). case_decide as Hff.
    + subst f'. rewrite await_fst_resolved. split; [exact Hgate|]. split; [|split].
      * unfold await. destruct (resolved (signal f b)); [exact Hre|]. simpl.
        apply Forall_app. split; [exact Hre|]. constructor; [eauto|constructor].
      * intros _. destruct (promise b !! f) eqn:E; [apply Hkey; eauto|by apply Hplain].
      * intros Hres. unfold await. rewrite Hres. by apply Hset.
    + split; [exact Hgate|]. split; [exact Hre|]. split; [|exact Hset].
      simpl. rewrite lookup_insert_ne by done. exact Hkey.
  - intros f'. destruct (Hok f') as (Hgate & Hre & Hkey & Hset).
    split; [|done]. simpl. intros Hord.
    destruct (invoke_on_ordinary _ _ _ _ Hord) as [Hord0 Hprop].
    rewrite Hprop. by apply Hgate.
Qed.

Lemma registry_ok_in_place w w' :
  steps_in_place w w' -> registry_ok w -> registry_ok w'.
Proof.
  intros (Hp & Hl & _) (H0 & H1 & H2 & H3). unfold registry_ok. rewrite Hp, Hl. done.
Qed.

Lemma constructed_registry id w :
  typeof (registry_get (pysBridge w) id) = "undefined" ->
  registered (pysBridge w) !! id = None /\
  pysBridge (constructed id w) =
    {| registered := <[id := length (heap w)]> (registered (pysBridge w));
       instance_proto := instance_proto (pysBridge w) |}.
Proof.
  intros Hu. unfold constructed. simpl.
  by destruct (registry_put_undefined _ _ (length (heap w)) Hu) as (Hn & _ & ->).
Qed.

Lemma registry_ok_constructed id w :
  typeof (registry_get (pysBridge w) id) = "undefined" ->
  registry_ok w -> registry_ok (constructed id w).
Proof.
  intros Hu (H0 & H1 & H2 & H3).
  destruct (constructed_registry id w Hu) as [Hid Hreg].
  unfold registry_ok. rewrite Hreg. unfold constructed. simpl.
  rewrite length_app. simpl. split; [done|]. split; [|split].
  - intros id' a. rewrite lookup_insert. case_decide.
    + intros [= <-]. lia.
    + intros Ha. apply H1 in Ha. lia.
  - intros a Ha. destruct (decide (a = length (heap w))) as [->|Hne].
    + exists id. by rewrite lookup_insert_eq.
    + destruct (H2 a) as [id' Hid']; [lia|]. exists id'.
      rewrite lookup_insert_ne; [done|]. intros ->. congruence.
  - intros i j a. rewrite !lookup_insert. repeat case_decide; subst.
    + done.
    + intros [= <-] Hj. apply H1 in Hj. lia.
    + intros Hi [= <-]. apply H1 in Hi. lia.
    + apply H3.
Qed.

Lemma invariant_init : invariant init.
Proof.
  split.
  - split; [done|]. split; [|split]; simpl.
    + intros id a. by rewrite lookup_empty.
    + intros a Ha. lia.
    + intros i j a. by rewrite lookup_empty.
  - intros a b. simpl. by rewrite lookup_nil.
Qed.

Lemma invariant_perform o w : allowed o -> invariant w -> invariant (perform o w).
Proof.
  intros Hal [Hreg Hbr].
  destruct (PerName_perform_shape o w Hal) as [Hin|(s & -> & Hu & Heq)].
  - split; [by eapply registry_ok_in_place|].
    intros a b' Hb'. destruct Hin as (_ & _ & Hin).
    destruct (Hin a b' Hb') as (b & Hb & Hstep).
    eapply bridge_step_ok; eauto.
  - rewrite Heq. split; [by apply registry_ok_constructed|].
    intros a b. unfold constructed. simpl. intros Hb.
    apply lookup_app_Some in Hb as [Hb|[_ Hb]]; [by apply Hbr|].
    apply list_lookup_singleton_Some in Hb as [_ <-]. apply bridge_ok_new.
Qed.

Lemma reachable_invariant w : reachable w -> invariant w.
Proof.
  induction 1 as [|w o _ IH Hal]; [apply invariant_init|by apply invariant_perform].
Qed.


(** In a reachable world a lookup that gives an instance finds it among
    the registered ids. *)
Lemma registry_ok_get w id a :
  registry_ok w -> registry_get (pysBridge w) id = VInstance a ->
  registered (pysBridge w) !! id = Some a.
Proof.
  intros (H0 & _) Hget. unfold registry_get in Hget.
  destruct (registered (pysBridge w) !! id) as [a'|]; [by injection Hget as ->|].
  rewrite H0 in Hget. by destruct (object_get_not_instance id a).
Qed.

End PerNameInvariant.


(** ** Per-name class: construction and separation of the instances *)

Section PerNameInstances.
Context {H : host}.

(** C10. In the per-name class the constructor throws "Cannot instantiate
    PysBridge directly." and changes nothing for every key other than the
    private one.  Hence, along every history of outside code, an operation
    that adds an instance to the heap is a [create_pys_bridge] of a string
    id whose lookup gave [undefined], and it records the new instance
    under the normalized id; and every instance of the heap is recorded in
    the instance mapping. *)
Theorem constructor_needs_private_key (w : PerName.world) :
  PerName.reachable w ->
  (forall pysid key,
      key <> PerName.PRIVATE_CONSTRUCTOR_KEY ->
      PerName.constructor pysid key w =
        (Throw (Error "Cannot instantiate PysBridge directly."), w)) /\
  (forall o,
      PerName.allowed o ->
      length (PerName.heap (PerName.perform o w)) <> length (PerName.heap w) ->
      exists s, o = PerName.Create (VStr s) /\
                typeof (registry_get (PerName.pysBridge w) (normalized s)) = "undefined" /\
                registered (PerName.pysBridge w) !! normalized s = None /\
                PerName.heap (PerName.perform o w) =
                  PerName.heap w ++ [PerName.new_bridge] /\
                registered (PerName.pysBridge (PerName.perform o w)) !! normalized s
                  = Some (length (PerName.heap w)) /\
                registry_get (PerName.pysBridge (PerName.perform o w)) (normalized s)
                  = VInstance (length (PerName.heap w))) /\
  (forall a, a < length (PerName.heap w) ->
             exists id, registered (PerName.pysBridge w) !! id = Some a /\
                        registry_get (PerName.pysBridge w) id = VInstance a).
Proof.
  intros Hreach. split; [|split].
  - intros pysid key Hk. by apply PerName_constructor_refused.
  - intros o Hal Hlen.
    destruct (PerName_perform_shape o w Hal) as [(_ & Hl & _)|(s & -> & Hu & Heq)];
      [done|].
    destruct (constructed_registry (normalized s) w Hu) as [Hnone Hreg].
    exists s. split; [done|]. split; [done|]. split; [done|]. rewrite Heq.
    split; [done|]. split.
    + rewrite Hreg. simpl. by rewrite lookup_insert_eq.
    + unfold PerName.constructed. simpl. apply registry_get_put.
  - intros a Ha. destruct (reachable_invariant w Hreach) as [(_ & _ & H2 & _) _].
    destruct (H2 a Ha) as [id Hid]. exists id. split; [done|].
    by apply (registry_get_cases (PerName.pysBridge w) id).
Qed.

Lemma PerName_has_state_lookup w w' a x :
  PerName.heap w' !! a = PerName.heap w !! a ->
  eval (PerName.has_state a x) w' = eval (PerName.has_state a x) w.
Proof.
  intros Hh. unfold eval, PerName.has_state, bind, PerName.self. rewrite Hh.
  by destruct (PerName.heap w !! a).
Qed.

(** A registration on the instance [a] changes the heap at [a] only. *)
Lemma PerName_add_state_heap w a x g s :
  PerName.heap (exec (PerName.add_state a x g s) w) = PerName.heap w \/
  exists b1, PerName.heap (exec (PerName.add_state a x g s) w)
             = <[a := b1]> (PerName.heap w).
Proof.
  unfold exec. destruct (PerName.heap w !! a) as [b|] eqn:E.
  - rewrite (PerName_add_state_exec _ _ _ _ _ _ E). simpl. eauto.
  - unfold PerName.add_state, bind.
    destruct (PerName_self_None _ _ E) as [e ->]. by left.
Qed.

Lemma PerName_add_ref_heap w a x v :
  PerName.heap (exec (PerName.add_ref a x v) w) = PerName.heap w \/
  exists b1, PerName.heap (exec (PerName.add_ref a x v) w)
             = <[a := b1]> (PerName.heap w).
Proof.
  unfold exec. destruct (PerName.heap w !! a) as [b|] eqn:E.
  - rewrite (PerName_add_ref_exec _ _ _ _ _ E).
    destruct (dict_put true (PerName.refs b) x v); simpl; eauto.
  - unfold PerName.add_ref, bind.
    destruct (PerName_self_None _ _ E) as [e ->]. by left.
Qed.

Lemma PerName_add_func_heap w a x v :
  PerName.heap (exec (PerName.add_func a x v) w) = PerName.heap w \/
  exists b1, PerName.heap (exec (PerName.add_func a x v) w)
             = <[a := b1]> (PerName.heap w).
Proof.
  unfold exec. destruct (decide (typeof v = "function")) as [Hv|Hv].
  - destruct (PerName.heap w !! a) as [b|] eqn:E.
    + destruct (dict_put true (PerName.funcs b) x v) as [d|e] eqn:Hd.
      * destruct (promise_key_cases b x) as [Hplain|[Hn Hf]].
        -- rewrite (PerName_add_func_exec _ _ _ _ _ _ E Hv Hd Hplain). simpl. eauto.
        -- destruct (PerName_add_func_inherited _ _ _ _ _ _ E Hv Hd Hn Hf) as [msg ->].
           simpl. eauto.
      * rewrite (PerName_add_func_refused _ _ _ _ _ _ E Hv Hd). by left.
    + unfold PerName.add_func. case_decide; [done|]. unfold bind at 1.
      destruct (PerName_self_None _ _ E) as [e ->]. by left.
  - rewrite PerName_add_func_not_function by done. by left.
Qed.

(** C8. Two instances registered under distinct ids are distinct objects,
    and registering [x] as a state, a ref or a function on one of them
    leaves the other instance (its state, ref and function stores) as it
    was, so [has_state(x)] on the other returns what it returned before;
    in particular it stays false. *)
Theorem instances_have_disjoint_stores
    (w : PerName.world) (ia ib : string) (a a' : nat) (x : string) :
  PerName.reachable w ->
  registry_get (PerName.pysBridge w) ia = VInstance a ->
  registry_get (PerName.pysBridge w) ib = VInstance a' ->
  ia <> ib ->
  a <> a' /\
  forall w',
    (exists g s, w' = exec (PerName.add_state a x g s) w) \/
    (exists v, w' = exec (PerName.add_ref a x v) w) \/
    (exists v, w' = exec (PerName.add_func a x v) w) ->
    PerName.heap w' !! a' = PerName.heap w !! a' /\
    eval (PerName.has_state a' x) w' = eval (PerName.has_state a' x) w /\
    (eval (PerName.has_state a' x) w = Ok false ->
     eval (PerName.has_state a' x) w' = Ok false).
Proof.
  intros Hreach Ha Ha' Hne.
  destruct (reachable_invariant w Hreach) as [Hreg _].
  apply (registry_ok_get w _ _ Hreg) in Ha, Ha'.
  destruct Hreg as (_ & _ & _ & H3).
  assert (Haa : a <> a') by (intros <-; apply Hne; eauto).
  split; [exact Haa|]. intros w' Hw'.
  assert (Hheap : PerName.heap w' !! a' = PerName.heap w !! a').
  { assert (Hh : PerName.heap w' = PerName.heap w \/
                 exists b1, PerName.heap w' = <[a := b1]> (PerName.heap w)).
    { destruct Hw' as [(g & s & ->)|[(v & ->)|(v & ->)]].
      - apply PerName_add_state_heap.
      - apply PerName_add_ref_heap.
      - apply PerName_add_func_heap. }
    destruct Hh as [->|[b1 ->]]; [done|]. by rewrite list_lookup_insert_ne. }
  split; [exact Hheap|].
  pose proof (PerName_has_state_lookup w w' a' x Hheap) as Heq.
  split; [exact Heq|]. by rewrite Heq.
Qed.

(** An operation of outside code leaves a lookup of the instance mapping
    that finds something as it is. *)
Lemma PerName_perform_registered o w k :
  PerName.allowed o ->
  typeof (registry_get (PerName.pysBridge w) k) <> "undefined" ->
  registry_get (PerName.pysBridge (PerName.perform o w)) k
  = registry_get (PerName.pysBridge w) k.
Proof.
  intros Hal Hk.
  destruct (PerName_perform_shape o w Hal) as [(Hp & _)|(s & -> & Hu & Heq)].
  - by rewrite Hp.
  - rewrite Heq.
    destruct (constructed_registry (normalized s) w Hu) as [_ ->].
    apply registry_get_insert_ne. intros ->. done.
Qed.

(** X3. In the per-name class a registration is permanent: once
    [get_pys_bridge] returns an instance for an id, it returns the same
    instance after every further history of operations; nothing removes or
    replaces an entry of the instance mapping. *)
Theorem registered_instance_is_permanent
    (s : string) (a : nat) (os : list PerName.op) (w : PerName.world) :
  Forall PerName.allowed os ->
  eval (PerName.get_pys_bridge (VStr s)) w = Ok (VInstance a) ->
  eval (PerName.get_pys_bridge (VStr s)) (PerName.perform_all os w) = Ok (VInstance a).
Proof.
  intros Hos. unfold eval. rewrite !PerName_get_pys_bridge_string.
  case_decide as Hu; [|discriminate]. simpl. intros [= Hget].
  assert (Hall : registry_get (PerName.pysBridge (PerName.perform_all os w)) (normalized s)
                 = VInstance a).
  { clear Hu. revert w Hget. induction Hos as [|o os Ho _ IH]; intros w Hget; [done|].
    simpl. apply IH. rewrite PerName_perform_registered; [done|done|].
    by rewrite Hget. }
  rewrite Hall. by case_decide.
Qed.

End PerNameInstances.

(** ** Readiness signals *)

Section FlatSteps.
Context {H : host}.
Import Flat.

Lemma Flat_promise_key_cases w n :
  (pysPromises w !! n = None -> plain n) \/ (pysPromises w !! n = None /\ inherited n).
Proof.
  destruct (pysPromises w !! n); [left; done|].
  destruct (decide (inherited n)); [by right|by left].
Qed.

(** The lookup [pys_wait] and [pys_resolve] make after their first
    statement. *)
Lemma Flat_ensure_exec n w :
  (pysPromises w !! n = None -> plain n) ->
  exists p1,
    ensure_promise n w = (Ok tt, set_promises p1 w) /\
    promise_get p1 n = Stored (signal n w) /\
    <[n := signal n w]> (pysPromises w) = p1.
Proof.
  intros Hplain. unfold ensure_promise, pys_promise, signal. unfold_monad. simpl.
  unfold promise_get. destruct (pysPromises w !! n) as [d|] eqn:E; simpl.
  - exists (pysPromises w). rewrite E. split; [by destruct w|].
    split; [done|]. by rewrite insert_id.
  - rewrite (object_get_plain _ (Hplain eq_refl)). simpl. rewrite ?E.
    rewrite ?(object_get_plain _ (Hplain eq_refl)). simpl.
    eexists. split; [reflexivity|]. by rewrite lookup_insert_eq.
Qed.

Lemma Flat_ensure_inherited n w :
  pysPromises w !! n = None -> inherited n ->
  ensure_promise n w = (Ok tt, w) /\
  promise_get (pysPromises w) n = Foreign (object_get n) /\
  typeof (object_get n) <> "undefined".
Proof.
  intros Hn Hf. destruct (promise_get_inherited (pysPromises w) n Hf Hn) as [Hget Hty].
  unfold ensure_promise. unfold_monad. simpl. rewrite Hget. simpl. by case_decide.
Qed.

Lemma Flat_pys_wait_exec n k w :
  (pysPromises w !! n = None -> plain n) ->
  pys_wait n k w =
    (Ok tt,
     {| pysPromises := <[n := (await (signal n w) k).1]> (pysPromises w);
        pysStates := pysStates w; pysRefs := pysRefs w; pysFunctions := pysFunctions w;
        jobs := jobs w ++ (await (signal n w) k).2; log := log w |}).
Proof.
  intros Hplain. destruct (Flat_ensure_exec n w Hplain) as (p1 & He & Hget & Hp1).
  unfold pys_wait. unfold bind at 1. rewrite He.
  unfold bind at 1, gets at 1. simpl. rewrite Hget.
  destruct (await (signal n w) k) as [d ts]. unfold schedule. unfold_monad. simpl.
  by rewrite <- Hp1, insert_insert_eq.
Qed.

Lemma Flat_pys_resolve_exec n w :
  (pysPromises w !! n = None -> plain n) ->
  pys_resolve n w =
    (Ok tt,
     {| pysPromises := <[n := (settle (signal n w)).1]> (pysPromises w);
        pysStates := pysStates w; pysRefs := pysRefs w; pysFunctions := pysFunctions w;
        jobs := jobs w ++ (settle (signal n w)).2; log := log w |}).
Proof.
  intros Hplain. destruct (Flat_ensure_exec n w Hplain) as (p1 & He & Hget & Hp1).
  unfold pys_resolve. unfold bind at 1. rewrite He.
  unfold bind at 1, gets at 1. simpl. rewrite Hget.
  destruct (settle (signal n w)) as [d ts]. unfold schedule. unfold_monad. simpl.
  by rewrite <- Hp1, insert_insert_eq.
Qed.

(** Under an inherited name without signal, [pys_resolve] throws a
    TypeError and [pys_wait] goes on at once. *)
Lemma Flat_pys_resolve_inherited n w :
  pysPromises w !! n = None -> inherited n ->
  exists msg, pys_resolve n w = (Throw (TypeError msg), w).
Proof.
  intros Hn Hf. destruct (Flat_ensure_inherited n w Hn Hf) as (He & Hget & _).
  unfold pys_resolve. unfold bind at 1. rewrite He.
  unfold bind at 1, gets at 1. simpl. rewrite Hget. eauto.
Qed.

Lemma Flat_pys_wait_inherited n k w :
  pysPromises w !! n = None -> inherited n ->
  pys_wait n k w = (Ok tt, set_jobs (jobs w ++ [k]) w).
Proof.
  intros Hn Hf. destruct (Flat_ensure_inherited n w Hn Hf) as (He & Hget & Hty).
  unfold pys_wait. unfold bind at 1. rewrite He.
  unfold bind at 1, gets at 1. simpl. rewrite Hget. by case_decide.
Qed.

Lemma Flat_signal_resolved_Some n w :
  resolved (signal n w) = true -> pysPromises w !! n = Some (signal n w).
Proof.
  unfold signal. destruct (pysPromises w !! n); [done|discriminate].
Qed.

Lemma Flat_call_stored_promises callee xs w :
  pysPromises (exec (rejecting (call_stored callee xs)) w) = pysPromises w /\
  jobs (exec (rejecting (call_stored callee xs)) w) = jobs w /\
  eval (rejecting (call_stored callee xs)) w = Ok tt.
Proof.
  unfold exec, eval, rejecting, call_stored. unfold_monad. simpl.
  destruct (invoke_on (pysFunctions w) callee xs) as [[es o] d]. simpl.
  by destruct o as [[]|e].
Qed.

Lemma Flat_call_body_promises f xs w :
  pysPromises (exec (rejecting (call_body f xs)) w) = pysPromises w /\
  jobs (exec (rejecting (call_body f xs)) w) = jobs w /\
  eval (rejecting (call_body f xs)) w = Ok tt.
Proof.
  unfold call_body.
  assert (Heq : rejecting
                  (let* f0 := gets (fun w => dict_get (pysFunctions w) f) in
                   if decide (typeof f0 = "function") then call_stored f0 xs
                   else throw (Error ("Function " +:+ f +:+ " not function."))) w
                = if decide (typeof (dict_get (pysFunctions w) f) = "function")
                  then rejecting (call_stored (dict_get (pysFunctions w) f) xs) w
                  else emit [Rejected (Error ("Function " +:+ f +:+ " not function."))] w).
  { unfold rejecting. unfold_monad. simpl. by case_decide. }
  unfold exec, eval. rewrite Heq. case_decide; [apply Flat_call_stored_promises|done].
Qed.

Lemma Flat_pys_wait_rejecting n k w : rejecting (pys_wait n k) w = pys_wait n k w.
Proof.
  unfold rejecting. destruct (Flat_promise_key_cases w n) as [Hplain|[Hn Hf]].
  - by rewrite Flat_pys_wait_exec.
  - by rewrite Flat_pys_wait_inherited.
Qed.

(** No operation of the flat API takes a resolved signal back. *)
Lemma Flat_perform_resolved o n w :
  resolved (signal n w) = true -> resolved (signal n (perform o w)) = true.
Proof.
  intros Hres.
  assert (Hsame : forall w', pysPromises w' = pysPromises w ->
                             resolved (signal n w') = true).
  { intros w' Hw'. unfold signal in *. by rewrite Hw'. }
  assert (Hwait : forall m k, resolved (signal n (exec (pys_wait m k) w)) = true).
  { intros m k. unfold exec. destruct (Flat_promise_key_cases w m) as [Hplain|[Hn Hf]].
    - rewrite Flat_pys_wait_exec by done. unfold signal at 1. simpl.
      rewrite lookup_insert. case_decide as Hm; [|exact Hres].
      subst m. simpl. by rewrite await_fst_resolved.
    - rewrite Flat_pys_wait_inherited by done. by apply Hsame. }
  assert (Hbody : forall g ys w', pysPromises w' = pysPromises w ->
                    resolved (signal n (exec (rejecting (call_body g ys)) w')) = true).
  { intros g ys w' Hw'. apply Hsame.
    by rewrite (proj1 (Flat_call_body_promises g ys w')). }
  destruct o as [m|m|m|m g st|m v|m v|m|m v|m|m promiseName xs|]; simpl.
  - unfold exec, pys_promise. unfold_monad. simpl.
    case_decide as Hu; simpl; [|by apply Hsame].
    unfold signal. simpl. rewrite lookup_insert_ne; [exact Hres|].
    intros ->. unfold promise_get in Hu.
    by rewrite (Flat_signal_resolved_Some _ _ Hres) in Hu.
  - unfold exec. rewrite Flat_pys_wait_rejecting. apply Hwait.
  - unfold exec. destruct (Flat_promise_key_cases w m) as [Hplain|[Hn Hf]].
    + rewrite Flat_pys_resolve_exec by done. unfold signal at 1. simpl.
      rewrite lookup_insert. case_decide as Hm; [|exact Hres].
      simpl. apply settle_fst_resolved.
    + destruct (Flat_pys_resolve_inherited m w Hn Hf) as [msg ->]. exact Hres.
  - by apply Hsame.
  - apply Hsame. unfold exec, pys_register_ref. unfold_monad. simpl.
    by destruct (dict_put _ _ _ _).
  - apply Hsame. unfold exec, pys_func. unfold_monad. simpl.
    by destruct (dict_put _ _ _ _).
  - apply Hsame. unfold exec, pys_get. unfold_monad. simpl.
    case_decide; [|done]. by destruct (field _ _).
  - apply Hsame. unfold exec, pys_set. unfold_monad. simpl.
    case_decide; [|done]. destruct (field _ _); [|done].
    unfold call. by destruct (invoke _ _ _).
  - apply Hsame. unfold exec, pys_ref. unfold_monad. simpl. by case_decide.
  - unfold pys_call_func.
    destruct promiseName; try (by apply Hbody).
    case_decide; [|by apply Hbody].
    unfold exec. rewrite Flat_pys_wait_rejecting. apply Hwait.
  - unfold tick. destruct (jobs w) as [|t ts]; [exact Hres|].
    destruct t as [g ys|g ys|]; simpl; [by apply Hsame| |by apply Hsame].
    by apply Hbody.
Qed.

Lemma Flat_perform_all_resolved os n w :
  resolved (signal n w) = true -> resolved (signal n (perform_all os w)) = true.
Proof.
  revert w. induction os as [|o os IH]; intros w Hres; [exact Hres|].
  simpl. apply IH. by apply Flat_perform_resolved.
Qed.

Lemma Flat_pys_resolve_resolved n w :
  resolved (signal n w) = true -> pys_resolve n w = (Ok tt, w).
Proof.
  intros Hres. pose proof (Flat_signal_resolved_Some _ _ Hres) as Hsome.
  rewrite Flat_pys_resolve_exec by (by rewrite Hsome).
  rewrite (settle_resolved _ Hres). simpl.
  rewrite insert_id by done. rewrite app_nil_r. by destruct w.
Qed.

End FlatSteps.

Section PerNameSignals.
Context {H : host}.
Import PerName.

Lemma PerName_signal_resolved_Some f b :
  resolved (signal f b) = true -> promise b !! f = Some (signal f b).
Proof. unfold signal. destruct (promise b !! f); [done|discriminate]. Qed.

Lemma set_promise_signal f b :
  promise b !! f = Some (signal f b) -> set_promise f (signal f b) b = b.
Proof.
  intros Hs. unfold set_promise. rewrite insert_id by done. by destruct b.
Qed.

Lemma PerName_resolve_resolved w a b f :
  heap w !! a = Some b -> resolved (signal f b) = true ->
  resolve a f w = (Ok tt, w).
Proof.
  intros Ha Hres. pose proof (PerName_signal_resolved_Some _ _ Hres) as Hsome.
  rewrite (PerName_resolve_exec _ _ _ _ Ha) by (by rewrite Hsome).
  rewrite (settle_resolved _ Hres). simpl.
  rewrite set_promise_signal, list_insert_id by done. rewrite app_nil_r. by destruct w.
Qed.

Lemma bridge_step_resolved a b b' f :
  bridge_step a b b' -> resolved (signal f b) = true -> resolved (signal f b') = true.
Proof.
  intros Hstep Hres.
  destruct Hstep as [|st rf|f' v d Hv Hd Hf|f' v d Hv Hd Hplain|f' xs Hplain|callee xs];
    [done|exact Hres|exact Hres| | |exact Hres].
  - rewrite signal_set_promise. case_decide; [apply settle_fst_resolved|exact Hres].
  - rewrite signal_set_promise. case_decide as Hf; [|exact Hres].
    subst f'. by rewrite await_fst_resolved.
Qed.

Lemma PerName_perform_resolved o w a b f :
  allowed o -> heap w !! a = Some b -> resolved (signal f b) = true ->
  exists b', heap (perform o w) !! a = Some b' /\ resolved (signal f b') = true.
Proof.
  intros Hal Ha Hres.
  destruct (PerName_perform_shape o w Hal) as [(_ & Hl & Hin)|(s & -> & Hnone & Heq)].
  - destruct (lookup_lt_is_Some_2 (heap (perform o w)) a) as [b' Hb'].
    { rewrite Hl. by eapply lookup_lt_Some. }
    exists b'. split; [done|].
    destruct (Hin a b' Hb') as (b0 & Hb0 & Hstep).
    rewrite Ha in Hb0. injection Hb0 as <-. by eapply bridge_step_resolved.
  - exists b. rewrite Heq. unfold constructed. simpl. split; [|done].
    rewrite lookup_app_l; [done|]. by eapply lookup_lt_Some.
Qed.

Lemma PerName_perform_all_resolved os w a b f :
  Forall allowed os -> heap w !! a = Some b -> resolved (signal f b) = true ->
  exists b', heap (perform_all os w) !! a = Some b' /\ resolved (signal f b') = true.
Proof.
  intros Hal. revert w b. induction Hal as [|o os Ho _ IH]; intros w b Ha Hres.
  - simpl. eauto.
  - simpl. destruct (PerName_perform_resolved o w a b f Ho Ha Hres) as (b1 & Hb1 & Hr1).
    by apply (IH _ b1).
Qed.

End PerNameSignals.

Section Resolution.
Context {H : host}.

(** C4. Resolution is idempotent and the resolved flag is monotonic, in the
    per-name class ([#resolve]) and in the flat API ([pys_resolve]):
    resolving a signal that is resolved returns normally and leaves the
    whole world as it was (no job is scheduled again), and after any
    history of operations the signal is still resolved. *)
Theorem resolution_idempotent_and_monotonic (n : string) :
  (forall (w : PerName.world) a b,
      PerName.heap w !! a = Some b ->
      resolved (PerName.signal n b) = true ->
      PerName.resolve a n w = (Ok tt, w) /\
      forall os, Forall PerName.allowed os ->
                 exists b', PerName.heap (PerName.perform_all os w) !! a = Some b' /\
                            resolved (PerName.signal n b') = true) /\
  (forall w : Flat.world,
      resolved (Flat.signal n w) = true ->
      Flat.pys_resolve n w = (Ok tt, w) /\
      forall os, resolved (Flat.signal n (Flat.perform_all os w)) = true).
Proof.
  split.
  - intros w a b Ha Hres. split; [by eapply PerName_resolve_resolved|].
    intros os Hos. by eapply PerName_perform_all_resolved.
  - intros w Hres. split; [by apply Flat_pys_resolve_resolved|].
    intros os. by apply Flat_perform_all_resolved.
Qed.

End Resolution.


(** ** The function store and the readiness signal of a name *)

Section PerNameWaiters.
Context {H : host}.
Import PerName.

(** Waiting on a resolved signal schedules the continuation at once and
    changes nothing else. *)
Lemma PerName_wait_resolved w a b f k :
  heap w !! a = Some b -> resolved (signal f b) = true ->
  wait a f k w = (Ok tt, set_jobs (jobs w ++ [k]) w).
Proof.
  intros Ha Hres. pose proof (PerName_signal_resolved_Some _ _ Hres) as Hsome.
  rewrite (PerName_wait_exec _ _ _ _ _ Ha) by (by rewrite Hsome).
  rewrite (await_resolved _ _ Hres). simpl.
  rewrite set_promise_signal, list_insert_id by done. reflexivity.
Qed.

Lemma PerName_has_func_eval w a b f :
  heap w !! a = Some b ->
  eval (has_func a f) w = Ok (bool_decide (typeof (dict_get (funcs b) f) = "function")).
Proof.
  intros Ha. unfold eval, has_func, bind. by rewrite (PerName_self_Some _ _ _ Ha).
Qed.

(** [add_func] of a function under a name the store answers itself. *)
Lemma PerName_add_func_ordinary w a b f v :
  heap w !! a = Some b -> typeof v = "function" -> ordinary (funcs b) f ->
  let d := {| own := <[f := Data v]> (own (funcs b)); proto := proto (funcs b) |} in
  ordinary d f /\ dict_get d f = v /\
  add_func a f v w =
    (Ok tt,
     {| heap := <[a := set_promise f (settle (signal f b)).1 (with_funcs d b)]> (heap w);
        pysBridge := pysBridge w;
        jobs := jobs w ++ (settle (signal f b)).2; log := log w |}).
Proof.
  intros Ha Hv Hord d.
  assert (Hd : ordinary d f) by (by apply ordinary_put).
  split; [exact Hd|]. split.
  - rewrite dict_get_ordinary by done. unfold own_data, d. simpl. by rewrite lookup_insert_eq.
  - apply PerName_add_func_exec; [done|done|by apply dict_put_ordinary|].
    intros _. by destruct Hord as (_ & Hpl & _).
Qed.

End PerNameWaiters.

Section SingleSteps.
Context {H : host}.

Lemma Single_add_func_exec w a b f v :
  Single.heap w !! a = Some b ->
  Single.add_func a f v w =
    match dict_put true (Single.funcs b) f v with
    | Ok d => (Ok tt,
               {| Single.heap := <[a := Single.with_funcs d b]> (Single.heap w);
                  Single.pysBridge := Single.pysBridge w;
                  Single.jobs := Single.jobs w; Single.log := Single.log w |})
    | Throw e => (Throw e, w)
    end.
Proof.
  intros Ha. unfold Single.add_func, bind.
  rewrite (Single_self_Some _ _ _ Ha). unfold lift_result.
  destruct (dict_put true (Single.funcs b) f v) as [d|e]; [|done].
  unfold Single.update, modify. by rewrite (alter_as_insert _ _ _ _ Ha).
Qed.

End SingleSteps.

Section AddFunc.
Context {H : host}.

(** C2.  In the per-name class, [add_func(name, p)] throws
    "Function must be a function." and changes nothing when [p] is not a
    function.  When [p] is a function and [name] is a name the function
    store answers itself (not a member of [Object.prototype], the store
    having its original prototype and no accessor under [name]), it
    returns normally, stores [p] under [name], leaves a resolved signal for
    [name] in the promise table (created if it was missing), schedules
    the calls that were parked on it, and from then on a wait on [name] is
    scheduled at once instead of being parked.  In the single-signal class
    [add_func] on such a name stores any value without throwing, and
    touches neither the instance signal nor the job queue. *)
Theorem add_func_validates_stores_and_resolves (name : string) (p : value) :
  (forall (w : PerName.world) a b,
      PerName.heap w !! a = Some b ->
      (typeof p <> "function" ->
       PerName.add_func a name p w = (Throw (Error "Function must be a function."), w)) /\
      (typeof p = "function" -> ordinary (PerName.funcs b) name ->
       let w1 := exec (PerName.add_func a name p) w in
       eval (PerName.add_func a name p) w = Ok tt /\
       PerName.jobs w1 = PerName.jobs w ++ (settle (PerName.signal name b)).2 /\
       PerName.log w1 = PerName.log w /\
       exists b1,
         PerName.heap w1 !! a = Some b1 /\
         dict_get (PerName.funcs b1) name = p /\
         eval (PerName.has_func a name) w1 = Ok true /\
         is_Some (PerName.promise b1 !! name) /\
         resolved (PerName.signal name b1) = true /\
         forall k, PerName.wait a name k w1
                   = (Ok tt, PerName.set_jobs (PerName.jobs w1 ++ [k]) w1))) /\
  (forall (w : Single.world) a b,
      Single.heap w !! a = Some b -> ordinary (Single.funcs b) name ->
      Single.add_func a name p w =
        (Ok tt,
         {| Single.heap :=
              <[a := Single.with_funcs
                       {| own := <[name := Data p]> (own (Single.funcs b));
                          proto := proto (Single.funcs b) |} b]> (Single.heap w);
            Single.pysBridge := Single.pysBridge w;
            Single.jobs := Single.jobs w; Single.log := Single.log w |})).
Proof.
  split.
  - intros w a b Ha. split; [by apply PerName_add_func_not_function|].
    intros Hp Hord w1.
    destruct (PerName_add_func_ordinary w a b name p Ha Hp Hord) as (Hd & Hget & Hadd).
    assert (Hlt : a < length (PerName.heap w)) by (by eapply lookup_lt_Some).
    subst w1. unfold exec. rewrite Hadd. simpl.
    split; [unfold eval; by rewrite Hadd|]. split; [done|]. split; [done|].
    eexists. split; [by apply list_lookup_insert_eq|].
    split; [exact Hget|].
    assert (Hres : resolved (PerName.signal name
                     (PerName.set_promise name (settle (PerName.signal name b)).1
                        (PerName.with_funcs
                           {| own := <[name := Data p]> (own (PerName.funcs b));
                              proto := proto (PerName.funcs b) |} b))) = true).
    { rewrite signal_set_promise. rewrite decide_True by done. apply settle_fst_resolved. }
    split.
    { erewrite PerName_has_func_eval by (simpl; by apply list_lookup_insert_eq).
      simpl. rewrite Hget. by rewrite bool_decide_eq_true_2. }
    split; [simpl; rewrite lookup_insert_eq; eauto|].
    split; [exact Hres|].
    intros k. eapply PerName_wait_resolved; [|exact Hres].
    simpl. by apply list_lookup_insert_eq.
  - intros w a b Ha Hord.
    by rewrite (Single_add_func_exec _ _ _ _ _ Ha), dict_put_ordinary.
Qed.

End AddFunc.

Section PerNameDrain.
Context {H : host}.
Import PerName.

Lemma PerName_jobs_tick w t ts :
  jobs w = t :: ts ->
  jobs (tick w) = ts ++ match t with WaitDone k => [CallBody k] | CallBody _ => [] end.
Proof.
  intros Hj. unfold tick. rewrite Hj. destruct t as [k|k].
  - reflexivity.
  - rewrite app_nil_r. by destruct (PerName_run_body (set_jobs ts w) k) as [es ->].
Qed.

(** The queue runs dry: [drain] is [tick] repeated until no job is left. *)
Lemma PerName_drain_step w t ts : jobs w = t :: ts -> drain w = drain (tick w).
Proof.
  intros Hj. unfold drain.
  assert (Hw : total_weight (jobs w) = S (total_weight (jobs (tick w)))).
  { rewrite (PerName_jobs_tick _ _ _ Hj), Hj. unfold total_weight.
    rewrite sum_list_with_app. destruct t; simpl; lia. }
  rewrite Hw. simpl. by rewrite Hj.
Qed.

Lemma PerName_drain_idle w : jobs w = [] -> drain w = w.
Proof. intros Hj. unfold drain. by rewrite Hj. Qed.

Lemma PerName_jobs_drain w : jobs (drain w) = [].
Proof.
  unfold drain. remember (total_weight (jobs w)) as n eqn:Hn.
  assert (Hle : total_weight (jobs w) <= n) by lia. clear Hn.
  revert w Hle. induction n as [|n IH]; intros w Hle; simpl.
  - destruct (jobs w) as [|t ts]; [done|].
    unfold total_weight in Hle. simpl in Hle. destruct t; simpl in Hle; lia.
  - destruct (jobs w) as [|t ts] eqn:Hj; [done|]. apply IH.
    rewrite (PerName_jobs_tick _ _ _ Hj). unfold total_weight in *.
    rewrite sum_list_with_app. simpl in Hle. destruct t; simpl in *; lia.
Qed.

(** The body of a call that finds a callback: the callback is invoked and
    nothing else changes. *)
Lemma PerName_tick_CallBody w k ts b fn :
  jobs w = CallBody k :: ts ->
  heap w !! this k = Some b ->
  dict_get (funcs b) (name k) = VFunc fn ->
  tick w = {| heap := heap w; pysBridge := pysBridge w; jobs := ts;
              log := log w ++ [Invoked fn (args k)] |}.
Proof.
  intros Hj Hb Hf. unfold tick. rewrite Hj.
  unfold exec. rewrite (PerName_run_body_found (set_jobs ts w) k b Hb), Hf.
  rewrite decide_True by done.
  rewrite (PerName_call_stored_exec (set_jobs ts w) (this k) b (VFunc fn) (args k) Hb).
  simpl.
  rewrite PerName_with_funcs_id, list_insert_id by done. by rewrite app_nil_r.
Qed.

(** Released calls of [f] on [a], with a callback stored under [f]: each
    is invoked once with its own arguments, oldest first. *)
Lemma PerName_drain_released a f fn ks1 : forall ks2 w b,
  heap w !! a = Some b ->
  dict_get (funcs b) f = VFunc fn ->
  Forall (fun k => this k = a /\ name k = f) (ks2 ++ ks1) ->
  jobs w = (WaitDone <$> ks1) ++ (CallBody <$> ks2) ->
  drain w = {| heap := heap w; pysBridge := pysBridge w; jobs := [];
               log := log w ++ ((fun k => Invoked fn (args k)) <$> (ks2 ++ ks1)) |}.
Proof.
  induction ks1 as [|k ks1 IH].
  - intros ks2. induction ks2 as [|k ks2 IH2]; intros w b Hb Hf Hall Hj; simpl in Hj.
    + rewrite PerName_drain_idle by done. simpl. rewrite app_nil_r.
      destruct w; simpl in *; by subst.
    + rewrite (PerName_drain_step _ _ _ Hj).
      apply Forall_app in Hall as [Hall _].
      apply Forall_cons in Hall as [[Hthis Hname] Hall].
      rewrite (PerName_tick_CallBody w k _ b fn Hj); [|by rewrite Hthis|by rewrite Hname].
      erewrite IH2; simpl; eauto.
      * rewrite !app_nil_r. simpl. by rewrite <- app_assoc.
      * rewrite app_nil_r. done.
  - intros ks2 w b Hb Hf Hall Hj. simpl in Hj.
    rewrite (PerName_drain_step _ _ _ Hj).
    unfold tick. rewrite Hj. unfold exec. simpl.
    erewrite (IH (ks2 ++ [k])); simpl; eauto.
    + by rewrite <- app_assoc.
    + rewrite <- app_assoc. simpl.
      apply Forall_app in Hall as [H2 H1]. apply Forall_cons in H1 as [Hk H1].
      apply Forall_app. split; [done|]. by constructor.
    + rewrite fmap_app. simpl. by rewrite <- app_assoc.
Qed.

Lemma parked_frames a f (l : list task) :
  Forall (fun t => exists xs, t = WaitDone {| this := a; name := f; args := xs |}) l ->
  l = WaitDone <$> ((fun xs => {| this := a; name := f; args := xs |})
                      <$> ((fun t => match t with WaitDone k | CallBody k => args k end) <$> l)).
Proof.
  induction 1 as [|t l [xs ->] _ IH]; [done|]. simpl. f_equal. exact IH.
Qed.

Lemma invoked_frames a f fn (l : list (list value)) :
  (fun k => Invoked fn (args k))
    <$> ((fun xs => {| this := a; name := f; args := xs |}) <$> l)
  = Invoked fn <$> l.
Proof. induction l as [|xs l IH]; [done|]. simpl. f_equal. exact IH. Qed.

End PerNameDrain.

Section PerNameCallFunc.
Context {H : host}.
Import PerName.

Lemma PerName_call_func_wait w a b f xs :
  heap w !! a = Some b -> (promise b !! f = None -> plain f) ->
  call_func a f xs w = wait a f (WaitDone {| this := a; name := f; args := xs |}) w.
Proof.
  intros Ha Hplain. unfold call_func, rejecting.
  by rewrite (PerName_wait_exec _ _ _ _ _ Ha Hplain).
Qed.

Lemma PerName_call_func_parks w a b f xs :
  heap w !! a = Some b -> (promise b !! f = None -> plain f) ->
  resolved (signal f b) = false ->
  call_func a f xs w =
    (Ok tt,
     {| heap := <[a := set_promise f
                         {| resolved := false;
                            reactions := reactions (signal f b)
                                         ++ [WaitDone {| this := a; name := f; args := xs |}] |}
                         b]> (heap w);
        pysBridge := pysBridge w; jobs := jobs w; log := log w |}).
Proof.
  intros Ha Hplain Hres.
  rewrite (PerName_call_func_wait _ _ _ _ _ Ha Hplain).
  rewrite (PerName_wait_exec _ _ _ _ _ Ha Hplain).
  unfold await. rewrite Hres. simpl. by rewrite app_nil_r.
Qed.

(** A call of [f] while its signal is unresolved parks behind the calls
    that are pending on [f]. *)
Lemma PerName_call_func_parked w a b f xs :
  jobs w = [] -> heap w !! a = Some b -> plain f -> resolved (signal f b) = false ->
  let w1 := exec (call_func a f xs) w in
  eval (call_func a f xs) w = Ok tt /\
  log w1 = log w /\ jobs w1 = [] /\
  exists b1, heap w1 !! a = Some b1 /\
             funcs b1 = funcs b /\
             pending f b1 = pending f b ++ [xs] /\
             resolved (signal f b1) = false.
Proof.
  intros Hj Ha Hplain Hunres w1.
  pose proof (PerName_call_func_parks w a b f xs Ha (fun _ => Hplain) Hunres) as Hcall.
  assert (Hlt : a < length (heap w)) by (by eapply lookup_lt_Some).
  subst w1. unfold eval, exec. rewrite Hcall. simpl.
  split; [done|]. split; [done|]. split; [done|].
  eexists. split; [by apply list_lookup_insert_eq|]. split; [done|].
  unfold pending. rewrite signal_set_promise. case_decide; [|done]. simpl.
  by rewrite fmap_app.
Qed.





(** A call of a registered callback runs without waiting for anything. *)
Lemma PerName_call_registered w a b f xs fn :
  jobs w = [] -> heap w !! a = Some b -> bridge_ok a b ->
  ordinary (funcs b) f ->
  dict_get (funcs b) f = VFunc fn ->
  eval (call_func a f xs) w = Ok tt /\
  drain (exec (call_func a f xs) w) =
    {| heap := heap w; pysBridge := pysBridge w; jobs := [];
       log := log w ++ [Invoked fn xs] |}.
Proof.
  intros Hj Ha Hok Hord Hf.
  assert (Hres : resolved (signal f b) = true).
  { apply (Hok f); [done|]. rewrite <- dict_get_ordinary by done. by rewrite Hf. }
  pose proof (PerName_signal_resolved_Some _ _ Hres) as Hsome.
  pose proof (PerName_wait_resolved w a b f
                (WaitDone {| this := a; name := f; args := xs |}) Ha Hres) as Hcall.
  rewrite <- (PerName_call_func_wait _ _ _ _ xs Ha) in Hcall by (by rewrite Hsome).
  split; [unfold eval; by rewrite Hcall|].
  unfold exec. rewrite Hcall. simpl.
  rewrite (PerName_drain_released a f fn [ {| this := a; name := f; args := xs |} ] []
             _ b); simpl; eauto.
  by rewrite Hj.
Qed.

(** On a name the store answers itself, no function under the name means
    an unresolved signal. *)
Lemma PerName_unregistered_unresolved w a b f :
  heap w !! a = Some b -> bridge_ok a b -> ordinary (funcs b) f ->
  eval (has_func a f) w = Ok false -> resolved (signal f b) = false.
Proof.
  intros Ha Hok Hord. rewrite (PerName_has_func_eval _ _ _ _ Ha).
  intros [= Hhas]. apply bool_decide_eq_false in Hhas.
  destruct (resolved (signal f b)) eqn:E; [|done].
  exfalso. apply Hhas. rewrite dict_get_ordinary by done. by apply (Hok f).
Qed.

End PerNameCallFunc.

Section SingleCallFunc.
Context {H : host}.
Import Single.


Lemma Single_resolve_exec w a b :
  heap w !! a = Some b ->
  resolve a w =
    (Ok tt,
     {| heap := <[a := set_promise (settle (promise b)).1 b]> (heap w);
        pysBridge := pysBridge w;
        jobs := jobs w ++ (settle (promise b)).2; log := log w |}).
Proof.
  intros Ha. unfold resolve, bind. rewrite (Single_self_Some _ _ _ Ha).
  destruct (settle (promise b)) as [d ts]. unfold update, schedule, modify. simpl.
  by rewrite (alter_as_insert _ _ _ _ Ha).
Qed.

Lemma Single_drain_idle w : jobs w = [] -> drain w = w.
Proof. intros Hj. unfold drain. by rewrite Hj. Qed.

Lemma Single_with_funcs_id b : with_funcs (funcs b) b = b.
Proof. by destruct b. Qed.

(** A stored call inside the async [call_func]. *)
Lemma Single_call_stored_exec w a b callee xs :
  heap w !! a = Some b ->
  rejecting (call_stored a b callee xs) w =
    (Ok tt,
     {| heap := <[a := with_funcs (invoke_on (funcs b) callee xs).2 b]> (heap w);
        pysBridge := pysBridge w; jobs := jobs w;
        log := (log w ++ (invoke_on (funcs b) callee xs).1.1)
               ++ match (invoke_on (funcs b) callee xs).1.2 with
                  | Ok _ => []
                  | Throw e => [Rejected e]
                  end |}).
Proof.
  intros Ha. unfold rejecting, call_stored.
  destruct (invoke_on (funcs b) callee xs) as [[es o] d]. simpl.
  unfold update, emit. unfold_monad. simpl.
  rewrite (alter_as_insert _ _ _ _ Ha).
  destruct o as [[]|e]; simpl; [by rewrite app_nil_r|done].
Qed.

Lemma Single_run_body_found w k b :
  heap w !! this k = Some b ->
  run_task (CallBody k) w =
    if decide (typeof (dict_get (funcs b) (name k)) = "function")
    then rejecting (call_stored (this k) b (dict_get (funcs b) (name k)) (args k)) w
    else emit [Rejected (Error ("Function " +:+ name k +:+ " not function."))] w.
Proof.
  intros Hb. unfold run_task, rejecting, bind. rewrite (Single_self_Some _ _ _ Hb).
  by case_decide.
Qed.

(** The body of a call on an instance: a callback found under the name is
    invoked, and a value that is not a function rejects the call; nothing
    else changes. *)
Lemma Single_run_body w k b :
  heap w !! this k = Some b ->
  (forall fn, dict_get (funcs b) (name k) = VFunc fn ->
     exec (run_task (CallBody k)) w =
       {| heap := heap w; pysBridge := pysBridge w; jobs := jobs w;
          log := log w ++ [Invoked fn (args k)] |}) /\
  (typeof (dict_get (funcs b) (name k)) <> "function" ->
     exec (run_task (CallBody k)) w =
       {| heap := heap w; pysBridge := pysBridge w; jobs := jobs w;
          log := log w ++ [Rejected (Error ("Function " +:+ name k +:+ " not function."))] |}).
Proof.
  intros Hb. split.
  - intros fn Hf. unfold exec. rewrite (Single_run_body_found w k b Hb), Hf.
    rewrite decide_True by done.
    rewrite (Single_call_stored_exec w (this k) b (VFunc fn) (args k) Hb). simpl.
    rewrite Single_with_funcs_id, list_insert_id by done. by rewrite app_nil_r.
  - intros Hf. unfold exec. rewrite (Single_run_body_found w k b Hb).
    by rewrite decide_False.
Qed.

Lemma Single_run_body_jobs w k : jobs (exec (run_task (CallBody k)) w) = jobs w.
Proof.
  unfold exec. destruct (heap w !! this k) as [b|] eqn:E.
  - rewrite (Single_run_body_found w k b E). case_decide; [|done].
    by rewrite (Single_call_stored_exec w (this k) b _ _ E).
  - unfold run_task, rejecting, bind, self. by rewrite E.
Qed.

Lemma Single_jobs_tick w t ts :
  jobs w = t :: ts ->
  jobs (tick w) = ts ++ match t with WaitDone k => [CallBody k] | CallBody _ => [] end.
Proof.
  intros Hj. unfold tick. rewrite Hj. destruct t as [k|k].
  - reflexivity.
  - by rewrite app_nil_r, Single_run_body_jobs.
Qed.

Lemma Single_drain_step w t ts : jobs w = t :: ts -> drain w = drain (tick w).
Proof.
  intros Hj. unfold drain.
  assert (Hw : total_weight (jobs w) = S (total_weight (jobs (tick w)))).
  { rewrite (Single_jobs_tick _ _ _ Hj), Hj. unfold total_weight.
    rewrite sum_list_with_app. destruct t; simpl; lia. }
  rewrite Hw. simpl. by rewrite Hj.
Qed.

(** A single released call: [wait] returns, then the body runs. *)
Lemma Single_drain_one k w :
  jobs w = [WaitDone k] ->
  drain w = exec (run_task (CallBody k)) (set_jobs [] w).
Proof.
  intros Hj. rewrite (Single_drain_step _ _ _ Hj).
  assert (Ht : tick w = set_jobs [CallBody k] w).
  { unfold tick. rewrite Hj. reflexivity. }
  rewrite Ht. erewrite Single_drain_step by reflexivity.
  assert (Ht2 : tick (set_jobs [CallBody k] w)
                = exec (run_task (CallBody k)) (set_jobs [] w)) by reflexivity.
  rewrite Ht2. apply Single_drain_idle. by rewrite Single_run_body_jobs.
Qed.


End SingleCallFunc.


Section CallFunc.
Context {H : host}.


End CallFunc.

(** ** The flat API: [pys_call_func] *)

Section FlatCallFunc.
Context {H : host}.
Import Flat.

Lemma Flat_set_functions_id w : set_functions (pysFunctions w) w = w.
Proof. by destruct w. Qed.

(** The body of [pys_call_func] inside the async function: a callback
    found under the name is invoked, and a value that is not a function
    rejects the call; nothing else changes. *)
Lemma Flat_call_body_callback f xs fn w :
  dict_get (pysFunctions w) f = VFunc fn ->
  rejecting (call_body f xs) w = emit [Invoked fn xs] w.
Proof.
  intros Hf. unfold rejecting, call_body, call_stored. unfold_monad. simpl.
  rewrite Hf. simpl. by destruct w.
Qed.

Lemma Flat_call_body_not_function f xs w :
  typeof (dict_get (pysFunctions w) f) <> "function" ->
  rejecting (call_body f xs) w
  = emit [Rejected (Error ("Function " +:+ f +:+ " not function."))] w.
Proof.
  intros Hf. unfold rejecting, call_body. unfold_monad. simpl. by case_decide.
Qed.

(** What the body does when the value found is not a function of
    [Object.prototype]. *)
Lemma Flat_call_body_outcome f xs w :
  (forall k, dict_get (pysFunctions w) f <> VBuiltin k) ->
  rejecting (call_body f xs) w =
    emit [match dict_get (pysFunctions w) f with
          | VFunc fn => Invoked fn xs
          | _ => Rejected (Error ("Function " +:+ f +:+ " not function."))
          end] w.
Proof.
  intros Hb.
  destruct (decide (typeof (dict_get (pysFunctions w) f) = "function")) as [Hf|Hf].
  - apply typeof_function in Hf as [[fn Hfn]|[k Hk]]; [|by destruct (Hb k)].
    rewrite Hfn. by apply Flat_call_body_callback.
  - rewrite Flat_call_body_not_function by done.
    destruct (dict_get (pysFunctions w) f); try reflexivity; by destruct Hf.
Qed.

Lemma Flat_drain_idle w : jobs w = [] -> drain w = w.
Proof. intros Hj. unfold drain. by rewrite Hj. Qed.

Lemma Flat_jobs_tick w t ts :
  jobs w = t :: ts ->
  jobs (tick w) = ts ++ match t with WaitDone f xs => [CallBody f xs] | _ => [] end.
Proof.
  intros Hj. unfold tick. rewrite Hj. destruct t as [f xs|f xs|]; simpl.
  - reflexivity.
  - rewrite app_nil_r.
    exact (proj1 (proj2 (Flat_call_body_promises f xs (set_jobs ts w)))).
  - by rewrite app_nil_r.
Qed.

Lemma Flat_drain_step w t ts : jobs w = t :: ts -> drain w = drain (tick w).
Proof.
  intros Hj. unfold drain.
  assert (Hw : total_weight (jobs w) = S (total_weight (jobs (tick w)))).
  { rewrite (Flat_jobs_tick _ _ _ Hj), Hj. unfold total_weight.
    rewrite sum_list_with_app. destruct t; simpl; lia. }
  rewrite Hw. simpl. by rewrite Hj.
Qed.


Lemma Flat_pys_call_func_now f p xs w :
  (forall s, p = VStr s -> s = "") ->
  pys_call_func f p xs w = rejecting (call_body f xs) w.
Proof.
  intros Hp. unfold pys_call_func. destruct p; try reflexivity.
  case_decide as Hs; [|reflexivity]. destruct Hs. by apply Hp.
Qed.

Lemma Flat_pys_call_func_wait f p xs w :
  p <> "" -> pys_call_func f (VStr p) xs w = pys_wait p (WaitDone f xs) w.
Proof.
  intros Hp. unfold pys_call_func. rewrite decide_True by done.
  apply Flat_pys_wait_rejecting.
Qed.


End FlatCallFunc.

Section SingleResolve.
Import Single.

Lemma Single_resolve_resolved w a b :
  heap w !! a = Some b -> resolved (promise b) = true -> resolve a w = (Ok tt, w).
Proof.
  intros Ha Hres. rewrite (Single_resolve_exec _ _ _ Ha).
  rewrite (settle_resolved _ Hres). simpl.
  assert (Hb : set_promise (promise b) b = b) by (by destruct b).
  rewrite Hb, list_insert_id by done. rewrite app_nil_r. by destruct w.
Qed.

End SingleResolve.

(** X14. [resolve] of the single-signal class is idempotent: it never
    throws on an instance, it leaves the signal resolved, and a second
    [resolve] changes nothing at all, so the calls the first one released
    are not scheduled a second time. *)
Theorem Single_resolve_is_idempotent
    (w : Single.world) (a : nat) (b : Single.bridge) :
  Single.heap w !! a = Some b ->
  let w1 := exec (Single.resolve a) w in
  eval (Single.resolve a) w = Ok tt /\
  Single.jobs w1 = Single.jobs w ++ (if resolved (Single.promise b) then []
                                     else reactions (Single.promise b)) /\
  (exists b1, Single.heap w1 !! a = Some b1 /\
              Single.promise b1 = {| resolved := true;
                                     reactions := if resolved (Single.promise b)
                                                  then reactions (Single.promise b)
                                                  else [] |} /\
              Single.funcs b1 = Single.funcs b) /\
  Single.resolve a w1 = (Ok tt, w1).
Proof.
  intros Ha w1. subst w1. unfold eval, exec.
  rewrite (Single_resolve_exec _ _ _ Ha). simpl.
  assert (Hlt : a < length (Single.heap w)) by (by eapply lookup_lt_Some).
  split; [done|]. split.
  { unfold settle. by destruct (resolved (Single.promise b)). }
  split.
  { eexists. split; [by apply list_lookup_insert_eq|]. simpl. split; [|done].
    unfold settle. destruct (resolved (Single.promise b)) eqn:E; simpl; [|done].
    destruct (Single.promise b); simpl in *. by subst. }
  eapply Single_resolve_resolved.
  - simpl. by apply list_lookup_insert_eq.
  - simpl. apply settle_fst_resolved.
Qed.


(** ** More on the instance mapping of the per-name class *)

Section RegistryMore.
Context {H : host}.

Lemma PerName_has_pys_bridge_string s w :
  PerName.has_pys_bridge (VStr s) w =
    (Ok (bool_decide (typeof (registry_get (PerName.pysBridge w) (normalized s))
                      ≠ "undefined")), w).
Proof.
  unfold PerName.has_pys_bridge. rewrite PerName_get_uuid_ref_string. reflexivity.
Qed.

(** X2. [has_pys_bridge] of the per-name class never throws on a string id
    and changes nothing; it returns true exactly when [get_pys_bridge] of
    the id returns a value, and false exactly when [get_pys_bridge] throws
    "Bridge id <id> not found."; it is true after [create_pys_bridge] of
    the id; and the empty id and the default id get the same answer.  (For
    an id that is a member of [Object.prototype] the value [get_pys_bridge]
    returns is that member, and [has_pys_bridge] is true with nothing
    registered.) *)
Theorem has_pys_bridge_agrees_with_get (s : string) (w : PerName.world) :
  (exists r,
      PerName.has_pys_bridge (VStr s) w = (Ok r, w) /\
      (r = true <-> exists v, PerName.get_pys_bridge (VStr s) w = (Ok v, w)) /\
      (r = false <->
       PerName.get_pys_bridge (VStr s) w =
         (Throw (Error ("Bridge id " +:+ normalized s +:+ " not found.")), w))) /\
  eval (PerName.has_pys_bridge (VStr s)) (exec (PerName.create_pys_bridge (VStr s)) w)
    = Ok true /\
  PerName.has_pys_bridge (VStr "") w
    = PerName.has_pys_bridge (VStr PerName.pysBridgeGlobalName) w /\
  PerName.has_pys_bridge (VStr "constructor") PerName.init = (Ok true, PerName.init).
Proof.
  split; [|split; [|split]].
  - eexists. split; [apply PerName_has_pys_bridge_string|].
    rewrite PerName_get_pys_bridge_string.
    case_decide as Hu.
    + rewrite (bool_decide_eq_true_2 _ Hu). split; split; try done.
      by eexists.
    + rewrite (bool_decide_eq_false_2 _ (fun Hn => Hn Hu)). split; split; try done.
      by intros [v Hv].
  - unfold eval, exec. rewrite PerName_create_pys_bridge_string.
    case_decide as Hu; simpl.
    + rewrite PerName_has_pys_bridge_string. simpl.
      unfold PerName.constructed. simpl. by rewrite registry_get_put.
    + rewrite PerName_has_pys_bridge_string. simpl.
      by rewrite (bool_decide_eq_true_2 _ Hu).
  - by rewrite !PerName_has_pys_bridge_string.
  - reflexivity.
Qed.

(** X18. In the per-name class [create_pys_bridge] of a string id returns
    a value, [get_pys_bridge] of the id then returns that very value and
    changes nothing, and so does a second [create_pys_bridge]; the value is
    the new instance when the lookup of the id gave [undefined]; when
    [get_pys_bridge] of the id already returns a value, [create_pys_bridge]
    returns it and changes nothing; the empty id and the default id are
    treated alike.  On a fresh registry [create_pys_bridge("constructor")]
    returns the member of [Object.prototype] and constructs nothing. *)
Theorem create_then_get_same_instance (s : string) (w : PerName.world) :
  (exists v,
      let w1 := exec (PerName.create_pys_bridge (VStr s)) w in
      eval (PerName.create_pys_bridge (VStr s)) w = Ok v /\
      PerName.get_pys_bridge (VStr s) w1 = (Ok v, w1) /\
      PerName.create_pys_bridge (VStr s) w1 = (Ok v, w1) /\
      (typeof (registry_get (PerName.pysBridge w) (normalized s)) = "undefined" ->
       v = VInstance (length (PerName.heap w)) /\
       PerName.heap w1 = PerName.heap w ++ [PerName.new_bridge])) /\
  (forall v0, eval (PerName.get_pys_bridge (VStr s)) w = Ok v0 ->
              PerName.create_pys_bridge (VStr s) w = (Ok v0, w)) /\
  PerName.create_pys_bridge (VStr "") w
    = PerName.create_pys_bridge (VStr PerName.pysBridgeGlobalName) w /\
  PerName.create_pys_bridge (VStr "constructor") PerName.init
    = (Ok (VBuiltin "constructor"), PerName.init).
Proof.
  split; [|split; [|split]].
  - unfold eval, exec. rewrite PerName_create_pys_bridge_string.
    case_decide as Hu; simpl.
    + exists (VInstance (length (PerName.heap w))).
      assert (Hget : registry_get (PerName.pysBridge (PerName.constructed (normalized s) w))
                       (normalized s) = VInstance (length (PerName.heap w))).
      { unfold PerName.constructed. simpl. apply registry_get_put. }
      split; [done|].
      rewrite PerName_get_pys_bridge_string, PerName_create_pys_bridge_string, Hget.
      simpl. done.
    + eexists. split; [done|].
      rewrite PerName_get_pys_bridge_string, PerName_create_pys_bridge_string.
      split; [by case_decide|]. split; [by case_decide|]. done.
  - intros v0. unfold eval.
    rewrite PerName_get_pys_bridge_string, PerName_create_pys_bridge_string.
    case_decide as Hu; simpl; [|done].
    intros [= <-]. by case_decide.
  - by rewrite !PerName_create_pys_bridge_string.
  - reflexivity.
Qed.

End RegistryMore.

(** ** More on the state and ref stores *)

Lemma states_put_put s k e e' : states_put (states_put s k e) k e' = states_put s k e'.
Proof.
  unfold states_put.
  destruct (entries s !! k) as [e0|] eqn:E; simpl.
  - rewrite lookup_insert_eq. by rewrite insert_insert_eq.
  - destruct (decide (k = "__proto__")) as [Hk|Hk]; simpl.
    + by rewrite E.
    + rewrite lookup_insert_eq. by rewrite insert_insert_eq.
Qed.

Lemma states_get_put_ne s k e k' :
  k <> "__proto__" -> k' <> k -> states_get (states_put s k e) k' = states_get s k'.
Proof.
  intros Hk Hne. unfold states_put, states_get.
  destruct (entries s !! k) as [e0|] eqn:E; simpl.
  - by rewrite lookup_insert_ne.
  - rewrite decide_False by done. simpl. by rewrite lookup_insert_ne.
Qed.

Section StoresMore.
Context {H : host}.

Lemma PerName_state_eval w a b x :
  PerName.heap w !! a = Some b ->
  PerName.state a x w
  = if decide (typeof_lookup (states_get (PerName.states b) x) ≠ "undefined")
    then (field Getter (states_get (PerName.states b) x), w)
    else (Throw (Error ("State " +:+ x +:+ " not found.")), w).
Proof.
  intros Ha. unfold PerName.state, bind. rewrite (PerName_self_Some _ _ _ Ha).
  by case_decide.
Qed.

Lemma PerName_has_func_false w a b f :
  PerName.heap w !! a = Some b ->
  typeof (dict_get (PerName.funcs b) f) <> "function" ->
  eval (PerName.has_func a f) w = Ok false.
Proof.
  intros Ha Hf. rewrite (PerName_has_func_eval _ _ _ _ Ha).
  by rewrite (bool_decide_eq_false_2 _ Hf).
Qed.

(** X5. The instance [create_pys_bridge] makes for an id for which
    [has_pys_bridge] is false is new and has empty stores.  For a name [x]
    that is not a member of [Object.prototype]: [has_state], [has_ref] and
    [has_func] are false, [state] throws "State <x> not found.", [ref]
    throws "Var <x> not found.", and a [call_func] on it parks.  For a
    name that is a member of [Object.prototype]: [has_state] and [has_ref]
    are true, [has_func] is true unless the name is ["__proto__"], and a
    [call_func] does not park: its continuation is scheduled at once. *)
Theorem created_instance_is_empty (s x : string) (xs : list value) (w : PerName.world) :
  eval (PerName.has_pys_bridge (VStr s)) w = Ok false ->
  let a := length (PerName.heap w) in
  let w1 := exec (PerName.create_pys_bridge (VStr s)) w in
  eval (PerName.create_pys_bridge (VStr s)) w = Ok (VInstance a) /\
  PerName.heap w1 !! a = Some PerName.new_bridge /\
  (plain x ->
   eval (PerName.has_state a x) w1 = Ok false /\
   eval (PerName.has_ref a x) w1 = Ok false /\
   eval (PerName.has_func a x) w1 = Ok false /\
   eval (PerName.state a x) w1 = Throw (Error ("State " +:+ x +:+ " not found.")) /\
   eval (PerName.ref a x) w1 = Throw (Error ("Var " +:+ x +:+ " not found.")) /\
   PerName.jobs (exec (PerName.call_func a x xs) w1) = PerName.jobs w /\
   PerName.log (exec (PerName.call_func a x xs) w1) = PerName.log w) /\
  (inherited x ->
   eval (PerName.has_state a x) w1 = Ok true /\
   eval (PerName.has_ref a x) w1 = Ok true /\
   (x <> "__proto__" -> eval (PerName.has_func a x) w1 = Ok true) /\
   (x = "__proto__" -> eval (PerName.has_func a x) w1 = Ok false) /\
   PerName.call_func a x xs w1 =
     (Ok tt, PerName.set_jobs
               (PerName.jobs w ++ [PerName.WaitDone {| this := a; name := x; args := xs |}])
               w1)).
Proof.
  intros Hhas a w1.
  assert (Hu : typeof (registry_get (PerName.pysBridge w) (normalized s)) = "undefined").
  { unfold eval in Hhas. rewrite PerName_has_pys_bridge_string in Hhas. simpl in Hhas.
    destruct (decide (typeof (registry_get (PerName.pysBridge w) (normalized s))
                      = "undefined")) as [Hd|Hd]; [done|].
    by rewrite (bool_decide_eq_true_2 _ Hd) in Hhas. }
  assert (Hw1 : w1 = PerName.constructed (normalized s) w).
  { subst w1. unfold exec. rewrite PerName_create_pys_bridge_string.
    by rewrite decide_True. }
  assert (Ha : PerName.heap w1 !! a = Some PerName.new_bridge).
  { rewrite Hw1. unfold PerName.constructed. simpl.
    rewrite lookup_app_r by done. subst a. by rewrite Nat.sub_diag. }
  assert (Hjobs : PerName.jobs w1 = PerName.jobs w) by (by rewrite Hw1).
  assert (Hlog : PerName.log w1 = PerName.log w) by (by rewrite Hw1).
  split; [|split; [done|split]].
  - unfold eval. rewrite PerName_create_pys_bridge_string. by rewrite decide_True.
  - intros Hx.
    assert (Hget : object_get x = VUndefined) by (by apply object_get_plain).
    rewrite (PerName_has_state_eval _ _ _ _ Ha), (PerName_has_ref_eval _ _ _ _ Ha),
      (PerName_has_func_eval _ _ _ _ Ha), (PerName_ref_eval _ _ _ _ Ha).
    unfold eval. rewrite (PerName_state_eval _ _ _ _ Ha).
    unfold dict_get, states_get. simpl. rewrite !lookup_empty. simpl.
    rewrite Hget. simpl.
    repeat (split; [done|]).
    unfold exec.
    rewrite (PerName_call_func_parks _ _ PerName.new_bridge) by done.
    simpl. done.
  - intros Hx.
    assert (Hget : typeof (object_get x) <> "undefined") by (by apply object_get_inherited).
    rewrite (PerName_has_state_eval _ _ _ _ Ha), (PerName_has_ref_eval _ _ _ _ Ha),
      (PerName_has_func_eval _ _ _ _ Ha).
    unfold dict_get, states_get. simpl. rewrite !lookup_empty. simpl.
    rewrite (bool_decide_eq_true_2 _ Hget).
    split; [done|]. split; [done|]. split; [|split].
    + intros Hp. destruct Hx as [Hx|Hx]; [done|].
      unfold object_get, object_member. rewrite decide_False by done.
      by rewrite decide_True.
    + intros ->. reflexivity.
    + unfold PerName.call_func, PerName.rejecting.
      rewrite (PerName_wait_inherited _ _ PerName.new_bridge) by done.
      by rewrite Hjobs.
Qed.

(** X6. [add_state] then the readers, in the per-name class: after
    [add_state(x, g, st)], [has_state(x)] is true and [state(x)] returns
    [g], for every name [x]; when [x] is not ["__proto__"] every other name
    reads as before; the ref and function stores, the signals, the
    instance mapping, the job queue and the log are untouched; and a later
    [add_state] of [x] replaces the entry without a trace of the earlier
    one.  ([add_state("__proto__", ...)] replaces the prototype of the
    state store, so it changes how other names read.) *)
Theorem add_state_then_read
    (x : string) (g st : value) (w : PerName.world) (a : nat) (b : PerName.bridge) :
  PerName.heap w !! a = Some b ->
  let w1 := exec (PerName.add_state a x g st) w in
  eval (PerName.has_state a x) w1 = Ok true /\
  eval (PerName.state a x) w1 = Ok g /\
  (x <> "__proto__" ->
   forall y, y <> x ->
             eval (PerName.has_state a y) w1 = eval (PerName.has_state a y) w /\
             eval (PerName.state a y) w1 = eval (PerName.state a y) w) /\
  (exists b1, PerName.heap w1 !! a = Some b1 /\
              PerName.refs b1 = PerName.refs b /\ PerName.funcs b1 = PerName.funcs b /\
              PerName.promise b1 = PerName.promise b) /\
  (PerName.pysBridge w1 = PerName.pysBridge w /\ PerName.jobs w1 = PerName.jobs w /\
   PerName.log w1 = PerName.log w) /\
  (forall g' st',
      exec (PerName.add_state a x g' st') w1 = exec (PerName.add_state a x g' st') w) /\
  (x = "__proto__" -> PerName.states b = empty_states ->
   eval (PerName.has_state a "getter") w = Ok false /\
   (typeof g <> "undefined" -> eval (PerName.has_state a "getter") w1 = Ok true)).
Proof.
  intros Ha w1.
  assert (Hlt : a < length (PerName.heap w)) by (by eapply lookup_lt_Some).
  set (b1 := PerName.with_states (states_put (PerName.states b) x (mkState g st)) b).
  assert (Hw1 : w1 = {| PerName.heap := <[a := b1]> (PerName.heap w);
                        PerName.pysBridge := PerName.pysBridge w;
                        PerName.jobs := PerName.jobs w; PerName.log := PerName.log w |}).
  { subst w1. unfold exec. by rewrite (PerName_add_state_exec _ _ _ _ _ _ Ha). }
  assert (Hb1 : PerName.heap w1 !! a = Some b1).
  { rewrite Hw1. simpl. by apply list_lookup_insert_eq. }
  split; [|split; [|split; [|split; [|split; [|split]]]]].
  - rewrite (PerName_has_state_eval _ _ _ _ Hb1). subst b1. simpl.
    by rewrite states_get_put.
  - unfold eval. rewrite (PerName_state_eval _ _ _ _ Hb1). subst b1. simpl.
    by rewrite states_get_put.
  - intros Hx y Hy.
    rewrite (PerName_has_state_eval _ _ _ _ Hb1), (PerName_has_state_eval _ _ _ _ Ha).
    unfold eval. rewrite (PerName_state_eval _ _ _ _ Hb1), (PerName_state_eval _ _ _ _ Ha).
    subst b1. simpl. rewrite (states_get_put_ne _ _ _ _ Hx Hy).
    split; [done|]. by case_decide.
  - exists b1. by subst b1.
  - by rewrite Hw1.
  - intros g' st'. unfold exec at 1 2.
    rewrite (PerName_add_state_exec _ _ _ _ _ _ Hb1), (PerName_add_state_exec _ _ _ _ _ _ Ha).
    simpl. rewrite Hw1. simpl. rewrite list_insert_insert_eq.
    subst b1. unfold PerName.with_states. simpl. by rewrite states_put_put.
  - intros -> Hs.
    rewrite (PerName_has_state_eval _ _ _ _ Hb1), (PerName_has_state_eval _ _ _ _ Ha).
    subst b1. simpl. rewrite Hs. split; [done|].
    intros Hg. unfold states_put, states_get. simpl.
    by rewrite (bool_decide_eq_true_2 _ Hg).
Qed.

(** X16. The state store of the flat API: after
    [pys_register_state(x, g, setter)] with [setter] a function,
    [pys_get(x)] returns [g]; [pys_set(x, v)] invokes [setter] once with
    [v] and changes nothing else, so [pys_get(x)] still returns [g]; on a
    name whose lookup in the store gives [undefined] both throw
    "State <x> not found." and change nothing; and a later registration of
    [x] replaces the entry without a trace of the earlier one.  On the
    untouched store the lookup gives [undefined] exactly for the names
    that are not members of [Object.prototype]; [pys_get("constructor")]
    returns [undefined] without throwing. *)
Theorem flat_state_store (x : string) (g v : value) (setter : nat) (w : Flat.world) :
  let w1 := exec (Flat.pys_register_state x g (VFunc setter)) w in
  Flat.pys_get x w1 = (Ok g, w1) /\
  Flat.pys_set x v w1 = Flat.emit [Invoked setter [v]] w1 /\
  eval (Flat.pys_get x) (exec (Flat.pys_set x v) w1) = Ok g /\
  (typeof_lookup (states_get (Flat.pysStates w) x) = "undefined" ->
   Flat.pys_get x w = (Throw (Error ("State " +:+ x +:+ " not found.")), w) /\
   Flat.pys_set x v w = (Throw (Error ("State " +:+ x +:+ " not found.")), w)) /\
  (forall g' st', exec (Flat.pys_register_state x g' st') w1
                  = exec (Flat.pys_register_state x g' st') w) /\
  (typeof_lookup (states_get (Flat.pysStates Flat.init) x) = "undefined" <-> plain x) /\
  Flat.pys_get "constructor" Flat.init = (Ok VUndefined, Flat.init).
Proof.
  intros w1.
  assert (Hget : states_get (Flat.pysStates w1) x = Stored (mkState g (VFunc setter))).
  { subst w1. unfold exec, Flat.pys_register_state, modify. simpl.
    apply states_get_put. }
  split; [|split; [|split; [|split; [|split; [|split]]]]].
  - unfold Flat.pys_get. unfold_monad. by rewrite Hget.
  - unfold Flat.pys_set. unfold_monad. by rewrite Hget.
  - unfold eval, exec, Flat.pys_set, Flat.pys_get. unfold_monad. rewrite Hget. simpl.
    by rewrite states_get_put.
  - intros Hu. unfold Flat.pys_get, Flat.pys_set. unfold_monad.
    split; case_decide; done.
  - intros g' st'. subst w1. unfold exec, Flat.pys_register_state, modify. simpl.
    unfold Flat.set_states. simpl. by rewrite states_put_put.
  - unfold states_get. simpl. rewrite lookup_empty. simpl. apply object_get_undefined.
  - reflexivity.
Qed.

End StoresMore.

Section RefsMore.
Context {H : host}.

Lemma dict_put_settable strict d k v :
  settable d k ->
  dict_put strict d k v = Ok {| own := <[k := Data v]> (own d); proto := proto d |}.
Proof.
  intros (Hp & Hk & Hacc). unfold dict_put.
  destruct (own d !! k) as [[v0|g s]|] eqn:E; [done|by destruct (Hacc g s)|].
  rewrite Hp. simpl. by rewrite decide_False.
Qed.

Lemma settable_put d k v :
  settable d k -> settable {| own := <[k := Data v]> (own d); proto := proto d |} k.
Proof.
  intros (Hp & Hk & Hacc). split; [done|]. split; [done|].
  intros g s. simpl. by rewrite lookup_insert_eq.
Qed.

Lemma ordinary_settable d k : ordinary d k -> settable d k.
Proof.
  intros (Hp & Hk & Hacc). split; [done|]. split; [|done]. by apply plain_not_proto.
Qed.

Lemma dict_get_put_eq d k v p :
  dict_get {| own := <[k := Data v]> (own d); proto := p |} k = v.
Proof. unfold dict_get. simpl. by rewrite lookup_insert_eq. Qed.

Lemma dict_get_put_ne d k v k' :
  k' <> k ->
  dict_get {| own := <[k := Data v]> (own d); proto := proto d |} k' = dict_get d k'.
Proof. intros Hne. unfold dict_get. simpl. by rewrite lookup_insert_ne. Qed.

Lemma dict_put_put d k v v' :
  {| own := <[k := Data v']> (own {| own := <[k := Data v]> (own d); proto := proto d |});
     proto := proto d |}
  = {| own := <[k := Data v']> (own d); proto := proto d |}.
Proof. simpl. by rewrite insert_insert_eq. Qed.

Lemma PerName_has_ref_exec w a b x :
  PerName.heap w !! a = Some b ->
  PerName.has_ref a x w
  = (Ok (bool_decide (typeof (dict_get (PerName.refs b) x) ≠ "undefined")), w).
Proof.
  intros Ha. unfold PerName.has_ref, bind. by rewrite (PerName_self_Some _ _ _ Ha).
Qed.

Lemma PerName_ref_exec w a b x :
  PerName.heap w !! a = Some b ->
  PerName.ref a x w
  = if decide (typeof (dict_get (PerName.refs b) x) ≠ "undefined")
    then (Ok (dict_get (PerName.refs b) x), w)
    else (Throw (Error ("Var " +:+ x +:+ " not found.")), w).
Proof.
  intros Ha. unfold PerName.ref, bind. rewrite (PerName_self_Some _ _ _ Ha).
  by case_decide.
Qed.

Lemma typeof_defined v : v <> VUndefined -> typeof v <> "undefined".
Proof. intros Hv Ht. by apply Hv, typeof_undefined. Qed.

(** X8. [add_ref] then the readers, for a value other than [undefined] and
    a name [x] that an assignment defines on the ref store (the store has
    its original prototype, [x] is not ["__proto__"] and is not an
    accessor): after [add_ref(x, v)] the per-name class answers
    [has_ref(x)] with true and [ref(x)] with [v], every other name reads
    as before, and a later [add_ref] of [x] replaces the entry without a
    trace; [ref] of the single-signal class and [pys_ref] after
    [pys_register_ref] return [v] as well. *)
Theorem add_ref_then_read (x : string) (v : value) :
  v <> VUndefined ->
  (forall (w : PerName.world) a b,
      PerName.heap w !! a = Some b ->
      settable (PerName.refs b) x ->
      let w1 := exec (PerName.add_ref a x v) w in
      PerName.has_ref a x w1 = (Ok true, w1) /\
      PerName.ref a x w1 = (Ok v, w1) /\
      (forall y, y <> x ->
                 eval (PerName.has_ref a y) w1 = eval (PerName.has_ref a y) w /\
                 eval (PerName.ref a y) w1 = eval (PerName.ref a y) w) /\
      forall v', exec (PerName.add_ref a x v') w1 = exec (PerName.add_ref a x v') w) /\
  (forall (w : Single.world) a b,
      Single.heap w !! a = Some b ->
      settable (Single.refs b) x ->
      eval (Single.ref a x) (exec (Single.add_ref a x v) w) = Ok v) /\
  (forall w : Flat.world,
      settable (Flat.pysRefs w) x ->
      eval (Flat.pys_ref x) (exec (Flat.pys_register_ref x v) w) = Ok v /\
      forall y, y <> x ->
                eval (Flat.pys_ref y) (exec (Flat.pys_register_ref x v) w)
                = eval (Flat.pys_ref y) w).
Proof.
  intros Hv. pose proof (typeof_defined _ Hv) as Hty.
  split; [|split].
  - intros w a b Ha Hset w1.
    assert (Hlt : a < length (PerName.heap w)) by (by eapply lookup_lt_Some).
    set (d1 := {| own := <[x := Data v]> (own (PerName.refs b));
                  proto := proto (PerName.refs b) |}).
    assert (Hw1 : w1 = {| PerName.heap := <[a := PerName.with_refs d1 b]> (PerName.heap w);
                          PerName.pysBridge := PerName.pysBridge w;
                          PerName.jobs := PerName.jobs w; PerName.log := PerName.log w |}).
    { subst w1. unfold exec.
      by rewrite (PerName_add_ref_exec _ _ _ _ _ Ha), (dict_put_settable _ _ _ _ Hset). }
    assert (Hb1 : PerName.heap w1 !! a = Some (PerName.with_refs d1 b)).
    { rewrite Hw1. simpl. by apply list_lookup_insert_eq. }
    split; [|split; [|split]].
    + rewrite (PerName_has_ref_exec _ _ _ _ Hb1). simpl. subst d1.
      rewrite dict_get_put_eq. by rewrite (bool_decide_eq_true_2 _ Hty).
    + rewrite (PerName_ref_exec _ _ _ _ Hb1). simpl. subst d1.
      rewrite dict_get_put_eq. by rewrite decide_True.
    + intros y Hy.
      rewrite (PerName_has_ref_eval _ _ _ _ Hb1), (PerName_has_ref_eval _ _ _ _ Ha),
        (PerName_ref_eval _ _ _ _ Hb1), (PerName_ref_eval _ _ _ _ Ha).
      simpl. subst d1. by rewrite (dict_get_put_ne _ _ _ _ Hy).
    + intros v'. unfold exec at 1 2.
      rewrite (PerName_add_ref_exec _ _ _ _ _ Hb1), (PerName_add_ref_exec _ _ _ _ _ Ha).
      simpl. rewrite (dict_put_settable _ _ _ _ Hset).
      rewrite (dict_put_settable _ d1) by (by apply settable_put).
      simpl. rewrite Hw1. simpl. rewrite list_insert_insert_eq.
      subst d1. unfold PerName.with_refs. simpl. by rewrite insert_insert_eq.
  - intros w a b Ha Hset.
    assert (Hlt : a < length (Single.heap w)) by (by eapply lookup_lt_Some).
    unfold eval, exec, Single.add_ref, Single.ref, bind.
    rewrite (Single_self_Some _ _ _ Ha). unfold lift_result.
    rewrite (dict_put_settable _ _ _ _ Hset). unfold Single.update, modify. simpl.
    unfold Single.self. simpl.
    rewrite (alter_as_insert _ _ _ _ Ha), list_lookup_insert_eq by done. simpl.
    rewrite dict_get_put_eq. by rewrite decide_True.
  - intros w Hset.
    assert (Hreg : Flat.pys_register_ref x v w
                   = (Ok tt, Flat.set_refs {| own := <[x := Data v]> (own (Flat.pysRefs w));
                                              proto := proto (Flat.pysRefs w) |} w)).
    { unfold Flat.pys_register_ref. unfold_monad. simpl.
      by rewrite (dict_put_settable _ _ _ _ Hset). }
    unfold exec. rewrite Hreg. simpl. split.
    + unfold eval, Flat.pys_ref. unfold_monad. simpl.
      rewrite dict_get_put_eq. by rewrite decide_True.
    + intros y Hy. unfold eval, Flat.pys_ref. unfold_monad. simpl.
      rewrite (dict_get_put_ne _ _ _ _ Hy). by case_decide.
Qed.

(** X19. What [add_ref("__proto__", v)] does on a ref store that has its
    original prototype and no own property ["__proto__"]: it returns
    normally; a primitive [v] is dropped, so the world is as it was and
    [ref("__proto__")] returns [Object.prototype]; an object, a function
    or [null] becomes the prototype of the ref store while its own
    properties stay; and after [add_ref("__proto__", null)] every name
    that is not an own property reads as absent, ["toString"] included,
    which read as present before. *)
Theorem add_ref_proto_sets_the_prototype
    (v : value) (w : PerName.world) (a : nat) (b : PerName.bridge) :
  PerName.heap w !! a = Some b ->
  proto (PerName.refs b) = VObjectPrototype ->
  own (PerName.refs b) !! "__proto__" = None ->
  let w1 := exec (PerName.add_ref a "__proto__" v) w in
  eval (PerName.add_ref a "__proto__" v) w = Ok tt /\
  (typeof v <> "object" -> typeof v <> "function" ->
   w1 = w /\ eval (PerName.ref a "__proto__") w1 = Ok VObjectPrototype) /\
  (typeof v = "object" \/ typeof v = "function" ->
   PerName.heap w1 !! a
   = Some (PerName.with_refs {| own := own (PerName.refs b); proto := v |} b)) /\
  (v = VNull ->
   forall y, own (PerName.refs b) !! y = None ->
             eval (PerName.has_ref a y) w1 = Ok false /\
             (y = "toString" -> eval (PerName.has_ref a y) w = Ok true)).
Proof.
  intros Ha Hp Hn w1.
  assert (Hlt : a < length (PerName.heap w)) by (by eapply lookup_lt_Some).
  assert (Hput : dict_put true (PerName.refs b) "__proto__" v
                 = if decide (typeof v = "object" \/ typeof v = "function")
                   then Ok {| own := own (PerName.refs b); proto := v |}
                   else Ok (PerName.refs b)).
  { unfold dict_put. rewrite Hn, Hp. reflexivity. }
  assert (Hobj : typeof v = "object" \/ typeof v = "function" ->
                 PerName.heap w1 !! a
                 = Some (PerName.with_refs {| own := own (PerName.refs b); proto := v |} b)).
  { intros Hv. subst w1. unfold exec.
    rewrite (PerName_add_ref_exec _ _ _ _ _ Ha), Hput, decide_True by done. simpl.
    by apply list_lookup_insert_eq. }
  split; [|split; [|split]].
  - unfold eval. rewrite (PerName_add_ref_exec _ _ _ _ _ Ha), Hput. by case_decide.
  - intros Ho Hf.
    assert (Hw1 : w1 = w).
    { subst w1. unfold exec.
      rewrite (PerName_add_ref_exec _ _ _ _ _ Ha), Hput, decide_False by tauto. simpl.
      rewrite PerName_with_refs_id, list_insert_id by done. by destruct w. }
    split; [done|]. rewrite Hw1, (PerName_ref_eval _ _ _ _ Ha).
    unfold dict_get. rewrite Hn, Hp. reflexivity.
  - exact Hobj.
  - intros -> y Hy.
    rewrite (PerName_has_ref_eval _ _ _ _ (Hobj (or_introl eq_refl))),
      (PerName_has_ref_eval _ _ _ _ Ha).
    unfold dict_get. simpl. rewrite Hy, Hp. simpl. split; [done|]. by intros ->.
Qed.

End RefsMore.

(** ** More on the function store of the per-name class *)

Section FuncsMore.
Context {H : host}.
Import PerName.





(** The effect of [add_func] of a callback on a name the function store
    answers itself. *)
Lemma PerName_add_func_effect w a b f fn :
  heap w !! a = Some b -> ordinary (funcs b) f ->
  let w' := exec (add_func a f (VFunc fn)) w in
  exists b',
    heap w' !! a = Some b' /\
    jobs w' = jobs w ++ (settle (signal f b)).2 /\
    log w' = log w /\
    ordinary (funcs b') f /\
    dict_get (funcs b') f = VFunc fn /\
    signal f b' = (settle (signal f b)).1.
Proof.
  intros Ha Hord w'.
  assert (Hlt : a < length (heap w)) by (by eapply lookup_lt_Some).
  destruct (PerName_add_func_ordinary w a b f (VFunc fn) Ha eq_refl Hord)
    as (Hd & Hget & Hadd).
  subst w'. unfold exec. rewrite Hadd. simpl.
  eexists. split; [by apply list_lookup_insert_eq|].
  split; [done|]. split; [done|]. split; [exact Hd|]. split; [exact Hget|].
  rewrite signal_set_promise. by rewrite decide_True.
Qed.


(** X10. In every world the per-name class can reach, on every instance:
    for a name the function store answers itself, [has_func(f)] is true
    exactly when the signal of [f] is resolved, and then no call is parked
    on [f]; a signal is stored under no name that is a member of
    [Object.prototype]; and nothing is parked on a resolved signal. *)
Theorem registration_is_readiness
    (f : string) (w : PerName.world) (a : nat) (b : PerName.bridge) :
  PerName.reachable w -> PerName.heap w !! a = Some b ->
  (ordinary (PerName.funcs b) f ->
   (eval (PerName.has_func a f) w = Ok true <-> resolved (PerName.signal f b) = true) /\
   (eval (PerName.has_func a f) w = Ok true -> PerName.pending f b = [])) /\
  (inherited f -> PerName.promise b !! f = None) /\
  (resolved (PerName.signal f b) = true -> PerName.pending f b = []).
Proof.
  intros Hreach Ha.
  destruct (reachable_invariant w Hreach) as [_ Hbr].
  destruct (Hbr a b Ha f) as (Hgate & _ & Hkey & Hset).
  assert (Hpend : resolved (signal f b) = true -> pending f b = []).
  { intros Hres. unfold pending. by rewrite (Hset Hres). }
  split; [|split; [|exact Hpend]].
  - intros Hord. rewrite (PerName_has_func_eval _ _ _ _ Ha), dict_get_ordinary by done.
    assert (Hiff : Ok (bool_decide (typeof (own_data (funcs b) f) = "function"))
                   = Ok true <-> resolved (signal f b) = true).
    { rewrite (Hgate Hord). split.
      - intros [= Hb]. by apply bool_decide_eq_true in Hb.
      - intros Hb. f_equal. by apply bool_decide_eq_true. }
    split; [exact Hiff|]. intros Hh. apply Hpend. by apply Hiff.
  - intros Hinh. destruct (promise b !! f) eqn:E; [|done].
    destruct (Hkey (ltac:(eauto))). done.
Qed.

(** X11. The function a released call invokes is the one stored when the
    call resumes, not the one whose [add_func] released it.  On a reachable
    world with an empty job queue and a name [f] the function store
    answers itself: after [call_func(f, xs)] on the unregistered [f],
    [add_func(f, fn1)] and [add_func(f, fn2)] before any job runs, the
    calls pending on [f] all invoke [fn2], and [fn1] is never invoked for
    them; later calls of [f] invoke [fn2] as well. *)
Theorem latest_function_is_the_one_called
    (f : string) (xs : list value) (fn1 fn2 : nat)
    (w : PerName.world) (a : nat) (b : PerName.bridge) :
  PerName.reachable w -> PerName.jobs w = [] -> PerName.heap w !! a = Some b ->
  ordinary (PerName.funcs b) f ->
  eval (PerName.has_func a f) w = Ok false ->
  let w3 := exec (PerName.add_func a f (VFunc fn2))
              (exec (PerName.add_func a f (VFunc fn1))
                 (exec (PerName.call_func a f xs) w)) in
  PerName.log (PerName.drain w3)
    = PerName.log w ++ (Invoked fn2 <$> PerName.pending f b) ++ [Invoked fn2 xs] /\
  PerName.jobs (PerName.drain w3) = [] /\
  forall ys,
    PerName.log (PerName.drain (exec (PerName.call_func a f ys) (PerName.drain w3)))
      = PerName.log (PerName.drain w3) ++ [Invoked fn2 ys].
Proof.
  intros Hreach Hj Ha Hord Hhas w3.
  destruct (reachable_invariant w Hreach) as [_ Hbr]. specialize (Hbr a b Ha).
  pose proof (PerName_unregistered_unresolved w a b f Ha Hbr Hord Hhas) as Hunres.
  destruct Hord as (Hp & Hplain & Hacc).
  destruct (PerName_call_func_parked w a b f xs Hj Ha Hplain Hunres)
    as (_ & Hlog1 & Hjobs1 & b1 & Hb1 & Hf1 & Hpend1 & Hun1).
  set (w1 := exec (call_func a f xs) w) in *.
  assert (Hreach1 : reachable w1) by exact (reachable_step w (CallFunc a f xs) Hreach I).
  destruct (reachable_invariant w1 Hreach1) as [_ Hbr1].
  pose proof (Hbr1 a b1 Hb1) as Hok1.
  assert (Hord1 : ordinary (funcs b1) f) by (by rewrite Hf1).
  destruct (PerName_add_func_effect w1 a b1 f fn1 Hb1 Hord1)
    as (b2 & Hb2 & Hjobs2 & Hlog2 & Hord2 & _ & Hsig2).
  set (w2 := exec (add_func a f (VFunc fn1)) w1) in *.
  unfold settle in Hjobs2, Hsig2. rewrite Hun1 in Hjobs2, Hsig2. simpl in Hjobs2, Hsig2.
  rewrite Hjobs1 in Hjobs2. simpl in Hjobs2.
  destruct (PerName_add_func_effect w2 a b2 f fn2 Hb2 Hord2)
    as (b3 & Hb3 & Hjobs3 & Hlog3 & Hord3 & Hf3 & _).
  fold w3 in Hb3, Hjobs3, Hlog3.
  assert (Hreach3 : reachable w3).
  { exact (reachable_step _ (AddFunc a f (VFunc fn2))
             (reachable_step _ (AddFunc a f (VFunc fn1)) Hreach1 I) I). }
  destruct (reachable_invariant w3 Hreach3) as [_ Hbr3].
  pose proof (Hbr3 a b3 Hb3) as Hok3.
  rewrite Hsig2 in Hjobs3. unfold settle in Hjobs3. simpl in Hjobs3.
  rewrite app_nil_r, Hjobs2 in Hjobs3.
  destruct (Hok1 f) as (_ & Hparked1 & _ & _).
  rewrite (parked_frames a f _ Hparked1) in Hjobs3.
  fold (pending f b1) in Hjobs3.
  set (ks := (fun ys => {| this := a; name := f; args := ys |}) <$> pending f b1) in *.
  assert (Hall : Forall (fun k0 => this k0 = a /\ name k0 = f) ([] ++ ks)).
  { unfold ks. simpl. apply Forall_fmap. by apply Forall_true. }
  assert (Hj3 : jobs w3 = (WaitDone <$> ks) ++ (CallBody <$> []))
    by (by rewrite app_nil_r).
  pose proof (PerName_drain_released a f fn2 ks [] w3 b3 Hb3 Hf3 Hall Hj3) as Hdrain.
  simpl in Hdrain. rewrite Hdrain. simpl.
  split.
  { unfold ks. rewrite invoked_frames, Hpend1, fmap_app. simpl.
    by rewrite Hlog3, Hlog2, Hlog1. }
  split; [done|].
  intros ys.
  destruct (PerName_call_registered
              {| heap := heap w3; pysBridge := pysBridge w3; jobs := [];
                 log := log w3 ++ ((fun k => Invoked fn2 (args k)) <$> ks) |}
              a b3 f ys fn2 eq_refl Hb3 Hok3 Hord3 Hf3) as [_ Hcall].
  rewrite Hcall. reflexivity.
Qed.

End FuncsMore.

(** ** More on [call_func] of the single-signal class *)

Section SingleMore.
Context {H : host}.
Import Single.

Lemma Single_call_func_resolved w a b f xs :
  heap w !! a = Some b -> resolved (promise b) = true ->
  call_func a f xs w
  = (Ok tt, set_jobs (jobs w ++ [WaitDone {| this := a; name := f; args := xs |}]) w).
Proof.
  intros Ha Hres. unfold call_func, rejecting, wait, bind.
  rewrite (Single_self_Some _ _ _ Ha), (await_resolved _ _ Hres).
  unfold update, schedule, modify. simpl.
  rewrite (alter_as_insert _ _ _ _ Ha).
  assert (Hb : set_promise (promise b) b = b) by (by destruct b).
  rewrite Hb, list_insert_id by done. reflexivity.
Qed.

End SingleMore.

(** X13. In the single-signal class, on an instance whose signal is
    resolved and with an empty job queue, [call_func(f, xs)] returns
    normally and runs without waiting for anything.  When what the
    function store answers for [f] is not a function of
    [Object.prototype], it invokes the callback found with [xs], and when
    what is found is not a function (or nothing is found) the promise it
    returned is rejected with "Function <f> not function."; nothing else
    changes. *)
Theorem Single_call_func_on_resolved_instance
    {H : host} (f : string) (xs : list value) (w : Single.world) (a : nat)
    (b : Single.bridge) :
  Single.jobs w = [] -> Single.heap w !! a = Some b ->
  resolved (Single.promise b) = true ->
  (forall k, dict_get (Single.funcs b) f <> VBuiltin k) ->
  eval (Single.call_func a f xs) w = Ok tt /\
  Single.drain (exec (Single.call_func a f xs) w) =
    {| Single.heap := Single.heap w; Single.pysBridge := Single.pysBridge w;
       Single.jobs := []; Single.log := Single.log w ++ [single_outcome b f xs] |}.
Proof.
  intros Hj Ha Hres Hnb.
  pose proof (Single_call_func_resolved w a b f xs Ha Hres) as Hcall.
  split; [unfold eval; by rewrite Hcall|].
  unfold exec. rewrite Hcall. simpl. rewrite Hj. simpl.
  set (k := {| this := a; name := f; args := xs |}).
  erewrite (Single_drain_one k) by reflexivity.
  destruct (Single_run_body (Single.set_jobs [] (Single.set_jobs [Single.WaitDone k] w))
              k b Ha) as [Hfun Hnot].
  unfold single_outcome.
  destruct (decide (typeof (dict_get (Single.funcs b) f) = "function")) as [Hf|Hf].
  - apply typeof_function in Hf as [[fn Hfn]|[k' Hk]]; [|by destruct (Hnb k')].
    rewrite (Hfun fn Hfn), Hfn. reflexivity.
  - rewrite (Hnot Hf). simpl.
    destruct (dict_get (Single.funcs b) f); try reflexivity; by destruct Hf.
Qed.

(** ** More on the flat API *)

Section FlatMore.
Context {H : host}.
Import Flat.

Lemma flat_outcome_functions w w' call :
  pysFunctions w' = pysFunctions w -> flat_outcome w' call = flat_outcome w call.
Proof. intros Hf. unfold flat_outcome. by rewrite Hf. Qed.

(** Calls released from one signal run oldest first, each on what the
    function store answers for its own name. *)
Lemma Flat_drain_released w0 cs1 : forall cs2 w,
  pysFunctions w = pysFunctions w0 ->
  Forall (fun c => forall k, dict_get (pysFunctions w0) c.1 <> VBuiltin k) (cs2 ++ cs1) ->
  jobs w = (parked_call <$> cs1) ++ (resumed_call <$> cs2) ->
  log (drain w) = log w ++ (flat_outcome w0 <$> (cs2 ++ cs1)) /\ jobs (drain w) = [].
Proof.
  induction cs1 as [|c cs1 IH].
  - intros cs2. induction cs2 as [|c cs2 IH2]; intros w Hfs Hnb Hj; simpl in Hj.
    + rewrite Flat_drain_idle by done. simpl. by rewrite app_nil_r.
    + rewrite (Flat_drain_step _ _ _ Hj).
      apply Forall_app in Hnb as [Hnb2 _]. apply Forall_cons in Hnb2 as [Hc Hnb2].
      assert (Ht : tick w = exec (emit [flat_outcome w0 c])
                              (set_jobs (resumed_call <$> cs2) w)).
      { unfold tick. rewrite Hj. unfold run_task, resumed_call at 1. simpl.
        unfold exec. rewrite Flat_call_body_outcome by (simpl; by rewrite Hfs).
        unfold flat_outcome. simpl. by rewrite Hfs. }
      destruct (IH2 (tick w)) as [Hlog Hjobs].
      { by rewrite Ht. }
      { apply Forall_app. split; [done|constructor]. }
      { by rewrite Ht. }
      split; [|exact Hjobs]. rewrite Hlog, Ht. simpl.
      rewrite !app_nil_r, <- app_assoc. reflexivity.
  - intros cs2 w Hfs Hnb Hj. simpl in Hj. rewrite (Flat_drain_step _ _ _ Hj).
    assert (Ht : tick w = set_jobs ((parked_call <$> cs1)
                                    ++ (resumed_call <$> (cs2 ++ [c]))) w).
    { unfold tick. rewrite Hj. unfold exec. simpl.
      unfold set_jobs. simpl. by rewrite fmap_app, <- app_assoc. }
    destruct (IH (cs2 ++ [c]) (tick w)) as [Hlog Hjobs].
    { by rewrite Ht. }
    { rewrite <- app_assoc. exact Hnb. }
    { by rewrite Ht. }
    split; [|exact Hjobs]. rewrite Hlog, Ht. simpl. by rewrite <- app_assoc.
Qed.

(** Parking a list of calls on the unresolved signal [p]. *)
Lemma Flat_park_all p calls : forall w,
  p <> "" -> plain p -> resolved (signal p w) = false ->
  let w1 := perform_all (flat_call p <$> calls) w in
  log w1 = log w /\ jobs w1 = jobs w /\ pysFunctions w1 = pysFunctions w /\
  signal p w1 = {| resolved := false;
                   reactions := reactions (signal p w) ++ (parked_call <$> calls) |}.
Proof.
  induction calls as [|c calls IH]; intros w Hp Hplain Hun w1.
  - subst w1. simpl. rewrite app_nil_r. repeat (split; [done|]).
    destruct (signal p w); simpl in *. by subst.
  - subst w1.
    set (w0 := exec (pys_call_func c.1 (VStr p) c.2) w).
    change (perform_all (flat_call p <$> c :: calls) w)
      with (perform_all (flat_call p <$> calls) w0).
    assert (Hw0 : w0 = {| pysPromises :=
                            <[p := {| resolved := false;
                                      reactions := reactions (signal p w)
                                                   ++ [parked_call c] |}]> (pysPromises w);
                          pysStates := pysStates w; pysRefs := pysRefs w;
                          pysFunctions := pysFunctions w;
                          jobs := jobs w; log := log w |}).
    { subst w0. unfold exec. rewrite (Flat_pys_call_func_wait _ _ _ _ Hp).
      rewrite Flat_pys_wait_exec by done. unfold await. rewrite Hun. simpl.
      by rewrite app_nil_r. }
    assert (Hs0 : signal p w0 = {| resolved := false;
                                  reactions := reactions (signal p w) ++ [parked_call c] |}).
    { rewrite Hw0. unfold signal at 1. simpl. by rewrite lookup_insert_eq. }
    destruct (IH w0 Hp Hplain) as (Hlog & Hjobs & Hfun & Hsig); [by rewrite Hs0|].
    rewrite Hlog, Hjobs, Hfun, Hsig, Hs0, Hw0. simpl.
    repeat (split; [done|]). by rewrite <- app_assoc.
Qed.

(** X15. In the flat API one signal can gate calls of many functions.  Let
    [p] be a non-empty signal name that is not a member of
    [Object.prototype], unresolved and with nothing waiting on it, the job
    queue be empty, and no call name be answered by a function of
    [Object.prototype].  Then calls [pys_call_func(name, p, ...args)] all
    park (nothing is invoked or rejected), and a [pys_resolve(p)] that
    follows them releases them all, oldest first, each invoking the
    function stored under its own name, or rejecting with
    "Function <name> not function." when that is not a function. *)
Theorem one_signal_gates_many_functions
    (p : string) (calls : list (string * list value)) (w : Flat.world) :
  p <> "" -> plain p -> Flat.jobs w = [] ->
  resolved (Flat.signal p w) = false -> reactions (Flat.signal p w) = [] ->
  Forall (fun c => forall k, dict_get (Flat.pysFunctions w) c.1 <> VBuiltin k) calls ->
  let w1 := Flat.perform_all (flat_call p <$> calls) w in
  Flat.log w1 = Flat.log w /\ Flat.jobs w1 = [] /\
  Flat.log (Flat.drain (exec (Flat.pys_resolve p) w1))
    = Flat.log w ++ (flat_outcome w <$> calls) /\
  Flat.jobs (Flat.drain (exec (Flat.pys_resolve p) w1)) = [].
Proof.
  intros Hp Hplain Hj Hun Hnone Hnb w1.
  destruct (Flat_park_all p calls w Hp Hplain Hun) as (Hlog & Hjobs & Hfun & Hsig).
  fold w1 in Hlog, Hjobs, Hfun, Hsig. rewrite Hnone in Hsig. simpl in Hsig.
  split; [done|]. split; [by rewrite Hjobs|].
  set (w2 := exec (pys_resolve p) w1).
  assert (Hw2 : jobs w2 = (parked_call <$> calls) ++ (resumed_call <$> [])
                /\ log w2 = log w /\ pysFunctions w2 = pysFunctions w).
  { subst w2. unfold exec. rewrite Flat_pys_resolve_exec by done.
    rewrite Hsig. unfold settle. simpl.
    rewrite Hjobs, Hj, app_nil_r. done. }
  destruct Hw2 as (Hj2 & Hl2 & Hf2).
  destruct (Flat_drain_released w calls [] w2 Hf2 Hnb Hj2) as [Hd Hdj].
  split; [|exact Hdj]. by rewrite Hd, Hl2.
Qed.

Lemma Flat_pys_func_settable f v w :
  settable (pysFunctions w) f ->
  pys_func f v w
  = (Ok tt, set_functions {| own := <[f := Data v]> (own (pysFunctions w));
                             proto := proto (pysFunctions w) |} w).
Proof.
  intros Hset. unfold pys_func. unfold_monad. simpl.
  by rewrite (dict_put_settable _ _ _ _ Hset).
Qed.

(** X17. [pys_func] checks nothing.  For a name [f] that an assignment
    defines on the function store (the store has its original prototype,
    [f] is not ["__proto__"] and is not an accessor), it stores any value
    and does not throw; a [pys_call_func] without a signal name then
    invokes the stored value at once when it is a callback and rejects with
    "Function <f> not function." when it is not a function; other names
    read as before; and a later [pys_func] of the same name replaces the
    entry, so calls invoke the function registered last. *)
Theorem pys_func_stores_any_value (f : string) (v : value) (xs : list value)
    (w : Flat.world) :
  settable (Flat.pysFunctions w) f ->
  let w1 := exec (Flat.pys_func f v) w in
  eval (Flat.pys_func f v) w = Ok tt /\
  dict_get (Flat.pysFunctions w1) f = v /\
  ((forall k, v <> VBuiltin k) ->
   Flat.pys_call_func f VUndefined xs w1
   = Flat.emit [match v with
                | VFunc fn => Invoked fn xs
                | _ => Rejected (Error ("Function " +:+ f +:+ " not function."))
                end] w1) /\
  (forall g, g <> f ->
             dict_get (Flat.pysFunctions w1) g = dict_get (Flat.pysFunctions w) g) /\
  (forall v', exec (Flat.pys_func f v') w1 = exec (Flat.pys_func f v') w).
Proof.
  intros Hset w1.
  pose proof (Flat_pys_func_settable f v w Hset) as Hreg.
  assert (Hw1 : w1 = set_functions {| own := <[f := Data v]> (own (pysFunctions w));
                                      proto := proto (pysFunctions w) |} w).
  { subst w1. unfold exec. by rewrite Hreg. }
  assert (Hget : dict_get (pysFunctions w1) f = v).
  { rewrite Hw1. simpl. apply dict_get_put_eq. }
  split; [unfold eval; by rewrite Hreg|]. split; [exact Hget|]. split; [|split].
  - intros Hnb. rewrite Flat_pys_call_func_now by done.
    rewrite Flat_call_body_outcome by (by rewrite Hget). by rewrite Hget.
  - intros g Hg. rewrite Hw1. simpl. by apply dict_get_put_ne.
  - intros v'. unfold exec at 1 2.
    rewrite (Flat_pys_func_settable f v' w Hset).
    rewrite (Flat_pys_func_settable f v' w1)
      by (rewrite Hw1; simpl; by apply settable_put).
    rewrite Hw1. unfold set_functions. simpl. by rewrite insert_insert_eq.
Qed.

End FlatMore.

(** ** Names that are members of [Object.prototype] *)

Section InheritedNames.
Context {H : host}.

(** X20. A name that is a member of [Object.prototype] is taken for a
    signal that exists, in the per-name class and in the flat API, as long
    as no signal is stored under it (which is so in every reachable world
    of the per-name class): [call_func] and [pys_wait] do not park, their
    continuation is scheduled at once; [#resolve] and [pys_resolve] throw
    a TypeError and change nothing; [pys_promise] creates nothing; and
    [add_func] of a function makes its assignment and then throws the
    TypeError of [#resolve]. *)
Theorem inherited_name_is_taken_for_a_signal (f : string) (xs : list value) :
  inherited f ->
  (forall (w : PerName.world) a b,
      PerName.heap w !! a = Some b -> PerName.promise b !! f = None ->
      PerName.call_func a f xs w =
        (Ok tt, PerName.set_jobs
                  (PerName.jobs w
                   ++ [PerName.WaitDone {| this := a; name := f; args := xs |}]) w) /\
      (exists msg, PerName.resolve a f w = (Throw (TypeError msg), w)) /\
      (forall v d,
          typeof v = "function" -> dict_put true (PerName.funcs b) f v = Ok d ->
          exists msg,
            PerName.add_func a f v w =
              (Throw (TypeError msg),
               {| PerName.heap := <[a := PerName.with_funcs d b]> (PerName.heap w);
                  PerName.pysBridge := PerName.pysBridge w;
                  PerName.jobs := PerName.jobs w; PerName.log := PerName.log w |}))) /\
  (forall (w : PerName.world) a b,
      PerName.reachable w -> PerName.heap w !! a = Some b ->
      PerName.promise b !! f = None) /\
  (forall w : Flat.world,
      Flat.pysPromises w !! f = None ->
      Flat.pys_promise f w = (Ok tt, w) /\
      (exists msg, Flat.pys_resolve f w = (Throw (TypeError msg), w)) /\
      (forall k, Flat.pys_wait f k w = (Ok tt, Flat.set_jobs (Flat.jobs w ++ [k]) w))).
Proof.
  intros Hinh. split; [|split].
  - intros w a b Ha Hnone. split; [|split].
    + unfold PerName.call_func, PerName.rejecting.
      by rewrite (PerName_wait_inherited _ _ _ _ _ Ha Hnone Hinh).
    + by eapply PerName_resolve_inherited.
    + intros v d Hv Hd. by eapply PerName_add_func_inherited.
  - intros w a b Hreach Ha.
    destruct (reachable_invariant w Hreach) as [_ Hbr].
    destruct (Hbr a b Ha f) as (_ & _ & Hkey & _).
    destruct (PerName.promise b !! f) eqn:E; [|done].
    destruct (Hkey (ltac:(eauto))). done.
  - intros w Hnone. split; [|split].
    + destruct (promise_get_inherited (Flat.pysPromises w) f Hinh Hnone) as [Hget Hty].
      unfold Flat.pys_promise. unfold_monad. rewrite Hget. simpl.
      by rewrite decide_False.
    + by apply Flat_pys_resolve_inherited.
    + intros k. by apply Flat_pys_wait_inherited.
Qed.

Lemma PerName_tick_WaitDone w k ts :
  PerName.jobs w = PerName.WaitDone k :: ts ->
  PerName.tick w = PerName.set_jobs (ts ++ [PerName.CallBody k]) w.
Proof. intros Hj. unfold PerName.tick. rewrite Hj. reflexivity. Qed.

(** X21. In the per-name class a call that resumes and finds no function
    ends silently.  So on an instance on which no signal is stored under
    ["__proto__"] and whose function store has no own property
    ["__proto__"] and its original prototype, [call_func("__proto__", xs)]
    returns normally, does not wait, invokes nothing and rejects nothing:
    once the jobs have run the world is as it was. *)
Theorem call_func_proto_is_a_silent_no_op
    (xs : list value) (w : PerName.world) (a : nat) (b : PerName.bridge) :
  PerName.jobs w = [] -> PerName.heap w !! a = Some b ->
  PerName.promise b !! "__proto__" = None ->
  own (PerName.funcs b) !! "__proto__" = None ->
  proto (PerName.funcs b) = VObjectPrototype ->
  eval (PerName.call_func a "__proto__" xs) w = Ok tt /\
  eval (PerName.has_func a "__proto__") w = Ok false /\
  PerName.jobs (exec (PerName.call_func a "__proto__" xs) w)
    = [PerName.WaitDone {| this := a; name := "__proto__"; args := xs |}] /\
  PerName.drain (exec (PerName.call_func a "__proto__" xs) w) = w.
Proof.
  intros Hj Ha Hnone Hown Hp.
  assert (Hinh : inherited "__proto__") by (by left).
  set (k := {| this := a; name := "__proto__"; args := xs |}).
  assert (Hcall : PerName.call_func a "__proto__" xs w
                  = (Ok tt, PerName.set_jobs [PerName.WaitDone k] w)).
  { unfold PerName.call_func, PerName.rejecting.
    rewrite (PerName_wait_inherited _ _ _ _ _ Ha Hnone Hinh). by rewrite Hj. }
  assert (Hget : dict_get (PerName.funcs b) "__proto__" = VObjectPrototype).
  { unfold dict_get. by rewrite Hown, Hp. }
  split; [unfold eval; by rewrite Hcall|].
  split; [by rewrite (PerName_has_func_eval _ _ _ _ Ha), Hget|].
  unfold exec. rewrite Hcall. simpl. split; [done|].
  erewrite PerName_drain_step by reflexivity.
  erewrite PerName_tick_WaitDone by reflexivity. simpl.
  erewrite PerName_drain_step by reflexivity.
  set (w1 := PerName.set_jobs [PerName.CallBody k] _).
  assert (Ht : PerName.tick w1
               = exec (PerName.run_task (PerName.CallBody k)) (PerName.set_jobs [] w1))
    by reflexivity.
  rewrite Ht. unfold exec.
  rewrite (PerName_run_body_found _ k b) by done.
  rewrite decide_False by (simpl; by rewrite Hget).
  simpl. rewrite PerName_drain_idle by done.
  destruct w. simpl in *. by subst.
Qed.

End InheritedNames.


(** * The properties on concrete runs *)

(** The runs below are made with the host [bare_host]. *)

Section Runs.
Import Examples.
#[local] Existing Instance bare_host.

Ltac by_computation := apply (bool_decide_unpack _); vm_compute; exact I.

Ltac no_accessor :=
  let g := fresh in let s := fresh in let Habs := fresh in
  intros g s Habs; vm_compute in Habs; discriminate Habs.

Ltac solve_ordinary :=
  split; [reflexivity|split; [by_computation|no_accessor]].

Ltac solve_settable :=
  split; [reflexivity|split; [discriminate|no_accessor]].

Ltac no_builtin :=
  let k := fresh in let Habs := fresh in
  intros k Habs; vm_compute in Habs; discriminate Habs.

Lemma PerName_reachable_pw_a : PerName.reachable pw_a.
Proof. exact (PerName.reachable_step _ (PerName.Create (VStr "a")) PerName.reachable_init I). Qed.

Lemma PerName_reachable_pw_ab : PerName.reachable pw_ab.
Proof. exact (PerName.reachable_step _ (PerName.Create (VStr "b")) PerName_reachable_pw_a I). Qed.

Lemma PerName_reachable_pw_f : PerName.reachable pw_f.
Proof.
  exact (PerName.reachable_step _ (PerName.AddFunc 0 "f" (VFunc 7)) PerName_reachable_pw_a I).
Qed.

Lemma PerName_heap_pw_a : PerName.heap pw_a !! 0 = Some PerName.new_bridge.
Proof. reflexivity. Qed.

Lemma PerName_heap_pw_f :
  PerName.heap pw_f !! 0 =
    Some {| PerName.states := empty_states; PerName.refs := empty_dict;
            PerName.funcs := {| own := {[ "f" := Data (VFunc 7) ]};
                                proto := VObjectPrototype |};
            PerName.promise := {[ "f" := {| resolved := true; reactions := [] |} ]} |}.
Proof. reflexivity. Qed.

Lemma Single_heap_sw_a : Single.heap sw_a !! 0 = Some Single.new_bridge.
Proof. reflexivity. Qed.

Lemma ordinary_new_f : ordinary empty_dict "f".
Proof. solve_ordinary. Qed.

Lemma ordinary_pw_f :
  ordinary {| own := {[ "f" := Data (VFunc 7) ]}; proto := VObjectPrototype |} "f".
Proof. solve_ordinary. Qed.



Lemma add_func_validates_stores_and_resolves_witness :
  PerName.heap pw_a !! 0 = Some PerName.new_bridge /\
  typeof (VNum 5) <> "function" /\
  PerName.add_func 0 "f" (VNum 5) pw_a
    = (Throw (Error "Function must be a function."), pw_a) /\
  typeof (VFunc 7) = "function" /\
  ordinary (PerName.funcs PerName.new_bridge) "f" /\
  eval (PerName.add_func 0 "f" (VFunc 7)) pw_a = Ok tt.
Proof.
  assert (H5 : typeof (VNum 5) <> "function") by discriminate.
  assert (H7 : typeof (VFunc 7) = "function") by reflexivity.
  split; [exact PerName_heap_pw_a|]. split; [exact H5|]. split.
  - exact (proj1 (proj1 (add_func_validates_stores_and_resolves "f" (VNum 5))
                    pw_a 0 _ PerName_heap_pw_a) H5).
  - split; [exact H7|]. split; [exact ordinary_new_f|].
    exact (proj1 (proj2 (proj1 (add_func_validates_stores_and_resolves "f" (VFunc 7))
                           pw_a 0 _ PerName_heap_pw_a) H7 ordinary_new_f)).
Defined.

Lemma Single_add_func_accepts_non_function :
  typeof (VNum 5) <> "function" /\
  eval (Single.add_func 0 "f" (VNum 5)) sw_a = Ok tt /\
  (Single.funcs <$> Single.heap (exec (Single.add_func 0 "f" (VNum 5)) sw_a) !! 0)
    = Some {| own := {[ "f" := Data (VNum 5) ]}; proto := VObjectPrototype |} /\
  (resolved <$> (Single.promise <$>
     Single.heap (exec (Single.add_func 0 "f" (VFunc 7)) sw_a) !! 0))
    = Some false.
Proof. split; [discriminate|]. split; [reflexivity|]. split; reflexivity. Qed.

Lemma Single_create_pys_bridge_second_call_undefined_witness :
  typeof (registry_get (Single.pysBridge Single.init) (normalized "a")) = "undefined" /\
  eval (Single.create_pys_bridge (VStr "a")) Single.init = Ok (VInstance 0) /\
  eval (Single.create_pys_bridge (VStr "a")) sw_a = Ok VUndefined.
Proof.
  assert (Hu : typeof (registry_get (Single.pysBridge Single.init) (normalized "a"))
               = "undefined") by reflexivity.
  split; [exact Hu|].
  pose proof (Single_create_pys_bridge_second_call_undefined "a" Single.init) as [H2 H1].
  split; [exact (H1 Hu) | exact H2].
Defined.

Lemma resolution_idempotent_and_monotonic_witness :
  (exists b, PerName.heap pw_f !! 0 = Some b /\
             resolved (PerName.signal "f" b) = true) /\
  PerName.resolve 0 "f" pw_f = (Ok tt, pw_f) /\
  resolved (Flat.signal "ready" fw_ready) = true /\
  Flat.pys_resolve "ready" fw_ready = (Ok tt, fw_ready) /\
  resolved (Flat.signal "ready"
              (Flat.perform_all [Flat.Promise "ready"; Flat.Wait "ready"; Flat.Tick]
                 fw_ready)) = true.
Proof.
  assert (Hr : resolved (PerName.signal "f"
                 {| PerName.states := empty_states; PerName.refs := empty_dict;
                    PerName.funcs := {| own := {[ "f" := Data (VFunc 7) ]};
                                        proto := VObjectPrototype |};
                    PerName.promise :=
                      {[ "f" := {| resolved := true; reactions := [] |} ]} |}) = true)
    by reflexivity.
  assert (Hf : resolved (Flat.signal "ready" fw_ready) = true) by reflexivity.
  destruct (resolution_idempotent_and_monotonic "f") as (HP & _).
  destruct (resolution_idempotent_and_monotonic "ready") as (_ & HF).
  split; [eexists; split; [exact PerName_heap_pw_f|exact Hr]|].
  split; [exact (proj1 (HP pw_f 0 _ PerName_heap_pw_f Hr))|].
  split; [exact Hf|].
  split; [exact (proj1 (HF fw_ready Hf))|].
  exact (proj2 (HF fw_ready Hf) _).
Defined.



Lemma set_state_calls_setter_once_getter_is_snapshot_witness :
  PerName.heap pw_a !! 0 = Some PerName.new_bridge /\
  Single.heap sw_a !! 0 = Some Single.new_bridge /\
  (let w1 := exec (PerName.add_state 0 "x" (VNum 1) (VFunc 3)) pw_a in
   PerName.log (exec (PerName.set_state 0 "x" (VNum 5)) w1) = [Invoked 3 [VNum 5]] /\
   eval (PerName.state 0 "x") (exec (PerName.set_state 0 "x" (VNum 5)) w1) = Ok (VNum 1)) /\
  (let w1 := exec (Single.add_state 0 "x" (VNum 1) (VFunc 3)) sw_a in
   Single.log (exec (Single.set_state 0 "x" (VNum 5)) w1) = [Invoked 3 [VNum 5]] /\
   eval (Single.state 0 "x") (exec (Single.set_state 0 "x" (VNum 5)) w1) = Ok (VNum 1)).
Proof.
  destruct (set_state_calls_setter_once_getter_is_snapshot "x" (VNum 1) (VNum 5) 3)
    as [HP HS].
  destruct (HP pw_a 0 _ PerName_heap_pw_a) as [HP1 HP2].
  destruct (HS sw_a 0 _ Single_heap_sw_a) as [HS1 HS2].
  split; [exact PerName_heap_pw_a|]. split; [exact Single_heap_sw_a|].
  split; (split; [|assumption]).
  - unfold exec at 1. rewrite HP1. reflexivity.
  - unfold exec at 1. rewrite HS1. reflexivity.
Defined.

Lemma get_pys_bridge_found_or_not_found_witness :
  registered (PerName.pysBridge pw_a) !! normalized "a" = Some 0 /\
  PerName.get_pys_bridge (VStr "a") pw_a = (Ok (VInstance 0), pw_a) /\
  registered (PerName.pysBridge pw_a) !! normalized "missing" = None /\
  instance_proto (PerName.pysBridge pw_a) = None /\
  plain (normalized "missing") /\
  PerName.get_pys_bridge (VStr "missing") pw_a
    = (Throw (Error "Bridge id missing not found."), pw_a) /\
  inherited (normalized "toString") /\
  PerName.get_pys_bridge (VStr "toString") pw_a = (Ok (VBuiltin "toString"), pw_a).
Proof.
  assert (Ha : registered (PerName.pysBridge pw_a) !! normalized "a" = Some 0)
    by reflexivity.
  assert (Hm : registered (PerName.pysBridge pw_a) !! normalized "missing" = None)
    by reflexivity.
  assert (Ht : registered (PerName.pysBridge pw_a) !! normalized "toString" = None)
    by reflexivity.
  assert (Hp : instance_proto (PerName.pysBridge pw_a) = None) by reflexivity.
  assert (Hpl : plain (normalized "missing")) by by_computation.
  assert (Hin : inherited (normalized "toString")) by by_computation.
  split; [exact Ha|].
  split; [exact (proj1 (proj1 (get_pys_bridge_found_or_not_found "a") pw_a) 0 Ha)|].
  split; [exact Hm|]. split; [exact Hp|]. split; [exact Hpl|].
  split.
  - exact (proj1 (proj2 (proj1 (get_pys_bridge_found_or_not_found "missing") pw_a)
                    Hm Hp) Hpl).
  - split; [exact Hin|].
    exact (proj1 (proj2 (proj2 (proj1 (get_pys_bridge_found_or_not_found "toString") pw_a)
                           Ht Hp) Hin)).
Defined.

Lemma instances_have_disjoint_stores_witness :
  PerName.reachable pw_ab /\
  registry_get (PerName.pysBridge pw_ab) "a" = VInstance 0 /\
  registry_get (PerName.pysBridge pw_ab) "b" = VInstance 1 /\
  "a" <> "b" /\
  eval (PerName.has_state 1 "x") pw_ab = Ok false /\
  eval (PerName.has_state 1 "x")
       (exec (PerName.add_state 0 "x" (VNum 1) (VFunc 3)) pw_ab) = Ok false.
Proof.
  assert (Ha : registry_get (PerName.pysBridge pw_ab) "a" = VInstance 0) by reflexivity.
  assert (Hb : registry_get (PerName.pysBridge pw_ab) "b" = VInstance 1) by reflexivity.
  assert (Hne : "a" <> "b") by discriminate.
  assert (Hf : eval (PerName.has_state 1 "x") pw_ab = Ok false) by reflexivity.
  destruct (instances_have_disjoint_stores pw_ab "a" "b" 0 1 "x"
              PerName_reachable_pw_ab Ha Hb Hne) as [_ Hfr].
  destruct (Hfr (exec (PerName.add_state 0 "x" (VNum 1) (VFunc 3)) pw_ab))
    as (_ & _ & H3); [left; eauto|].
  repeat (split; [assumption || exact PerName_reachable_pw_ab|]).
  exact (H3 Hf).
Defined.

Lemma undefined_ref_reads_as_absent_witness :
  PerName.heap pw_a !! 0 = Some PerName.new_bridge /\
  proto (PerName.refs PerName.new_bridge) = VObjectPrototype /\
  "r" <> "__proto__" /\
  (let w1 := exec (PerName.add_ref 0 "r" VUndefined) pw_a in
   eval (PerName.has_ref 0 "r") w1 = Ok false /\
   eval (PerName.ref 0 "r") w1 = Throw (Error "Var r not found.")) /\
  own (PerName.refs PerName.new_bridge) !! "__proto__" = None /\
  (let w1 := exec (PerName.add_ref 0 "__proto__" VUndefined) pw_a in
   eval (PerName.has_ref 0 "__proto__") w1 = Ok true /\
   eval (PerName.ref 0 "__proto__") w1 = Ok VObjectPrototype) /\
  eval (Flat.pys_ref "r") (exec (Flat.pys_register_ref "r" VUndefined) Flat.init)
    = Throw (Error "Ref r not found.").
Proof.
  assert (Hr : "r" <> "__proto__") by discriminate.
  destruct (undefined_ref_reads_as_absent "r") as [HP HF].
  destruct (undefined_ref_reads_as_absent "__proto__") as [HP' _].
  destruct (HP pw_a 0 _ PerName_heap_pw_a eq_refl) as (_ & H2 & _); [no_accessor|].
  destruct (HP' pw_a 0 _ PerName_heap_pw_a eq_refl) as (_ & _ & _ & H4 & _); [no_accessor|].
  destruct (HF Flat.init eq_refl) as (_ & H6 & _); [no_accessor|].
  split; [exact PerName_heap_pw_a|]. split; [reflexivity|]. split; [exact Hr|].
  split; [exact (H2 Hr)|]. split; [reflexivity|].
  split; [exact (proj2 (H4 eq_refl eq_refl))|]. exact (H6 Hr).
Defined.

Lemma constructor_needs_private_key_witness :
  PerName.reachable pw_a /\
  PerName.constructor (VStr "z") VUndefined pw_a =
    (Throw (Error "Cannot instantiate PysBridge directly."), pw_a) /\
  (exists id, registered (PerName.pysBridge pw_a) !! id = Some 0 /\
              registry_get (PerName.pysBridge pw_a) id = VInstance 0).
Proof.
  destruct (constructor_needs_private_key pw_a PerName_reachable_pw_a)
    as (H1 & _ & H3).
  split; [exact PerName_reachable_pw_a|]. split.
  - apply H1. discriminate.
  - apply H3. vm_compute. lia.
Defined.

Lemma non_string_id_is_refused_witness :
  typeof (VNum 3) <> "string" /\
  PerName.create_pys_bridge (VNum 3) pw_a
    = (Throw (Error "UUID must be a string."), pw_a) /\
  Single.constructor (VNum 3) sw_a
    = (Throw (Error "UUID must be a string."), sw_a).
Proof.
  assert (Hn : typeof (VNum 3) <> "string") by discriminate.
  destruct (non_string_id_is_refused (VNum 3) Hn) as [HP HS].
  split; [exact Hn|]. split.
  - exact (proj1 (HP pw_a)).
  - exact (proj2 (proj2 (HS sw_a))).
Defined.

Lemma registered_instance_is_permanent_witness :
  Forall PerName.allowed [PerName.Create (VStr "b"); PerName.New (VStr "a") VUndefined;
                          PerName.AddFunc 0 "f" (VFunc 7); PerName.Tick] /\
  eval (PerName.get_pys_bridge (VStr "a")) pw_a = Ok (VInstance 0) /\
  eval (PerName.get_pys_bridge (VStr "a"))
       (PerName.perform_all [PerName.Create (VStr "b"); PerName.New (VStr "a") VUndefined;
                             PerName.AddFunc 0 "f" (VFunc 7); PerName.Tick] pw_a)
    = Ok (VInstance 0).
Proof.
  assert (Hos : Forall PerName.allowed
                  [PerName.Create (VStr "b"); PerName.New (VStr "a") VUndefined;
                   PerName.AddFunc 0 "f" (VFunc 7); PerName.Tick]).
  { repeat constructor. discriminate. }
  assert (Hg : eval (PerName.get_pys_bridge (VStr "a")) pw_a = Ok (VInstance 0))
    by reflexivity.
  split; [exact Hos|]. split; [exact Hg|].
  exact (registered_instance_is_permanent "a" 0 _ pw_a Hos Hg).
Defined.

Lemma Single_constructor_replaces_registration_witness :
  eval (Single.get_pys_bridge (VStr "a")) sw_a = Ok (VInstance 0) /\
  0 < length (Single.heap sw_a) /\
  eval (Single.get_pys_bridge (VStr "a")) sw_twice = Ok (VInstance 1) /\
  eval (Single.get_pys_bridge (VStr "a")) sw_twice <> Ok (VInstance 0).
Proof.
  assert (Hg : eval (Single.get_pys_bridge (VStr "a")) sw_a = Ok (VInstance 0))
    by reflexivity.
  assert (Hl : 0 < length (Single.heap sw_a)) by (vm_compute; lia).
  destruct (Single_constructor_replaces_registration "a" sw_a)
    as (_ & Hnew & Hold).
  split; [exact Hg|]. split; [exact Hl|]. split; [exact Hnew|].
  exact (proj1 (Hold 0 Hg Hl)).
Defined.

Lemma created_instance_is_empty_witness :
  eval (PerName.has_pys_bridge (VStr "b")) pw_a = Ok false /\
  eval (PerName.create_pys_bridge (VStr "b")) pw_a = Ok (VInstance 1) /\
  plain "x" /\
  eval (PerName.has_state 1 "x") pw_ab = Ok false /\
  eval (PerName.ref 1 "x") pw_ab = Throw (Error "Var x not found.") /\
  inherited "toString" /\
  eval (PerName.has_func 1 "toString") pw_ab = Ok true.
Proof.
  assert (Hh : eval (PerName.has_pys_bridge (VStr "b")) pw_a = Ok false)
    by reflexivity.
  assert (Hx : plain "x") by by_computation.
  assert (Ht : inherited "toString") by by_computation.
  destruct (created_instance_is_empty "b" "x" [] pw_a Hh) as (H1 & _ & Hpl & _).
  destruct (created_instance_is_empty "b" "toString" [] pw_a Hh) as (_ & _ & _ & Hin).
  destruct (Hpl Hx) as (H2 & _ & _ & _ & H6 & _).
  destruct (Hin Ht) as (_ & _ & H9 & _).
  split; [exact Hh|]. split; [exact H1|]. split; [exact Hx|]. split; [exact H2|].
  split; [exact H6|]. split; [exact Ht|]. apply H9. discriminate.
Defined.

Lemma add_state_then_read_witness :
  PerName.heap pw_a !! 0 = Some PerName.new_bridge /\
  (let w1 := exec (PerName.add_state 0 "x" (VNum 1) (VFunc 3)) pw_a in
   eval (PerName.has_state 0 "x") w1 = Ok true /\
   eval (PerName.state 0 "x") w1 = Ok (VNum 1) /\
   eval (PerName.state 0 "x") (exec (PerName.add_state 0 "x" (VNum 2) (VFunc 4)) w1)
     = Ok (VNum 2)).
Proof.
  destruct (add_state_then_read "x" (VNum 1) (VFunc 3) pw_a 0 _ PerName_heap_pw_a)
    as (H1 & H2 & _ & _ & _ & H6 & _).
  split; [exact PerName_heap_pw_a|]. split; [exact H1|]. split; [exact H2|].
  rewrite (H6 (VNum 2) (VFunc 4)).
  exact (proj1 (proj2 (add_state_then_read "x" (VNum 2) (VFunc 4) pw_a 0 _
                         PerName_heap_pw_a))).
Defined.

Lemma state_and_set_state_failures_witness :
  PerName.heap pw_a !! 0 = Some PerName.new_bridge /\
  eval (PerName.has_state 0 "x") pw_a = Ok false /\
  PerName.set_state 0 "x" (VNum 5) pw_a
    = (Throw (Error "State x not found."), pw_a) /\
  typeof VUndefined <> "function" /\
  (exists msg,
      PerName.set_state 0 "x" (VNum 5)
        (exec (PerName.add_state 0 "x" (VNum 1) VUndefined) pw_a)
      = (Throw (TypeError msg),
         exec (PerName.add_state 0 "x" (VNum 1) VUndefined) pw_a)).
Proof.
  assert (Hh : eval (PerName.has_state 0 "x") pw_a = Ok false) by reflexivity.
  assert (Hu : typeof VUndefined <> "function") by discriminate.
  destruct (state_and_set_state_failures "x" (VNum 5) pw_a 0 _ PerName_heap_pw_a)
    as [H1 H2].
  split; [exact PerName_heap_pw_a|]. split; [exact Hh|]. split; [exact (proj2 (H1 Hh))|].
  split; [exact Hu|]. exact (H2 (VNum 1) VUndefined Hu).
Defined.

Lemma add_ref_then_read_witness :
  VNum 4 <> VUndefined /\
  PerName.heap pw_a !! 0 = Some PerName.new_bridge /\
  settable (PerName.refs PerName.new_bridge) "r" /\
  eval (PerName.ref 0 "r") (exec (PerName.add_ref 0 "r" (VNum 4)) pw_a)
    = Ok (VNum 4) /\
  settable (Flat.pysRefs Flat.init) "r" /\
  eval (Flat.pys_ref "r") (exec (Flat.pys_register_ref "r" (VNum 4)) Flat.init)
    = Ok (VNum 4).
Proof.
  assert (Hv : VNum 4 <> VUndefined) by discriminate.
  assert (Hs : settable (PerName.refs PerName.new_bridge) "r") by solve_settable.
  assert (Hs' : settable (Flat.pysRefs Flat.init) "r") by solve_settable.
  destruct (add_ref_then_read "r" (VNum 4) Hv) as (HP & _ & HF).
  destruct (HP pw_a 0 _ PerName_heap_pw_a Hs) as (_ & H2 & _).
  split; [exact Hv|]. split; [exact PerName_heap_pw_a|]. split; [exact Hs|]. split.
  - unfold eval. by rewrite H2.
  - split; [exact Hs'|]. exact (proj1 (HF Flat.init Hs')).
Defined.


Lemma registration_is_readiness_witness :
  PerName.reachable pw_f /\
  (exists b, PerName.heap pw_f !! 0 = Some b /\
             ordinary (PerName.funcs b) "f" /\
             (eval (PerName.has_func 0 "f") pw_f = Ok true
              <-> resolved (PerName.signal "f" b) = true) /\
             PerName.pending "f" b = []).
Proof.
  split; [exact PerName_reachable_pw_f|].
  eexists. split; [exact PerName_heap_pw_f|]. split; [exact ordinary_pw_f|].
  destruct (registration_is_readiness "f" pw_f 0 _
              PerName_reachable_pw_f PerName_heap_pw_f) as (Hreg & _ & _).
  destruct (Hreg ordinary_pw_f) as [H1 H2].
  split; [exact H1|]. apply H2. reflexivity.
Defined.

Lemma latest_function_is_the_one_called_witness :
  PerName.reachable pw_a /\ PerName.jobs pw_a = [] /\
  PerName.heap pw_a !! 0 = Some PerName.new_bridge /\
  ordinary (PerName.funcs PerName.new_bridge) "f" /\
  eval (PerName.has_func 0 "f") pw_a = Ok false /\
  PerName.log
    (PerName.drain
       (exec (PerName.add_func 0 "f" (VFunc 8))
          (exec (PerName.add_func 0 "f" (VFunc 7))
             (exec (PerName.call_func 0 "f" [VNum 1]) pw_a))))
    = [Invoked 8 [VNum 1]].
Proof.
  assert (Hj : PerName.jobs pw_a = []) by reflexivity.
  assert (Hh : eval (PerName.has_func 0 "f") pw_a = Ok false) by reflexivity.
  split; [exact PerName_reachable_pw_a|]. split; [exact Hj|].
  split; [exact PerName_heap_pw_a|]. split; [exact ordinary_new_f|]. split; [exact Hh|].
  exact (proj1 (latest_function_is_the_one_called "f" [VNum 1] 7 8 pw_a 0 _
                  PerName_reachable_pw_a Hj PerName_heap_pw_a ordinary_new_f Hh)).
Defined.

Lemma Single_call_func_on_resolved_instance_witness :
  Single.jobs sw_resolved = [] /\
  Single.heap sw_resolved !! 0
    = Some (Single.mkBridge empty_states empty_dict empty_dict
              {| resolved := true; reactions := [] |}) /\
  (forall k, dict_get empty_dict "f" <> VBuiltin k) /\
  Single.log (Single.drain (exec (Single.call_func 0 "f" [VNum 1]) sw_resolved))
    = [Rejected (Error "Function f not function.")].
Proof.
  assert (Hj : Single.jobs sw_resolved = []) by reflexivity.
  assert (Hb : Single.heap sw_resolved !! 0
               = Some (Single.mkBridge empty_states empty_dict empty_dict
                         {| resolved := true; reactions := [] |}))
    by reflexivity.
  assert (Hn : forall k, dict_get empty_dict "f" <> VBuiltin k) by no_builtin.
  split; [exact Hj|]. split; [exact Hb|]. split; [exact Hn|].
  rewrite (proj2 (Single_call_func_on_resolved_instance "f" [VNum 1] sw_resolved 0 _
                    Hj Hb eq_refl Hn)).
  reflexivity.
Defined.

Lemma Single_resolve_is_idempotent_witness :
  Single.heap sw_called !! 0 =
    Some {| Single.states := empty_states; Single.refs := empty_dict;
            Single.funcs := empty_dict;
            Single.promise :=
              {| resolved := false;
                 reactions := [Single.WaitDone {| this := 0; name := "f";
                                                  args := [VNum 1; VNum 2] |}] |} |} /\
  Single.jobs (exec (Single.resolve 0) sw_called)
    = [Single.WaitDone {| this := 0; name := "f"; args := [VNum 1; VNum 2] |}] /\
  Single.resolve 0 (exec (Single.resolve 0) sw_called)
    = (Ok tt, exec (Single.resolve 0) sw_called).
Proof.
  assert (Hb : Single.heap sw_called !! 0 =
    Some {| Single.states := empty_states; Single.refs := empty_dict;
            Single.funcs := empty_dict;
            Single.promise :=
              {| resolved := false;
                 reactions := [Single.WaitDone {| this := 0; name := "f";
                                                  args := [VNum 1; VNum 2] |}] |} |})
    by reflexivity.
  destruct (Single_resolve_is_idempotent sw_called 0 _ Hb) as (_ & H2 & _ & H4).
  split; [exact Hb|]. split; [exact H2|]. exact H4.
Defined.

Lemma one_signal_gates_many_functions_witness :
  "ready" <> "" /\ plain "ready" /\ Flat.jobs fw_fg = [] /\
  resolved (Flat.signal "ready" fw_fg) = false /\
  reactions (Flat.signal "ready" fw_fg) = [] /\
  Forall (fun c => forall k, dict_get (Flat.pysFunctions fw_fg) c.1 <> VBuiltin k)
         [("g", [VNum 1]); ("f", []); ("h", [VNum 2])] /\
  Flat.log (Flat.drain (exec (Flat.pys_resolve "ready")
              (Flat.perform_all
                 (flat_call "ready" <$> [("g", [VNum 1]); ("f", []); ("h", [VNum 2])])
                 fw_fg)))
    = [Invoked 8 [VNum 1]; Invoked 7 []; Rejected (Error "Function h not function.")].
Proof.
  assert (Hp : "ready" <> "") by discriminate.
  assert (Hpl : plain "ready") by by_computation.
  assert (Hj : Flat.jobs fw_fg = []) by reflexivity.
  assert (Hu : resolved (Flat.signal "ready" fw_fg) = false) by reflexivity.
  assert (Hn : reactions (Flat.signal "ready" fw_fg) = []) by reflexivity.
  assert (Hb : Forall (fun c => forall k,
                         dict_get (Flat.pysFunctions fw_fg) c.1 <> VBuiltin k)
                      [("g", [VNum 1]); ("f", []); ("h", [VNum 2])]).
  { apply Forall_cons; split; [no_builtin|].
    apply Forall_cons; split; [no_builtin|].
    apply Forall_cons; split; [no_builtin|]. apply Forall_nil_2. }
  repeat (split; [assumption|]).
  destruct (one_signal_gates_many_functions "ready"
              [("g", [VNum 1]); ("f", []); ("h", [VNum 2])] fw_fg Hp Hpl Hj Hu Hn Hb)
    as (_ & _ & H3 & _).
  rewrite H3. reflexivity.
Defined.

Lemma flat_state_store_witness :
  typeof_lookup (states_get (Flat.pysStates Flat.init) "x") = "undefined" /\
  Flat.pys_set "x" (VNum 5) Flat.init
    = (Throw (Error "State x not found."), Flat.init) /\
  (let w1 := exec (Flat.pys_register_state "x" (VNum 1) (VFunc 3)) Flat.init in
   Flat.log (exec (Flat.pys_set "x" (VNum 5)) w1) = [Invoked 3 [VNum 5]] /\
   eval (Flat.pys_get "x") (exec (Flat.pys_set "x" (VNum 5)) w1) = Ok (VNum 1)).
Proof.
  assert (Hn : typeof_lookup (states_get (Flat.pysStates Flat.init) "x") = "undefined")
    by reflexivity.
  destruct (flat_state_store "x" (VNum 1) (VNum 5) 3 Flat.init)
    as (_ & H2 & H3 & H4 & _).
  split; [exact Hn|]. split; [exact (proj2 (H4 Hn))|]. split; [|exact H3].
  unfold exec at 1. rewrite H2. reflexivity.
Defined.

Lemma pys_func_stores_any_value_witness :
  settable (Flat.pysFunctions fw_fg) "f" /\ "g" <> "f" /\
  (forall k, VNum 5 <> VBuiltin k) /\
  dict_get (Flat.pysFunctions (exec (Flat.pys_func "f" (VNum 5)) fw_fg)) "g" = VFunc 8 /\
  Flat.log (exec (Flat.pys_call_func "f" VUndefined [VNum 1])
                 (exec (Flat.pys_func "f" (VNum 5)) fw_fg))
    = [Rejected (Error "Function f not function.")].
Proof.
  assert (Hs : settable (Flat.pysFunctions fw_fg) "f") by solve_settable.
  assert (Hg : "g" <> "f") by discriminate.
  assert (Hn : forall k, VNum 5 <> VBuiltin k) by (intros k; discriminate).
  destruct (pys_func_stores_any_value "f" (VNum 5) [VNum 1] fw_fg Hs)
    as (_ & _ & H2 & H3 & _).
  split; [exact Hs|]. split; [exact Hg|]. split; [exact Hn|]. split.
  - rewrite (H3 "g" Hg). reflexivity.
  - unfold exec at 1. rewrite (H2 Hn). reflexivity.
Defined.

Lemma add_ref_proto_sets_the_prototype_witness :
  PerName.heap pw_a !! 0 = Some PerName.new_bridge /\
  proto (PerName.refs PerName.new_bridge) = VObjectPrototype /\
  own (PerName.refs PerName.new_bridge) !! "__proto__" = None /\
  typeof (VNum 4) <> "object" /\ typeof (VNum 4) <> "function" /\
  exec (PerName.add_ref 0 "__proto__" (VNum 4)) pw_a = pw_a /\
  eval (PerName.has_ref 0 "toString") (exec (PerName.add_ref 0 "__proto__" VNull) pw_a)
    = Ok false /\
  eval (PerName.has_ref 0 "toString") pw_a = Ok true.
Proof.
  assert (Ho : typeof (VNum 4) <> "object") by discriminate.
  assert (Hf : typeof (VNum 4) <> "function") by discriminate.
  destruct (add_ref_proto_sets_the_prototype (VNum 4) pw_a 0 _ PerName_heap_pw_a
              eq_refl eq_refl) as (_ & H2 & _).
  destruct (add_ref_proto_sets_the_prototype VNull pw_a 0 _ PerName_heap_pw_a
              eq_refl eq_refl) as (_ & _ & _ & H4).
  destruct (H4 eq_refl "toString" eq_refl) as [H5 H6].
  split; [exact PerName_heap_pw_a|]. split; [reflexivity|]. split; [reflexivity|].
  split; [exact Ho|]. split; [exact Hf|]. split; [exact (proj1 (H2 Ho Hf))|].
  split; [exact H5|]. exact (H6 eq_refl).
Defined.

Lemma inherited_name_is_taken_for_a_signal_witness :
  inherited "toString" /\
  PerName.heap pw_a !! 0 = Some PerName.new_bridge /\
  PerName.promise PerName.new_bridge !! "toString" = None /\
  PerName.jobs (exec (PerName.call_func 0 "toString" [VNum 1]) pw_a)
    = [PerName.WaitDone {| this := 0; name := "toString"; args := [VNum 1] |}] /\
  (exists msg, PerName.resolve 0 "toString" pw_a = (Throw (TypeError msg), pw_a)) /\
  Flat.pysPromises Flat.init !! "toString" = None /\
  (exists msg, Flat.pys_resolve "toString" Flat.init = (Throw (TypeError msg), Flat.init)).
Proof.
  assert (Hin : inherited "toString") by by_computation.
  destruct (inherited_name_is_taken_for_a_signal "toString" [VNum 1] Hin)
    as (HP & _ & HF).
  destruct (HP pw_a 0 _ PerName_heap_pw_a eq_refl) as (H1 & H2 & _).
  destruct (HF Flat.init eq_refl) as (_ & H4 & _).
  split; [exact Hin|]. split; [exact PerName_heap_pw_a|]. split; [reflexivity|].
  split; [unfold exec; rewrite H1; reflexivity|].
  split; [exact H2|]. split; [reflexivity|]. exact H4.
Defined.

Lemma call_func_proto_is_a_silent_no_op_witness :
  PerName.jobs pw_a = [] /\
  PerName.heap pw_a !! 0 = Some PerName.new_bridge /\
  PerName.promise PerName.new_bridge !! "__proto__" = None /\
  own (PerName.funcs PerName.new_bridge) !! "__proto__" = None /\
  proto (PerName.funcs PerName.new_bridge) = VObjectPrototype /\
  PerName.drain (exec (PerName.call_func 0 "__proto__" [VNum 1]) pw_a) = pw_a.
Proof.
  assert (Hj : PerName.jobs pw_a = []) by reflexivity.
  split; [exact Hj|]. split; [exact PerName_heap_pw_a|].
  split; [reflexivity|]. split; [reflexivity|]. split; [reflexivity|].
  exact (proj2 (proj2 (proj2 (call_func_proto_is_a_silent_no_op [VNum 1] pw_a 0 _ Hj
                                PerName_heap_pw_a eq_refl eq_refl eq_refl)))).
Defined.

End Runs.
